(** * Juizo task pane: write-back of query results and chart auto-update

    A shallow embedding of [src/taskpane/taskpane.ts]: the per-cell
    sanitisation and the batched write of [outputToExcel], the table-change
    subscription kept by [runVegaPreview], [setupVegaAutoUpdate] and
    [closeVegaEditor], the chart data that [renderVegaChart] keeps, the
    reading of a table by [getArqueroTableFromExcel], the lists of saved
    diagrams and charts, and [sortTable].

    The spreadsheet host is external.  Its answers (whether a
    [context.sync()] resolves or rejects, and with which error) are inputs of
    the model; the requests the code queues and commits are recorded in a
    log.  The query library, the chart renderer and [JSON] are external too
    and enter as parameters.  Event handlers run one after the other: a click
    is dealt with to its end before the next event. *)

From Stdlib Require Import ZArith NArith List Bool Lia Ascii String DecimalString.
From Stdlib Require Import Floats.SpecFloat.
From stdpp Require Import base list gmap.

Open Scope N_scope.
Open Scope nat_scope.

(** ** JavaScript strings and values *)

Module Js.

(** A JavaScript string is a sequence of 16-bit code units; [length],
    [substring] and a regular expression without the [u] flag all work on
    code units. *)
Abbreviation jsstring := (list N).

(** The code units of an ASCII literal of the source. *)
Definition lit (s : string) : jsstring :=
  List.map N_of_ascii (list_ascii_of_string s).

(** [[\x00-\x08\x0B\x0C\x0E-\x1F]], the character class of the [replace]
    in [outputToExcel]. *)
Definition invalidControl (c : N) : bool :=
  ((0 <=? c) && (c <=? 8) || (c =? 11) || (c =? 12)
   || (14 <=? c) && (c <=? 31))%N.

(** [val.replace(/[\x00-\x08\x0B\x0C\x0E-\x1F]/g, "")] *)
Definition stripControl (s : jsstring) : jsstring :=
  List.filter (fun c => negb (invalidControl c)) s.

(** [s.substring(0, n)] for [0 <= n] *)
Definition substring0 (n : nat) (s : jsstring) : jsstring := take n s.

(** WhiteSpace and LineTerminator code points of ECMAScript, the ones
    [String.prototype.trim] removes. *)
Definition isTrimmed (c : N) : bool :=
  ((c =? 9) || (c =? 10) || (c =? 11) || (c =? 12) || (c =? 13) || (c =? 32)
   || (c =? 160) || (c =? 5760) || (8192 <=? c) && (c <=? 8202)
   || (c =? 8232) || (c =? 8233) || (c =? 8239) || (c =? 8287)
   || (c =? 12288) || (c =? 65279))%N.

Fixpoint trimStart (s : jsstring) : jsstring :=
  match s with
  | c :: rest => if isTrimmed c then trimStart rest else s
  | [] => []
  end.

(** [s.trim()] *)
Definition trim (s : jsstring) : jsstring :=
  rev (trimStart (rev (trimStart s))).

Definition isNaN (n : spec_float) : bool :=
  match n with S754_nan => true | _ => false end.

Section Values.
(** Objects other than [Date] (plain objects, arrays) are opaque to the
    add-in; the only thing it does with one is hand it to
    [JSON.stringify]. *)
Variable object : Type.

(** The values a cell of the query result can hold, told apart the way
    [typeof] and [instanceof Date] tell them apart; the user's query can
    put any of them into a column.  A [Date] is represented by its time
    value, a symbol or a function by a number that identifies it. *)
Inductive value : Type :=
| VUndefined
| VNull
| VBoolean (b : bool)
| VNumber (n : spec_float)
| VBigInt (n : Z)
| VString (s : jsstring)
| VSymbol (id : nat)
| VFunction (id : nat)
| VDate (tv : spec_float)
| VObject (o : object).
End Values.

Arguments VUndefined {object}.
Arguments VNull {object}.
Arguments VBoolean {object} b.
Arguments VNumber {object} n.
Arguments VBigInt {object} n.
Arguments VString {object} s.
Arguments VSymbol {object} id.
Arguments VFunction {object} id.
Arguments VDate {object} tv.
Arguments VObject {object} o.

(** What [JSON.stringify(val)] comes to for an object: a text; [undefined],
    when the object's own [toJSON] returns [undefined] (or a function or a
    symbol); or a thrown exception (a cyclic structure, a big integer
    inside), given by its message. *)
Inductive json : Type :=
| JsonText (text : jsstring)
| JsonUndefined
| JsonThrows (message : jsstring).

End Js.

Import Js.

(** ** Per-cell sanitisation *)

Module Sanitize.

Definition MAX_CELL_CHARS : nat := N.to_nat 32000.
Definition TRUNCATED : jsstring := lit "...(TRUNCATED)".
Definition CIRCULAR : jsstring := lit "[Circular/Error]".

Section WithStringify.
Context {object : Type}.

(** [JSON.stringify(val)] for an object. *)
Variable JSON_stringify : object -> json.

(** The block [if (typeof val === 'string') { ... }] followed by the final
    [return val], for a string [s]. *)
Definition sanitizeString (s : jsstring) : jsstring :=
  let s := stripControl s in
  if MAX_CELL_CHARS <? length s
  then substring0 MAX_CELL_CHARS s ++ TRUNCATED
  else s.

(** The arrow function mapped over every cell in [outputToExcel]. *)
Definition sanitizeCell (val : value object) : value object :=
  match val with
  | VUndefined | VNull => VString []
  | _ =>
    if match val with VNumber n => isNaN n | _ => false end
    then VString []
    else
      let val :=
        match val with
        | VObject o =>
          match JSON_stringify o with
          | JsonText text => VString text
          | JsonUndefined => VUndefined
          | JsonThrows _ => VString CIRCULAR
          end
        | _ => val
        end in
      match val with
      | VString s => VString (sanitizeString s)
      | _ => val
      end
  end.

(** *** The sanitisation as the specification words it *)

(** The code units the specification lists as stripped:
    0x00-0x08, 0x0B-0x0C, 0x0E-0x1F. *)
Definition spec_stripped : list N :=
  [0; 1; 2; 3; 4; 5; 6; 7; 8; 11; 12; 14; 15; 16; 17; 18; 19; 20; 21; 22;
   23; 24; 25; 26; 27; 28; 29; 30; 31]%N.

Definition spec_strip (s : jsstring) : jsstring :=
  List.filter (fun c => negb (bool_decide (c ∈ spec_stripped))) s.

(** "stripped ..., then truncated to 32,000 characters with a suffix if
    longer" *)
Definition spec_string (s : jsstring) : jsstring :=
  let t := spec_strip s in
  if decide (32000 < N.of_nat (length t))%N
  then take (N.to_nat 32000) t ++ lit "...(TRUNCATED)"
  else t.

(** "non-Date object/array values -> JSON text, or a fixed placeholder
    string if serialization itself fails".  The words say nothing of an
    object for which there is neither a text nor a failure. *)
Definition spec_json (o : object) : option jsstring :=
  match JSON_stringify o with
  | JsonText text => Some text
  | JsonThrows _ => Some (lit "[Circular/Error]")
  | JsonUndefined => None
  end.

(** The rule with an object becoming its JSON serialization as it is;
    [None] where the rule says nothing. *)
Definition spec_sanitize (val : value object) : option (value object) :=
  match val with
  | VUndefined | VNull => Some (VString [])
  | VNumber n => Some (if isNaN n then VString [] else val)
  | VObject o => VString <$> spec_json o
  | VString s => Some (VString (spec_string s))
  | VBoolean _ | VDate _ | VBigInt _ | VSymbol _ | VFunction _ => Some val
  end.

(** The rule with the JSON text of an object going through the string
    rule as well. *)
Definition spec_sanitize_amended (val : value object)
  : option (value object) :=
  match val with
  | VUndefined | VNull => Some (VString [])
  | VNumber n => Some (if isNaN n then VString [] else val)
  | VObject o => (fun text => VString (spec_string text)) <$> spec_json o
  | VString s => Some (VString (spec_string s))
  | VBoolean _ | VDate _ | VBigInt _ | VSymbol _ | VFunction _ => Some val
  end.

(** An object for which [JSON.stringify] returns [undefined]. *)
Definition silent (val : value object) : bool :=
  match val with
  | VObject o =>
    match JSON_stringify o with
    | JsonUndefined => true
    | JsonText _ | JsonThrows _ => false
    end
  | _ => false
  end.
End WithStringify.

(** An instance for concrete runs: arrays of booleans, for which
    [JSON.stringify([true,false])] is ["[true,false]"] and never throws. *)
Definition stringifyBool (b : bool) : jsstring :=
  if b then lit "true" else lit "false".

Fixpoint joinComma (parts : list jsstring) : jsstring :=
  match parts with
  | [] => []
  | [p] => p
  | p :: rest => p ++ lit "," ++ joinComma rest
  end.

Definition stringifyBoolArray (a : list bool) : json :=
  JsonText (lit "[" ++ joinComma (List.map stringifyBool a) ++ lit "]").

(** More objects for concrete runs: an array of booleans,
    [{ toJSON() { return undefined; } }], and an object that holds
    itself. *)
Inductive sample : Type :=
| BoolArray (a : list bool)
| Unprintable
| Cyclic.

Definition stringifySample (o : sample) : json :=
  match o with
  | BoolArray a => stringifyBoolArray a
  | Unprintable => JsonUndefined
  | Cyclic => JsonThrows (lit "Converting circular structure to JSON")
  end.

Definition textLength {object} (v : value object) : option N :=
  match v with VString s => Some (N.of_nat (length s)) | _ => None end.

(** An array of 8000 [true]. *)
Definition manyTrue : list bool := List.repeat true (N.to_nat 8000).

End Sanitize.

(** ** The host: request contexts and commits *)

Module Host.

(** An exception value.  [officeCode] is [Some code] when the value is an
    [OfficeExtension.Error], whose [code] property the add-in inspects. *)
Record error : Type := mkError {
  officeCode : option jsstring;
  message : jsstring
}.

(** [new Error(msg)] *)
Definition plainError (msg : jsstring) : error :=
  {| officeCode := None; message := msg |}.

Section Requests.
Context {object : Type}.

(** The operations [outputToExcel] queues on a request context.  A range is
    given as in [getRangeByIndexes(startRow, startColumn, rowCount,
    columnCount)]. *)
Inductive request : Type :=
| TablesGetItemLoadName (name : jsstring)
| WorksheetsAdd
| RangeSetValues (startRow startColumn rowCount columnCount : nat)
                 (values : list (list (value object)))
| TablesAdd (startRow startColumn rowCount columnCount : nat)
            (hasHeaders : bool)
| TableSetName (name : jsstring)
| TableResize (startRow startColumn rowCount columnCount : nat)
| SheetActivate.

(** How a row of the result ended up on the sheet. *)
Inductive disposition : Type := Written | Marked | Skipped.

(** One [context.sync()]: the requests that were pending and the host's
    answer, [None] for success. *)
Abbreviation commit := (list request * option error)%type.

(** The request context of one [Excel.run].  [rowsDone] is a ghost
    record, in order, of the result rows dealt with and how; the code keeps
    no such record itself. *)
Record context : Type := mkContext {
  pending : list request;
  commits : list commit;
  rowsDone : list (nat * disposition)
}.

Definition emptyContext : context :=
  {| pending := []; commits := []; rowsDone := [] |}.

(** The host's answers: whether the [k]-th [context.sync()] of the run
    resolves ([None]) or rejects with an error. *)
Definition answers : Type := nat -> option error.

(** Code running inside [Excel.run]: it changes the context and either
    returns or throws. *)
Inductive completion (A : Type) : Type :=
| Returns (a : A)
| Throws (e : error).
Arguments Returns {A} a.
Arguments Throws {A} e.

Definition excel (A : Type) : Type := context -> completion A * context.

Definition ret {A} (a : A) : excel A := fun c => (Returns a, c).

Definition bind {A B} (m : excel A) (k : A -> excel B) : excel B :=
  fun c =>
    match m c with
    | (Returns a, c') => k a c'
    | (Throws e, c') => (Throws e, c')
    end.

Definition throw {A} (e : error) : excel A := fun c => (Throws e, c).

(** [try { m } catch (e) { handler e }]; what [m] did to the context
    before throwing stays done. *)
Definition tryCatch {A} (m : excel A) (handler : error -> excel A)
  : excel A :=
  fun c =>
    match m c with
    | (Returns a, c') => (Returns a, c')
    | (Throws e, c') => handler e c'
    end.

(** Queue a request; nothing reaches the host before the next sync. *)
Definition queue (r : request) : excel unit :=
  fun c => (Returns tt,
            {| pending := pending c ++ [r];
               commits := commits c;
               rowsDone := rowsDone c |}).

(** [await context.sync()]: the pending requests go to the host in one
    round trip and the queue is empty afterwards, whether the host accepts
    them or not. *)
Definition sync (host : answers) : excel unit :=
  fun c =>
    let answer := host (length (commits c)) in
    let c' := {| pending := [];
                 commits := commits c ++ [(pending c, answer)];
                 rowsDone := rowsDone c |} in
    match answer with
    | None => (Returns tt, c')
    | Some e => (Throws e, c')
    end.

(** Ghost step: rows [first, first + count) ended as [d]. *)
Definition note (first count : nat) (d : disposition) : excel unit :=
  fun c => (Returns tt,
            {| pending := pending c;
               commits := commits c;
               rowsDone := rowsDone c
                           ++ List.map (fun k => (k, d)) (seq first count) |}).
End Requests.

Arguments request : clear implicits.
Abbreviation commit object := (list (request object) * option error)%type.
Arguments context : clear implicits.
Arguments excel : clear implicits.
Arguments Returns {A} a.
Arguments Throws {A} e.

End Host.

Import Host.

Declare Scope excel_scope.
Delimit Scope excel_scope with excel.
Notation "x <- m ;; k" := (bind m (fun x => k))
  (at level 100, m at next level, k at level 200, right associativity)
  : excel_scope.
Notation "m ;; k" := (bind m (fun _ => k))
  (at level 100, k at level 200, right associativity) : excel_scope.

(** ** [outputToExcel]: the bulk write-back *)

Module Writeback.

Definition batchSize : nat := 500.
Definition ROW_LIMIT : N := 1000000.
Definition ERROR_WRITING_ROW : jsstring := lit "ERROR WRITING ROW".

(** [a.slice(from, to)] for [0 <= from <= to] *)
Definition slice {A} (a : list A) (from to : nat) : list A :=
  take (to - from) (drop from a).

Fixpoint startsWith (needle s : jsstring) : bool :=
  match needle, s with
  | [], _ => true
  | n :: needle', c :: s' => (n =? c)%N && startsWith needle' s'
  | _ :: _, [] => false
  end.

(** [s.indexOf(needle)], counted from [pos] on; [-1] when absent. *)
Fixpoint indexOfFrom (needle s : jsstring) (pos : Z) : Z :=
  if startsWith needle s then pos
  else match s with
       | [] => (-1)%Z
       | _ :: s' => indexOfFrom needle s' (pos + 1)%Z
       end.

Definition indexOf (needle s : jsstring) : Z := indexOfFrom needle s 0%Z.

Definition isLetter (c : N) : bool :=
  ((97 <=? c) && (c <=? 122) || (65 <=? c) && (c <=? 90))%N.
Definition isDigit (c : N) : bool := ((48 <=? c) && (c <=? 57))%N.
Definition isUnderscore (c : N) : bool := (c =? 95)%N.

(** [/^[a-zA-Z_][a-zA-Z0-9_]*$/.test(name)] *)
Definition validTableName (name : jsstring) : bool :=
  match name with
  | [] => false
  | c :: rest =>
    (isLetter c || isUnderscore c)
    && forallb (fun d => isLetter d || isDigit d || isUnderscore d) rest
  end.

(** [`${n}`] for a row count *)
Definition showCount (n : N) : jsstring :=
  lit (DecimalString.NilEmpty.string_of_uint (N.to_uint n)).

(** [if (!code || code.trim() === "") code = "dt"], shared by [runPreview]
    and [outputToExcel]. *)
Definition defaultCode (code : jsstring) : jsstring :=
  match code with
  | [] => lit "dt"
  | _ => match trim code with
         | [] => lit "dt"
         | _ => code
         end
  end.

(** The body handed to [new Function('dt', 'aq', ...)]. *)
Definition functionBody (code : jsstring) : jsstring :=
  lit "return " ++ code ++ lit ";".

Definition alreadyExists (name : jsstring) : jsstring :=
  lit "Table '" ++ name
  ++ lit "' already exists. Please choose a different name.".

(** The message of the [TypeError] that [JSON.stringify] throws for a big
    integer, in the wording of V8. *)
Definition BIGINT_TYPE_ERROR : jsstring :=
  lit "Do not know how to serialize a BigInt".

Section OutputToExcel.
Context {object : Type}.
Variable JSON_stringify : object -> json.

Abbreviation cell := (value object).

(** A row object of [resultTable.objects()]: its own properties in
    order. *)
Definition rowObject : Type := list (jsstring * cell).

(** [Object.keys(obj)] *)
Definition keys (obj : rowObject) : list jsstring := List.map fst obj.

(** [obj[h]] *)
Fixpoint getProperty (obj : rowObject) (h : jsstring) : cell :=
  match obj with
  | [] => VUndefined
  | (k, v) :: rest => if decide (k = h) then v else getProperty rest h
  end.

(** [objects.map(obj => headers.map(h => ...))] *)
Definition sanitizeRows (headers : list jsstring) (objects : list rowObject)
  : list (list cell) :=
  List.map
    (fun obj =>
       List.map (fun h => Sanitize.sanitizeCell JSON_stringify (getProperty obj h))
                headers)
    objects.

Section InsideExcelRun.
Variable host : answers.

(** The first [try]/[catch] of the batch function: look the name up. *)
Definition checkNameIsFree (outputTableName : jsstring) : excel object unit :=
  tryCatch
    (queue (TablesGetItemLoadName outputTableName) ;;
     sync host ;;
     throw (plainError (alreadyExists outputTableName)))%excel
    (fun e =>
       if bool_decide (officeCode e = Some (lit "ItemNotFound"))
       then ret tt
       else if (-1 <? indexOf (lit "already exists") (message e))%Z
       then throw e
       else ret tt).

Section Data.
Variable columns : nat.
Variable values : list (list cell).

(** [JSON.stringify(batchValues[j])] for the array of the cells of a
    row: the message of the exception it throws, if it throws.  The
    elements are serialized in order; a big integer throws, an object
    throws when its own serialization does, and [undefined], a
    function or a symbol is written as [null]. *)
Fixpoint stringifyRowThrows (row : list cell) : option jsstring :=
  match row with
  | [] => None
  | VBigInt _ :: _ => Some BIGINT_TYPE_ERROR
  | VObject o :: rest =>
    match JSON_stringify o with
    | JsonThrows message => Some message
    | JsonText _ | JsonUndefined => stringifyRowThrows rest
    end
  | _ :: rest => stringifyRowThrows rest
  end.

(** [console.error("Failed row data:", JSON.stringify(batchValues[j]))],
    which stands in the [catch (rowError)] block before the inner
    [try]. *)
Definition logFailedRow (batchValues_j : list cell)
  : excel object unit :=
  match stringifyRowThrows batchValues_j with
  | Some message => throw (plainError message)
  | None => ret tt
  end.

(** The body of the inner loop, for [batchValues_j = batchValues[j]]:
    the row on its own, then the log line and the placeholder in its
    first cell, then nothing. *)
Definition retryRow (i j : nat) (batchValues_j : list cell)
  : excel object unit :=
  tryCatch
    (queue (RangeSetValues (1 + i + j) 0 1 columns [batchValues_j]) ;;
     sync host ;;
     note (i + j) 1 Written)%excel
    (fun rowError =>
       logFailedRow batchValues_j ;;
       tryCatch
         (queue (RangeSetValues (1 + i + j) 0 1 1
                   [[VString ERROR_WRITING_ROW]]) ;;
          sync host ;;
          note (i + j) 1 Marked)%excel
         (fun _ => note (i + j) 1 Skipped))%excel.

(** The inner loop [for (let j = 0; j < batchValues.length; j++)],
    from index [j] on; [rows] are [batchValues[j..]]. *)
Fixpoint retryRows (i j : nat) (rows : list (list cell))
  : excel object unit :=
  match rows with
  | [] => ret tt
  | batchValues_j :: rest =>
    (retryRow i j batchValues_j ;; retryRows i (S j) rest)%excel
  end.

(** One iteration of [for (let i = 0; i < values.length; i += batchSize)]. *)
Definition writeBatch (i : nat) : excel object unit :=
  let batchValues := slice values i (i + batchSize) in
  (queue (RangeSetValues (1 + i) 0 (length batchValues) columns
            batchValues) ;;
   tryCatch
     (sync host ;; note i (length batchValues) Written)
     (fun batchError => retryRows i 0 batchValues))%excel.

(** The outer loop from index [i] on; [fuel] bounds the number of
    iterations. *)
Fixpoint writeBatches (fuel i : nat) : excel object unit :=
  match fuel with
  | 0 => ret tt
  | S fuel' =>
    if i <? length values
    then (writeBatch i ;; writeBatches fuel' (i + batchSize))%excel
    else ret tt
  end.

(** [i] grows by [batchSize] in every iteration, so [values.length]
    iterations are enough. *)
Definition writeData : excel object unit :=
  writeBatches (length values) 0.
End Data.

(** The batch function passed to [Excel.run], after the lookup. *)
Definition createTable (outputTableName : jsstring)
    (headers : list jsstring) (values : list (list cell))
  : excel object unit :=
  (queue WorksheetsAdd ;;
   queue (RangeSetValues 0 0 1 (length headers)
            [List.map VString headers]) ;;
   queue (TablesAdd 0 0 1 (length headers) true) ;;
   queue (TableSetName outputTableName) ;;
   (if 0 <? length values
    then (queue (TableResize 0 0 (length values + 1) (length headers)) ;;
          writeData (length headers) values)
    else ret tt) ;;
   queue SheetActivate ;;
   sync host)%excel.

(** The batch function passed to [Excel.run].  The sync that
    [Excel.run] adds when the function returns has nothing pending and
    is left out. *)
Definition writeTable (outputTableName : jsstring)
    (headers : list jsstring) (values : list (list cell))
  : excel object unit :=
  (checkNameIsFree outputTableName ;;
   createTable outputTableName headers values)%excel.
End InsideExcelRun.

(** What [getTableData()] (which reads the selected table from the
    host) followed by the call of the user's function gives: an exception
    (no table selected, a syntax or run-time error, a value without
    [numRows]), a falsy value, or a table, given by its [objects()]. *)
Inductive queryResult : Type :=
| QueryThrows (e : error)
| QueryFalsy
| QueryTable (objects : list rowObject).

(** How [settings.saveAsync] ends: its callback reports success or
    failure, or the call throws. *)
Inductive saveStatus : Type := SaveSucceeded | SaveFailed | SaveThrows.

(** Everything outside the add-in that one click on "save output"
    depends on. *)
Record world : Type := mkWorld {
  queryCode : jsstring;
  outputTableNameInput : jsstring;
  runQuery : jsstring -> queryResult;
  host : answers;
  saveAsync : saveStatus;
  settings : gmap jsstring jsstring
}.

(** What the click leaves behind: the text of [#arquero-message], the
    request context of [Excel.run] if it was entered, the in-memory
    settings and the settings stored in the document. *)
Record outcome : Type := mkOutcome {
  messageArea : jsstring;
  excelRun : option (context object);
  settingsBag : gmap jsstring jsstring;
  settingsSaved : gmap jsstring jsstring
}.

Definition stopWith (w : world) (msg : jsstring)
    (run : option (context object)) : outcome :=
  {| messageArea := msg; excelRun := run;
     settingsBag := settings w; settingsSaved := settings w |}.

(** [resultTable.numRows()] *)
Definition numRows (objects : list rowObject) : N :=
  N.of_nat (length objects).

Definition rowLimitMessage (n : N) : jsstring :=
  lit "Error: Result has " ++ showCount n
  ++ lit " rows. Excel limit is 1,048,576 rows. Please refine your query.".

Definition successMessage (name : jsstring) : jsstring :=
  lit "Success! Table '" ++ name ++ lit "' created.".

Definition saveWarning : jsstring := lit " (Warning: Failed to save query)".

(** The settings block and the statement after it, entered with the
    message area holding [messageArea0]: [settings.set], then
    [saveAsync] whose callback appends the warning on failure
    ([innerText += ...]), then [innerText = `Success! ...`]. *)
Definition saveQueryAndReport (w : world) (name code messageArea0 : jsstring)
    (run : context object) : outcome :=
  let bag := <[name := code]> (settings w) in
  let messageArea1 :=
    match saveAsync w with
    | SaveFailed => messageArea0 ++ saveWarning
    | SaveSucceeded | SaveThrows => messageArea0
    end in
  let saved :=
    match saveAsync w with
    | SaveSucceeded => bag
    | SaveFailed | SaveThrows => settings w
    end in
  let messageArea2 := successMessage name in
  {| messageArea := messageArea2; excelRun := Some run;
     settingsBag := bag; settingsSaved := saved |}.

Definition outputToExcel (w : world) : outcome :=
  let code := queryCode w in
  let outputTableName := outputTableNameInput w in
  let messageArea0 : jsstring := [] in
  let code := defaultCode code in
  if bool_decide (outputTableName = [])
  then stopWith w (lit "Please enter a unique name for the output table.")
                None
  else if negb (validTableName outputTableName)
  then stopWith w
    (lit "Error: Table name must start with a letter or underscore and contain only letters, numbers, and underscores (no spaces).")
    None
  else
    match runQuery w (functionBody code) with
    | QueryThrows e => stopWith w (lit "Error: " ++ message e) None
    | QueryFalsy =>
      stopWith w
        (lit "Error: Query did not return a table. Make sure your code returns an Arquero table.")
        None
    | QueryTable objects =>
      if (ROW_LIMIT <? numRows objects)%N
      then stopWith w (rowLimitMessage (numRows objects)) None
      else
        match objects with
        | [] => stopWith w (lit "Query returned no data.") None
        | objects_0 :: _ =>
          let headers := keys objects_0 in
          let values := sanitizeRows headers objects in
          match writeTable (host w) outputTableName headers values
                  emptyContext with
          | (Throws e, run) =>
            stopWith w (lit "Error: " ++ message e) (Some run)
          | (Returns _, run) =>
            saveQueryAndReport w outputTableName code messageArea0 run
          end
        end
    end.

(** The click gets as far as the row-count check: a name that passes the
    checks and a query that returns a table of [objects]. *)
Definition queried (w : world) (objects : list rowObject) : Prop :=
  outputTableNameInput w <> []
  /\ validTableName (outputTableNameInput w) = true
  /\ runQuery w (functionBody (defaultCode (queryCode w)))
     = QueryTable objects.

(** The click gets as far as [Excel.run]: moreover at least one and at
    most [ROW_LIMIT] objects. *)
Definition exports (w : world) (objects : list rowObject) : Prop :=
  queried w objects
  /\ (numRows objects <= ROW_LIMIT)%N
  /\ objects <> [].

(** The same click with another text in [#query-code]. *)
Definition withCode (w : world) (code : jsstring) : world :=
  {| queryCode := code;
     outputTableNameInput := outputTableNameInput w;
     runQuery := runQuery w;
     host := host w;
     saveAsync := saveAsync w;
     settings := settings w |}.

(** What is pending when the first batch is committed. *)
Definition setupRequests (name : jsstring) (headers : list jsstring)
    (values : list (list cell)) : list (request object) :=
  [WorksheetsAdd;
   RangeSetValues 0 0 1 (length headers) [List.map VString headers];
   TablesAdd 0 0 1 (length headers) true;
   TableSetName name;
   TableResize 0 0 (length values + 1) (length headers)].

(** The context of a run that stopped at the lookup. *)
Definition lookedUp (name : jsstring) (answer : option error)
  : context object :=
  {| pending := [];
     commits := [([TablesGetItemLoadName name], answer)];
     rowsDone := [] |}.

(** What the lookup comes to: [None] lets the run go on, [Some e] is
    thrown out of [Excel.run]. *)
Definition lookupVerdict (name : jsstring) (answer : option error)
  : option error :=
  match answer with
  | None => Some (plainError (alreadyExists name))
  | Some e =>
    if bool_decide (officeCode e = Some (lit "ItemNotFound")) then None
    else if (-1 <? indexOf (lit "already exists") (message e))%Z
    then Some e
    else None
  end.

(** The run went past the lookup: its next commit asks for the new
    sheet. *)
Definition proceeds (name : jsstring) (answer : option error)
    (o : outcome) : Prop :=
  exists run requests answer' rest,
    excelRun o = Some run
    /\ commits run
       = ([TablesGetItemLoadName name], answer)
         :: (WorksheetsAdd :: requests, answer') :: rest.

(** The columns and cells written for [objects]. *)
Definition headersOf (objects : list rowObject) : list jsstring :=
  match objects with
  | [] => []
  | objects_0 :: _ => keys objects_0
  end.

Definition valuesOf (objects : list rowObject) : list (list cell) :=
  sanitizeRows (headersOf objects) objects.

(** What [runPreview] leaves in [#preview-area]: the rendering of the
    result table ([innerHTML = resultTable.toHTML()]) or a text. *)
Inductive preview : Type :=
| PreviewTable (objects : list rowObject)
| PreviewText (text : jsstring).

Definition runPreview (code : jsstring)
    (runQuery : jsstring -> queryResult) : preview :=
  let code := defaultCode code in
  match runQuery (functionBody code) with
  | QueryThrows e => PreviewText (lit "Error: " ++ message e)
  | QueryFalsy =>
    PreviewText
      (lit "Error: Query did not return a table. Make sure your code returns an Arquero table.")
  | QueryTable objects => PreviewTable objects
  end.
End OutputToExcel.

Arguments rowObject : clear implicits.
Arguments queryResult : clear implicits.
Arguments world : clear implicits.
Arguments outcome : clear implicits.
Arguments preview : clear implicits.

End Writeback.

(** ** The write policy as the specification words it *)

Module Policy.
Import Writeback.

Section Policy.
Context {object : Type}.
Abbreviation cells := (list (value object)).
Variable columns : nat.

Definition rowRequest (k : nat) (r : cells) : request object :=
  RangeSetValues (1 + k) 0 1 columns [r].
Definition sentinelRequest (k : nat) : request object :=
  RangeSetValues (1 + k) 0 1 1 [[VString ERROR_WRITING_ROW]].
Definition batchRequest (i : nat) (batch : list cells) : request object :=
  RangeSetValues (1 + i) 0 (length batch) columns batch.

(** "write and commit each row individually; if an individual row also
    fails, write a single-cell sentinel into that row's first cell and
    commit; if even that fails, skip the row" *)
Inductive rowRetried (k : nat) (r : cells)
  : list (commit object) -> disposition -> Prop :=
| row_written :
    rowRetried k r [([rowRequest k r], None)] Written
| row_marked e :
    rowRetried k r [([rowRequest k r], Some e);
                    ([sentinelRequest k], None)] Marked
| row_skipped e e' :
    rowRetried k r [([rowRequest k r], Some e);
                    ([sentinelRequest k], Some e')] Skipped.

Inductive rowsRetried
  : nat -> list cells -> list (commit object)
    -> list (nat * disposition) -> Prop :=
| rows_done k : rowsRetried k [] [] []
| rows_next k r rest t d t' ds :
    rowRetried k r t d ->
    rowsRetried (S k) rest t' ds ->
    rowsRetried k (r :: rest) (t ++ t') ((k, d) :: ds).

(** "write it as one rectangular value assignment at its absolute sheet
    offset and commit it in one round trip; if committing a batch fails,
    retry that batch at single-row granularity" *)
Inductive batchWritten (before : list (request object)) (i : nat)
    (batch : list cells)
  : list (commit object) -> list (nat * disposition) -> Prop :=
| batch_committed :
    batchWritten before i batch
      [(before ++ [batchRequest i batch], None)]
      (List.map (fun k => (k, Written)) (seq i (length batch)))
| batch_retried e t ds :
    rowsRetried i batch t ds ->
    batchWritten before i batch
      ((before ++ [batchRequest i batch], Some e) :: t) ds.

(** "partition rows into fixed-size batches (batch size: 500)" *)
Inductive batchesWritten
  : list (request object) -> nat -> list cells -> list (commit object)
    -> list (nat * disposition) -> Prop :=
| batches_done before i : batchesWritten before i [] [] []
| batches_next before i rows t ds t' ds' :
    rows <> [] ->
    batchWritten before i (take 500 rows) t ds ->
    batchesWritten [] (i + 500) (drop 500 rows) t' ds' ->
    batchesWritten before i rows (t ++ t') (ds ++ ds').
End Policy.
End Policy.

(** ** What the data loop does, abort included *)

Module Traces.
Import Writeback Policy.

Section Traces.
Context {object : Type}.
Variable JSON_stringify : object -> json.
Variable columns : nat.
Abbreviation cells := (list (value object)).

(** The log line of the row returns. *)
Definition logs (row : cells) : bool :=
  match stringifyRowThrows JSON_stringify row with
  | None => true
  | Some _ => false
  end.

(** The log line of every row returns: no cell is a big integer (or an
    object whose serialization throws). *)
Definition loggable (values : list cells) : bool := forallb logs values.

(** One pass of the inner loop for row [k]: the commits made, the rows
    dealt with, and the message of the exception that ends the loop, if
    the log line throws. *)
Inductive rowTried (k : nat) (r : cells)
  : list (commit object) -> list (nat * disposition) -> option jsstring
    -> Prop :=
| tried_written :
    rowTried k r [([rowRequest columns k r], None)] [(k, Written)] None
| tried_marked e :
    stringifyRowThrows JSON_stringify r = None ->
    rowTried k r [([rowRequest columns k r], Some e);
                  ([sentinelRequest k], None)] [(k, Marked)] None
| tried_skipped e e' :
    stringifyRowThrows JSON_stringify r = None ->
    rowTried k r [([rowRequest columns k r], Some e);
                  ([sentinelRequest k], Some e')] [(k, Skipped)] None
| tried_aborted e message :
    stringifyRowThrows JSON_stringify r = Some message ->
    rowTried k r [([rowRequest columns k r], Some e)] [] (Some message).

Inductive rowsTried
  : nat -> list cells -> list (commit object)
    -> list (nat * disposition) -> option jsstring -> Prop :=
| rows_tried k : rowsTried k [] [] [] None
| rows_tried_next k r rest t ds t' ds' stop :
    rowTried k r t ds None ->
    rowsTried (S k) rest t' ds' stop ->
    rowsTried k (r :: rest) (t ++ t') (ds ++ ds') stop
| rows_tried_stop k r rest t ds message :
    rowTried k r t ds (Some message) ->
    rowsTried k (r :: rest) t ds (Some message).

Inductive batchTried (before : list (request object)) (i : nat)
    (batch : list cells)
  : list (commit object) -> list (nat * disposition) -> option jsstring
    -> Prop :=
| batch_tried_committed :
    batchTried before i batch
      [(before ++ [batchRequest columns i batch], None)]
      (List.map (fun k => (k, Written)) (seq i (length batch))) None
| batch_tried_retried e t ds stop :
    rowsTried i batch t ds stop ->
    batchTried before i batch
      ((before ++ [batchRequest columns i batch], Some e) :: t) ds stop.

Inductive batchesTried
  : list (request object) -> nat -> list cells -> list (commit object)
    -> list (nat * disposition) -> option jsstring -> Prop :=
| batches_tried before i : batchesTried before i [] [] [] None
| batches_tried_next before i rows t ds t' ds' stop :
    rows <> [] ->
    batchTried before i (take batchSize rows) t ds None ->
    batchesTried [] (i + batchSize) (drop batchSize rows) t' ds' stop ->
    batchesTried before i rows (t ++ t') (ds ++ ds') stop
| batches_tried_stop before i rows t ds message :
    rows <> [] ->
    batchTried before i (take batchSize rows) t ds (Some message) ->
    batchesTried before i rows t ds (Some message).

(** How a run of the loop ends. *)
Definition ending (stop : option jsstring) : completion unit :=
  match stop with
  | None => Returns tt
  | Some message => Throws (plainError message)
  end.

(** [m] started in [c] has made the commits [t] and dealt with the rows
    [ds], leaves nothing pending, and returns or throws as [stop]
    tells. *)
Definition ends (m : excel object unit) (c : context object)
    (t : list (commit object)) (ds : list (nat * disposition))
    (stop : option jsstring) : Prop :=
  m c = (ending stop,
         {| pending := []; commits := commits c ++ t;
            rowsDone := rowsDone c ++ ds |}).
End Traces.

End Traces.

(** ** Runs of code inside [Excel.run] *)

Module Runs.

Section Runs.
Context {object : Type}.
Variable host : answers.

(** [m] started in [c] returns, having made the commits [t] and dealt
    with the rows [ds], and leaves nothing pending. *)
Definition flushes (m : excel object unit) (c : context object)
    (t : list (commit object)) (ds : list (nat * disposition)) : Prop :=
  m c = (Returns tt,
         {| pending := []; commits := commits c ++ t;
            rowsDone := rowsDone c ++ ds |}).

(** From [c] to [c'] commits were only added, each with the answer the
    host gives at its position. *)
Definition answeredBy (c c' : context object) : Prop :=
  exists t,
    commits c' = commits c ++ t
    /\ List.map snd t = List.map host (seq (length (commits c)) (length t)).

Definition obeys {A} (m : excel object A) : Prop :=
  forall c, answeredBy c (snd (m c)).
End Runs.

End Runs.

(** ** Accounting for the rows of a result *)

Module Accounting.

Section Accounting.
Context {object : Type}.

(** The sheet rows a request assigns values to. *)
Definition rowsOf (r : request object) : list nat :=
  match r with
  | RangeSetValues startRow _ rowCount _ _ => seq startRow rowCount
  | _ => []
  end.

(** The sheet rows assigned by the commits the host accepted, in the order
    of the commits. *)
Definition committedRows (log : list (commit object)) : list nat :=
  concat
    (List.map
       (fun cm : commit object =>
          match snd cm with
          | None => concat (List.map rowsOf (fst cm))
          | Some _ => []
          end)
       log).

Definition sameDisposition (d d' : disposition) : bool :=
  match d, d' with
  | Written, Written | Marked, Marked | Skipped, Skipped => true
  | _, _ => false
  end.

(** How many rows ended as [d]. *)
Definition tally (d : disposition) (ds : list (nat * disposition)) : nat :=
  length (List.filter (fun e => sameDisposition (snd e) d) ds).

(** The row has something on the sheet: its values or the placeholder. *)
Definition onSheet (e : nat * disposition) : bool :=
  negb (sameDisposition (snd e) Skipped).

(** The rows of [before] reach the sheet with the first commit of [t], if
    the host accepts it. *)
Definition carried (before : list (request object))
    (t : list (commit object)) : list nat :=
  match t with
  | (_, None) :: _ => concat (List.map rowsOf before)
  | _ => []
  end.
End Accounting.

End Accounting.

(** ** Concrete clicks *)

Module Examples.
Import Writeback.

Definition three : spec_float := S754_finite false 3 0.

(** Two rows of a summary with columns [Category] and [total]. *)
Definition summary : list (rowObject (list bool)) :=
  [[(lit "Category", VString (lit "A")); (lit "total", VNumber three)];
   [(lit "Category", VString (lit "B")); (lit "total", VNumber three)]].

Definition itemNotFound : error :=
  {| officeCode := Some (lit "ItemNotFound");
     message := lit "The requested resource doesn't exist." |}.

Definition generalException : error :=
  {| officeCode := Some (lit "GeneralException");
     message := lit "An internal error has occurred." |}.

(** A host that answers the lookup with [lookup] and accepts every later
      commit. *)
Definition willingHost (lookup : option error) : answers :=
  fun k => match k with 0 => lookup | S _ => None end.

(** A click with [code] in the editor and [SalesSummary] as the name, on a
    workbook where the query [dt] gives [objects]. *)
Definition click (code : jsstring) (objects : list (rowObject (list bool)))
    (lookup : option error) (save : saveStatus) : world (list bool) :=
  {| queryCode := code;
     outputTableNameInput := lit "SalesSummary";
     runQuery := fun body =>
       if bool_decide (body = lit "return dt;") then QueryTable objects
       else QueryThrows (plainError (lit "Unexpected token"));
     host := willingHost lookup;
     saveAsync := save;
     settings := ∅ |}.

(** Two rows of a ledger whose [id] column holds big integers. *)
Definition ledger : list (rowObject (list bool)) :=
  [[(lit "id", VBigInt 1); (lit "total", VNumber three)];
   [(lit "id", VBigInt 2); (lit "total", VNumber three)]].

(** A host that refuses every commit. *)
Definition refusingHost : answers := fun _ => Some generalException.

(** A host that finds no table of the name and refuses every later
    commit. *)
Definition unwillingHost : answers :=
  fun k => match k with 0 => Some itemNotFound | S _ => Some generalException end.

(** A click with the query [dt] that gives the ledger, on a workbook that
    takes none of its rows. *)
Definition ledgerClick : world (list bool) :=
  {| queryCode := lit "dt";
     outputTableNameInput := lit "Ledger";
     runQuery := fun body =>
       if bool_decide (body = lit "return dt;") then QueryTable ledger
       else QueryThrows (plainError (lit "Unexpected token"));
     host := unwillingHost;
     saveAsync := SaveSucceeded;
     settings := ∅ |}.

(** A result of 1,000,001 rows. *)
Definition overAMillion : list (rowObject (list bool)) :=
  List.repeat [(lit "total", VNumber three)] (N.to_nat 1000001).

End Examples.

(** ** The data of a rendered chart *)

Module ChartData.

Section ChartData.
(** [dt.objects()] of a table read, and what a chart specification holds
    besides [$schema] and [data]. *)
Context {rows : Type} {other : Type}.

(** The [data] property of a chart specification, as far as
    [renderVegaChart] looks at it. *)
Inductive dataProperty : Type :=
| NoData
  (** absent, or a falsy value *)
| NamedData (name : jsstring)
  (** an object whose [name] is the given text *)
| Values (objects : rows)
  (** [{ values: dataObjects }], as [renderVegaChart] writes it *)
| OtherData.
  (** any other truthy value *)

(** A chart specification object. *)
Record chart : Type := mkChart {
  hasSchema : bool;
  data : dataProperty;
  rest : other
}.

(** [!spec.data || spec.data.name === "table"] *)
Definition wantsData (d : dataProperty) : bool :=
  match d with
  | NoData => true
  | NamedData name => bool_decide (name = lit "table")
  | Values _ | OtherData => false
  end.

(** The module-level [vegaCurrentSpec], which is the very object that
    [renderVegaChart] changes, and the specifications handed to
    [vegaEmbed] so far. *)
Record state : Type := mkState {
  vegaCurrentSpec : option chart;
  embedded : list chart
}.

(** [renderVegaChart(tableName, spec, messageArea)] on the object [spec]:
    [fetched] is what [getArqueroTableFromExcel(tableName)] gives now
    ([None] when it throws, before anything is changed).  The result is
    the object as the call leaves it and what [vegaEmbed] was given. *)
Definition renderVegaChart (fetched : option rows) (spec : chart)
  : chart * option chart :=
  match fetched with
  | None => (spec, None)
  | Some dataObjects =>
    let spec :=
      {| hasSchema := false;
         data := if wantsData (data spec) then Values dataObjects
                 else data spec;
         rest := rest spec |} in
    (spec, Some spec)
  end.

Definition embed (given : option chart) (log : list chart) : list chart :=
  match given with
  | Some spec => log ++ [spec]
  | None => log
  end.

(** [runVegaPreview] from [vegaCurrentSpec = spec] to the end of the
    render, for the parsed specification [spec]. *)
Definition previewChart (spec : chart) (fetched : option rows) (st : state)
  : state :=
  let '(spec, given) := renderVegaChart fetched spec in
  {| vegaCurrentSpec := Some spec; embedded := embed given (embedded st) |}.

(** The callback of a table change:
    [renderVegaChart(vegaCurrentTableName, vegaCurrentSpec, messageArea)]
    inside [try]; without a stored specification the call throws. *)
Definition onTableChanged (st : state) (fetched : option rows) : state :=
  match vegaCurrentSpec st with
  | None => st
  | Some spec =>
    let '(spec, given) := renderVegaChart fetched spec in
    {| vegaCurrentSpec := Some spec; embedded := embed given (embedded st) |}
  end.

(** The stored specification carries the rows [d]. *)
Definition holds (d : rows) (st : state) : Prop :=
  exists spec, vegaCurrentSpec st = Some spec /\ data spec = Values d.

(** The table could be read. *)
Definition wasRead (fetched : option rows) : bool :=
  match fetched with Some _ => true | None => false end.
End ChartData.

Arguments dataProperty : clear implicits.
Arguments chart : clear implicits.
Arguments state : clear implicits.

End ChartData.

(** ** The chart editor: auto-update on table changes *)

Module Vega.

Section Session.
(** [dt.objects()] of a table read, and what a chart specification holds
    besides [$schema] and [data]. *)
Context {rows other : Type}.

(** What [JSON.parse(specStr)] gives: an object (or array), whose
    properties the renderer changes, or [null], a boolean, a number or a
    string, given by its text, of which nothing can be changed. *)
Inductive spec : Type :=
| SpecObject (chart : ChartData.chart rows other)
| SpecScalar (text : jsstring).

(** [JSON.parse(specStr)]; [None] stands for a thrown [SyntaxError]. *)
Variable JSON_parse : jsstring -> option spec.

(** The [EventHandlerResult] of one [table.onChanged.add(...)]: which call
    made it and on which table. *)
Record handler : Type := mkHandler {
  handlerId : nat;
  source : jsstring
}.

(** One call of [renderVegaChart(tableName, spec, messageArea)], with the
    specification as it is when the call is made. *)
Inductive render : Type :=
| Render (tableName : option jsstring) (chart : option spec).

(** The three module-level variables, and what the host holds: the live
    subscriptions, the number of handlers made so far and the calls of the
    renderer. *)
Record state : Type := mkState {
  vegaAutoUpdateHandler : option handler;
  vegaCurrentTableName : option jsstring;
  vegaCurrentSpec : option spec;
  subscriptions : list handler;
  created : nat;
  renders : list render
}.

Definition initial : state :=
  {| vegaAutoUpdateHandler := None; vegaCurrentTableName := None;
     vegaCurrentSpec := None; subscriptions := []; created := 0;
     renders := [] |}.

Definition sameHandler (h k : handler) : bool :=
  (handlerId h =? handlerId k).

(** The host drops a subscription when a [remove()] is committed. *)
Definition unsubscribe (h : handler) (subs : list handler) : list handler :=
  List.filter (fun k => negb (sameHandler h k)) subs.

(** How one call of [renderVegaChart] goes: [getArqueroTableFromExcel]
    throws (no such table), or it gives the rows of the table and
    [vegaEmbed] then resolves or rejects. *)
Inductive rendering : Type :=
| FetchThrows
| Fetched (dataObjects : rows) (embedOk : bool).

(** What the call leaves of the object it was given: once the table is
    read, [delete spec.$schema] and the assignment to [spec.data] change
    an object in place.  On [null] the [delete] throws, and on a boolean,
    a number or a string the assignment does (the file is a module, so
    its code is strict). *)
Definition changed (how : rendering) (chart : spec) : spec :=
  match how, chart with
  | Fetched dataObjects _, SpecObject c =>
    SpecObject (fst (ChartData.renderVegaChart (Some dataObjects) c))
  | _, _ => chart
  end.

(** Whether the call returns ([true]) or throws. *)
Definition returns (how : rendering) (chart : option spec) : bool :=
  match how, chart with
  | Fetched _ embedOk, Some (SpecObject _) => embedOk
  | _, _ => false
  end.

(** [renderVegaChart(tableName, spec, messageArea)]: the call is
    recorded.  Both callers pass the object that [vegaCurrentSpec] refers
    to, so what the call changes of its argument is changed of the stored
    specification. *)
Definition renderVegaChart (tableName : option jsstring)
    (chart : option spec) (how : rendering) (st : state) : bool * state :=
  (returns how chart,
   {| vegaAutoUpdateHandler := vegaAutoUpdateHandler st;
      vegaCurrentTableName := vegaCurrentTableName st;
      vegaCurrentSpec := changed how <$> chart;
      subscriptions := subscriptions st;
      created := created st;
      renders := renders st ++ [Render tableName chart] |}).

(** The answers of the host during one [runVegaPreview]. *)
Record previewAnswers : Type := mkAnswers {
  rendered : rendering;
  removeOk : bool;
  addOk : bool
}.

(** [setupVegaAutoUpdate(tableName, messageArea)]; the boolean tells
    whether it returns ([true]) or throws. *)
Definition setupVegaAutoUpdate (tableName : jsstring)
    (ans : previewAnswers) (st : state) : bool * state :=
  (* Remove existing handler if table changed *)
  let st1 :=
    match vegaAutoUpdateHandler st with
    | Some h =>
      if negb (bool_decide (vegaCurrentTableName st = Some tableName))
      then
        {| vegaAutoUpdateHandler := None;
           vegaCurrentTableName := vegaCurrentTableName st;
           vegaCurrentSpec := vegaCurrentSpec st;
           subscriptions :=
             if removeOk ans then unsubscribe h (subscriptions st)
             else subscriptions st;
           created := created st;
           renders := renders st |}
      else st
    | None => st
    end in
  (* Add new handler if needed *)
  match vegaAutoUpdateHandler st1 with
  | None =>
    let h := {| handlerId := created st1; source := tableName |} in
    (addOk ans,
     {| vegaAutoUpdateHandler := Some h;
        vegaCurrentTableName := vegaCurrentTableName st1;
        vegaCurrentSpec := vegaCurrentSpec st1;
        subscriptions :=
          if addOk ans then subscriptions st1 ++ [h] else subscriptions st1;
        created := S (created st1);
        renders := renders st1 |})
  | Some _ => (true, st1)
  end.

Definition runVegaPreview (tableName specStr : jsstring)
    (ans : previewAnswers) (st : state) : state :=
  match tableName with
  | [] => st
  | _ =>
    match JSON_parse specStr with
    | None => st
    | Some chart =>
      (* Store current spec for auto-update *)
      let st1 :=
        {| vegaAutoUpdateHandler := vegaAutoUpdateHandler st;
           vegaCurrentTableName := Some tableName;
           vegaCurrentSpec := Some chart;
           subscriptions := subscriptions st;
           created := created st;
           renders := renders st |} in
      match renderVegaChart (Some tableName) (Some chart) (rendered ans) st1
      with
      | (false, st2) => st2
      | (true, st2) => snd (setupVegaAutoUpdate tableName ans st2)
      end
    end
  end.

(** [closeVegaEditor]; [removed] tells whether the host commits the
    removal. *)
Definition closeVegaEditor (removed : bool) (st : state) : state :=
  match vegaAutoUpdateHandler st with
  | Some h =>
    {| vegaAutoUpdateHandler := None;
       vegaCurrentTableName := None;
       vegaCurrentSpec := None;
       subscriptions :=
         if removed then unsubscribe h (subscriptions st)
         else subscriptions st;
       created := created st;
       renders := renders st |}
  | None => st
  end.

(** The callback given to [onChanged.add]: it reads the module-level
    variables when it runs; a failure of the render is caught. *)
Definition onChangedCallback (how : rendering) (st : state) : state :=
  snd (renderVegaChart (vegaCurrentTableName st) (vegaCurrentSpec st) how st).

(** The host reports a change of [table]: every live subscription on that
    table has its callback run, each reading the table as [how] tells. *)
Definition tableChanged (table : jsstring) (how : rendering) (st : state)
  : state :=
  fold_left
    (fun acc h =>
       if bool_decide (source h = table) then onChangedCallback how acc
       else acc)
    (subscriptions st) st.

Inductive action : Type :=
| RunVegaPreview (tableName specStr : jsstring) (ans : previewAnswers)
| CloseVegaEditor (removed : bool)
| TableChanged (table : jsstring) (how : rendering).

Definition step (st : state) (a : action) : state :=
  match a with
  | RunVegaPreview tableName specStr ans =>
    runVegaPreview tableName specStr ans st
  | CloseVegaEditor removed => closeVegaEditor removed st
  | TableChanged table how => tableChanged table how st
  end.

(** A session: the actions one after the other, from a freshly loaded
    task pane. *)
Definition session (actions : list action) : state :=
  fold_left step actions initial.

(** Every live subscription is the stored handler, and there is at most
    one. *)
Definition tidy (st : state) : Prop :=
  subscriptions st = []
  \/ exists h, vegaAutoUpdateHandler st = Some h /\ subscriptions st = [h].

(** No commit of a handler removal is refused by the host. *)
Definition removalsCommitted (a : action) : bool :=
  match a with
  | RunVegaPreview _ _ ans => removeOk ans
  | CloseVegaEditor removed => removed
  | TableChanged _ _ => true
  end.
End Session.

Arguments spec : clear implicits.
Arguments render : clear implicits.
Arguments rendering : clear implicits.
Arguments previewAnswers : clear implicits.
Arguments action : clear implicits.
Arguments state : clear implicits.

End Vega.

(** ** Concrete chart sessions *)

Module VegaExamples.
Import Vega.

(** A stand-in for [JSON.parse]: a text that starts with a brace or a
    bracket parses, to itself; any other text is a syntax error. *)
Definition parseJson (text : jsstring) : option jsstring :=
  match text with
  | c :: _ => if ((c =? 123) || (c =? 91))%N then Some text else None
  | [] => None
  end.

(** The object a text parses to in the examples: no [$schema], no [data],
    and the text standing for its other properties.  The rows of a table
    are given by a number. *)
Definition chartOf (text : jsstring) : spec nat jsstring :=
  SpecObject
    {| ChartData.hasSchema := false; ChartData.data := ChartData.NoData;
       ChartData.rest := text |}.

Definition parseChart (text : jsstring) : option (spec nat jsstring) :=
  chartOf <$> parseJson text.

Definition Sales : jsstring := lit "Sales".
Definition Costs : jsstring := lit "Costs".
Definition barChart : jsstring := lit "{}".
Definition layers : jsstring := lit "[]".

(** The table is read, with rows number 1, and the chart is drawn. *)
Definition drawn : rendering nat := Fetched 1 true.

Definition allGood : previewAnswers nat :=
  {| rendered := drawn; removeOk := true; addOk := true |}.

Definition renderFails : previewAnswers nat :=
  {| rendered := FetchThrows; removeOk := true; addOk := true |}.

(** A preview of [Sales], a preview of [Costs] and a change of [Sales],
    with the editor still open. *)
Definition twoTablesOpen : list (action nat) :=
  [RunVegaPreview Sales barChart allGood;
   RunVegaPreview Costs barChart allGood;
   TableChanged Sales drawn].

End VegaExamples.

(** ** What reaches the sheet *)

Module Sheet.
Import Writeback Accounting.

Section Sheet.
Context {object : Type}.

(** A cell as the sanitiser leaves it: never [null], NaN or an object
    other than a [Date], and a string is free of the stripped control
    characters and no longer than the cut plus its suffix. *)
Definition plainCell (v : value object) : Prop :=
  match v with
  | VString s =>
    Forall (fun c => invalidControl c = false) s
    /\ length s <= Sanitize.MAX_CELL_CHARS + length Sanitize.TRUNCATED
  | VNumber n => isNaN n = false
  | VNull | VObject _ => False
  | VUndefined | VBoolean _ | VBigInt _ | VSymbol _ | VFunction _
  | VDate _ => True
  end.

(** The rows a request assigns, each with the cells it gets. *)
Definition cellsOf (r : request object)
  : list (nat * list (value object)) :=
  match r with
  | RangeSetValues startRow _ _ _ values =>
    combine (seq startRow (length values)) values
  | _ => []
  end.

(** The assignments of the commits the host accepted, in order. *)
Definition cellsAssigned (log : list (commit object))
  : list (nat * list (value object)) :=
  concat
    (List.map
       (fun cm : commit object =>
          match snd cm with
          | None => concat (List.map cellsOf (fst cm))
          | Some _ => []
          end)
       log).

(** The assignments carried by the first commit of [t], if accepted. *)
Definition carriedCells (before : list (request object))
    (t : list (commit object)) : list (nat * list (value object)) :=
  match t with
  | (_, None) :: _ => concat (List.map cellsOf before)
  | _ => []
  end.

(** What row [k] of [values] shows on the sheet once it ended as [d]: its
    own cells, or the placeholder in its first cell. *)
Definition shown (values : list (list (value object)))
    (e : nat * disposition) : nat * list (value object) :=
  (S (fst e),
   match snd e with
   | Written => nth (fst e) values []
   | Marked | Skipped => [VString ERROR_WRITING_ROW]
   end).

(** [rows] are the rows of [values] from index [k] on. *)
Definition placedAt (values : list (list (value object))) (k : nat)
    (rows : list (list (value object))) : Prop :=
  forall j, j < length rows -> nth (k + j) values [] = nth j rows [].

(** The number of batches for [n] rows. *)
Definition batchCount (n : nat) : nat := (n + (batchSize - 1)) / batchSize.
End Sheet.

End Sheet.

(** ** Sessions of the chart editor without a closing *)

Module VegaSessions.
Import Vega.

(** The action leaves the editor open. *)
Definition keepsOpen {rows : Type} (a : action rows) : bool :=
  match a with
  | CloseVegaEditor _ => false
  | RunVegaPreview _ _ _ | TableChanged _ _ => true
  end.

(** The subscriptions on [table]. *)
Definition watching (table : jsstring) (subs : list handler) : list handler :=
  List.filter (fun h => bool_decide (source h = table)) subs.

End VegaSessions.

(** ** Reading a table: [getArqueroTableFromExcel] *)

Module Bridge.

(** A cell of [range.values]: a string, a number or a boolean (an empty
    cell is the empty string). *)
Inductive scalar : Type :=
| SString (s : jsstring)
| SNumber (n : spec_float)
| SBoolean (b : bool).

(** [row[colIndex]]: [None] stands for [undefined], which a row too short
    gives. *)
Abbreviation element := (option scalar).

Definition PROTO : jsstring := lit "__proto__".

(** [obj[key] = v] on an object made by [{}], whatever was assigned to it
    before.  The assignment makes or changes an own property, except for the
    key [__proto__]: that one runs the setter inherited from
    [Object.prototype], which makes no own property (it replaces the
    prototype when [v] is an object, here the array of a column, and does
    nothing for a scalar or [undefined]).  The order of the keys is not
    represented. *)
Definition assign {A} (obj : gmap jsstring A) (key : jsstring) (v : A)
  : gmap jsstring A :=
  if bool_decide (key = PROTO) then obj else <[key := v]> obj.

(** [rows.map(row => row[colIndex])] *)
Definition columnAt (colIndex : nat) (rows : list (list scalar))
  : list element :=
  List.map (fun row => row !! colIndex) rows.

(** [headers.forEach((header, colIndex) => { columnData[header] = ... })],
    from [colIndex] on. *)
Fixpoint fillColumns (rows : list (list scalar))
    (headers : list jsstring) (colIndex : nat)
    (columnData : gmap jsstring (list element))
  : gmap jsstring (list element) :=
  match headers with
  | [] => columnData
  | header :: rest =>
    fillColumns rows rest (S colIndex)
      (assign columnData header (columnAt colIndex rows))
  end.

(** The object handed to [aq.table]: its own properties. *)
Definition columnData (headers : list jsstring) (rows : list (list scalar))
  : gmap jsstring (list element) :=
  fillColumns rows headers 0 ∅.

(** What the host gives for the header row and the data body of a table,
    or the error with which the sync rejects (no such table). *)
Definition tableRead : Type :=
  error + (list jsstring * list (list scalar)).

(** [getArqueroTableFromExcel(tableName)], up to [aq.table]: the
    column data it builds, or the error thrown. *)
Definition getArqueroTableFromExcel (read : tableRead)
  : error + gmap jsstring (list element) :=
  match read with
  | inl e => inl e
  | inr (headers, rows) => inr (columnData headers rows)
  end.

(** The earlier version of the function built one object per row:
    [headers.forEach((header, index) => { obj[header] = row[index]; })],
    from [index] on. *)
Fixpoint fillObject (row : list scalar) (headers : list jsstring)
    (index : nat) (obj : gmap jsstring element)
  : gmap jsstring element :=
  match headers with
  | [] => obj
  | header :: rest =>
    fillObject row rest (S index) (assign obj header (row !! index))
  end.

(** [rows.map(row => { let obj = {}; ...; return obj; })], the array
    handed to [aq.from]: the own properties of each object. *)
Definition rowData (headers : list jsstring) (rows : list (list scalar))
  : list (gmap jsstring element) :=
  List.map (fun row => fillObject row headers 0 ∅) rows.

End Bridge.

(** ** Saved diagrams and charts *)

Module Specs.
Import Writeback.

Section Lists.
Context {content : Type}.

(** An entry of a stored list: [{ id, name, code }] for a diagram,
    [{ id, name, spec }] for a chart. *)
Record namedSpec : Type := mkSpec {
  specId : jsstring;
  specName : jsstring;
  specContent : content
}.

(** [specs.findIndex(s => s.id === specId)]; [None] for [-1]. *)
Fixpoint findIndex (id : jsstring) (specs : list namedSpec) : option nat :=
  match specs with
  | [] => None
  | s :: rest =>
    if bool_decide (specId s = id) then Some 0
    else S <$> findIndex id rest
  end.

(** [specs.find(s => s.id === specId)] *)
Fixpoint find (id : jsstring) (specs : list namedSpec) : option namedSpec :=
  match specs with
  | [] => None
  | s :: rest => if bool_decide (specId s = id) then Some s else find id rest
  end.

(** [specs[index].name = chartName; specs[index].code = code] *)
Definition overwrite (chartName : jsstring) (c : content) (s : namedSpec)
  : namedSpec :=
  {| specId := specId s; specName := chartName; specContent := c |}.

(** The branch [if (specId) { ... } else { ... }] of the two save
    functions, as far as the list goes. *)
Definition putSpec (selected now chartName : jsstring) (c : content)
    (specs : list namedSpec) : list namedSpec :=
  match selected with
  | _ :: _ =>
    match findIndex selected specs with
    | Some index => alter (overwrite chartName c) index specs
    | None => specs
    end
  | [] =>
    specs ++ [{| specId := now; specName := chartName; specContent := c |}]
  end.

(** One [<option>] per stored entry. *)
Definition optionsOf (specs : list namedSpec) : list (jsstring * jsstring) :=
  List.map (fun s => (specId s, specName s)) specs.
End Lists.

Arguments namedSpec : clear implicits.

(** The settings of the document: the in-memory property bag that [get] and
    [set] work on, and what [saveAsync] last stored in the document. *)
Record store : Type := mkStore {
  bag : gmap jsstring jsstring;
  document : gmap jsstring jsstring
}.

(** [settings.set(key, text)] *)
Definition setSetting (key text : jsstring) (st : store) : store :=
  {| bag := <[key := text]> (bag st); document := document st |}.

(** [settings.saveAsync] that succeeds. *)
Definition saved (st : store) : store :=
  {| bag := bag st; document := bag st |}.

(** The select element with the saved entries: its value and its options
    (value and text). *)
Record picker : Type := mkPicker {
  selected : jsstring;
  options : list (jsstring * jsstring)
}.

(** [select.appendChild(option); select.value = newId] *)
Definition addOption (newId chartName : jsstring) (p : picker) : picker :=
  {| selected := newId; options := options p ++ [(newId, chartName)] |}.

Definition MERMAID_SPECS : jsstring := lit "MERMAID_SPECS".

(** [`VEGA_SPECS_${tableName}`] *)
Definition vegaKey (tableName : jsstring) : jsstring :=
  lit "VEGA_SPECS_" ++ tableName.

Definition defaultDiagram : jsstring :=
  lit "flowchart TD;" ++ [10%N]
  ++ lit "    A-->B;" ++ [10%N]
  ++ lit "    A-->C;" ++ [10%N]
  ++ lit "    B-->D;" ++ [10%N]
  ++ lit "    C-->D;".

(** *** Diagrams *)

Section Mermaid.
(** [JSON.stringify(specs)] and [JSON.parse(savedSpecs)] for a list of
    diagrams; [None] stands for a thrown exception. *)
Variable JSON_stringify : list (namedSpec jsstring) -> jsstring.
Variable JSON_parse : jsstring -> option (list (namedSpec jsstring)).

(** The fields of the diagram editor. *)
Record mermaidEditor : Type := mkMermaidEditor {
  mermaidSelect : picker;
  mermaidChartName : jsstring;
  mermaidCode : jsstring;
  mermaidMessage : jsstring
}.

(** [let specs = []; const savedSpecs = settings.get(settingsKey);
    if (savedSpecs) { specs = JSON.parse(savedSpecs); }] *)
Definition storedDiagrams (st : store)
  : option (list (namedSpec jsstring)) :=
  match bag st !! MERMAID_SPECS with
  | Some (c :: text) => JSON_parse (c :: text)
  | Some [] | None => Some []
  end.

(** [loadMermaidSpecs]; [None] when [JSON.parse] throws. *)
Definition loadMermaidSpecs (st : store) (ed : mermaidEditor)
  : option mermaidEditor :=
  match storedDiagrams st with
  | None => None
  | Some specs =>
    Some {| mermaidSelect :=
              {| selected := [];
                 options := ([], lit "-- New Diagram --") :: optionsOf specs |};
            mermaidChartName := [];
            mermaidCode := defaultDiagram;
            mermaidMessage := mermaidMessage ed |}
  end.

(** [onMermaidSpecSelect]; [None] when [JSON.parse] throws. *)
Definition onMermaidSpecSelect (st : store) (ed : mermaidEditor)
  : option mermaidEditor :=
  match selected (mermaidSelect ed) with
  | [] =>
    Some {| mermaidSelect := mermaidSelect ed;
            mermaidChartName := [];
            mermaidCode := defaultDiagram;
            mermaidMessage := mermaidMessage ed |}
  | specId =>
    match storedDiagrams st with
    | None => None
    | Some specs =>
      match find specId specs with
      | Some s =>
        Some {| mermaidSelect := mermaidSelect ed;
                mermaidChartName := specName s;
                mermaidCode := specContent s;
                mermaidMessage := mermaidMessage ed |}
      | None => Some ed
      end
    end
  end.

Definition withMermaidMessage (text : jsstring) (ed : mermaidEditor)
  : mermaidEditor :=
  {| mermaidSelect := mermaidSelect ed;
     mermaidChartName := mermaidChartName ed;
     mermaidCode := mermaidCode ed;
     mermaidMessage := text |}.

(** [saveMermaidSpec]; [now] is [Date.now().toString()] and [save] how
    [saveAsync] ends. *)
Definition saveMermaidSpec (now : jsstring) (save : saveStatus)
    (st : store) (ed : mermaidEditor) : mermaidEditor * store :=
  let chartName := mermaidChartName ed in
  let code := mermaidCode ed in
  let ed := withMermaidMessage [] ed in
  match chartName with
  | [] => (withMermaidMessage (lit "Please enter a diagram name.") ed, st)
  | _ :: _ =>
    match storedDiagrams st with
    | None => (withMermaidMessage (lit "Error saving diagram.") ed, st)
    | Some specs =>
      let specId := selected (mermaidSelect ed) in
      let specs := putSpec specId now chartName code specs in
      let ed :=
        match specId with
        | _ :: _ => ed
        | [] =>
          {| mermaidSelect := addOption now chartName (mermaidSelect ed);
             mermaidChartName := mermaidChartName ed;
             mermaidCode := mermaidCode ed;
             mermaidMessage := mermaidMessage ed |}
        end in
      let st := setSetting MERMAID_SPECS (JSON_stringify specs) st in
      match save with
      | SaveSucceeded =>
        (withMermaidMessage (lit "Diagram saved successfully.") ed, saved st)
      | SaveFailed =>
        (withMermaidMessage (lit "Failed to save diagram.") ed, st)
      | SaveThrows =>
        (withMermaidMessage (lit "Error saving diagram.") ed, st)
      end
    end
  end.
End Mermaid.

(** *** Charts *)

Section VegaSpecs.
(** A parsed chart specification, [JSON.parse(specStr)] for the text of
    the editor and [JSON.stringify(spec, null, 2)] for showing one. *)
Context {spec : Type}.
Variable parseSpec : jsstring -> option spec.
Variable showSpec : spec -> jsstring.

(** [JSON.stringify(specs)] and [JSON.parse(savedSpecs)] for a list of
    charts; [None] stands for a thrown exception. *)
Variable JSON_stringify : list (namedSpec spec) -> jsstring.
Variable JSON_parse : jsstring -> option (list (namedSpec spec)).

(** The fields of the chart editor. *)
Record vegaEditor : Type := mkVegaEditor {
  vegaTableSelect : jsstring;
  vegaSelect : picker;
  vegaChartName : jsstring;
  vegaSpecText : jsstring;
  vegaMessage : jsstring
}.

Definition storedCharts (tableName : jsstring) (st : store)
  : option (list (namedSpec spec)) :=
  match bag st !! vegaKey tableName with
  | Some (c :: text) => JSON_parse (c :: text)
  | Some [] | None => Some []
  end.

Definition withVegaMessage (text : jsstring) (ed : vegaEditor)
  : vegaEditor :=
  {| vegaTableSelect := vegaTableSelect ed;
     vegaSelect := vegaSelect ed;
     vegaChartName := vegaChartName ed;
     vegaSpecText := vegaSpecText ed;
     vegaMessage := text |}.

(** [onVegaSpecSelect]; [None] when [JSON.parse] throws. *)
Definition onVegaSpecSelect (st : store) (ed : vegaEditor)
  : option vegaEditor :=
  match vegaTableSelect ed with
  | [] => Some ed
  | tableName =>
    match selected (vegaSelect ed) with
    | [] =>
      Some {| vegaTableSelect := vegaTableSelect ed;
              vegaSelect := vegaSelect ed;
              vegaChartName := [];
              vegaSpecText := vegaSpecText ed;
              vegaMessage := vegaMessage ed |}
    | specId =>
      match storedCharts tableName st with
      | None => None
      | Some specs =>
        match find specId specs with
        | Some s =>
          Some {| vegaTableSelect := vegaTableSelect ed;
                  vegaSelect := vegaSelect ed;
                  vegaChartName := specName s;
                  vegaSpecText := showSpec (specContent s);
                  vegaMessage := vegaMessage ed |}
        | None => Some ed
        end
      end
    end
  end.

(** [saveVegaSpec]; every exception inside its [try] ends in the same
    message. *)
Definition saveVegaSpec (now : jsstring) (save : saveStatus)
    (st : store) (ed : vegaEditor) : vegaEditor * store :=
  let tableName := vegaTableSelect ed in
  let chartName := vegaChartName ed in
  let specStr := vegaSpecText ed in
  let ed := withVegaMessage [] ed in
  match tableName, chartName with
  | [], _ | _, [] =>
    (withVegaMessage (lit "Please select a table and enter a chart name.") ed,
     st)
  | _ :: _, _ :: _ =>
    match parseSpec specStr with
    | None => (withVegaMessage (lit "Invalid JSON spec.") ed, st)
    | Some chart =>
      match storedCharts tableName st with
      | None => (withVegaMessage (lit "Invalid JSON spec.") ed, st)
      | Some specs =>
        let specId := selected (vegaSelect ed) in
        let specs := putSpec specId now chartName chart specs in
        let ed :=
          match specId with
          | _ :: _ => ed
          | [] =>
            {| vegaTableSelect := vegaTableSelect ed;
               vegaSelect := addOption now chartName (vegaSelect ed);
               vegaChartName := vegaChartName ed;
               vegaSpecText := vegaSpecText ed;
               vegaMessage := vegaMessage ed |}
          end in
        let st := setSetting (vegaKey tableName) (JSON_stringify specs) st in
        match save with
        | SaveSucceeded =>
          (withVegaMessage (lit "Spec saved successfully.") ed, saved st)
        | SaveFailed => (withVegaMessage (lit "Failed to save spec.") ed, st)
        | SaveThrows => (withVegaMessage (lit "Invalid JSON spec.") ed, st)
        end
      end
    end
  end.
End VegaSpecs.

End Specs.

(** ** Concrete settings *)

Module SpecExamples.
Import Writeback Specs.

(** A stand-in for [JSON.stringify] and [JSON.parse] on lists of diagrams:
    every text is written as its length followed by its code units, the
    entries one after the other behind a bracket. *)
Definition writeText (s : jsstring) : jsstring := N.of_nat (length s) :: s.

Definition writeSpec (s : namedSpec jsstring) : jsstring :=
  writeText (specId s) ++ writeText (specName s) ++ writeText (specContent s).

Definition writeSpecs (specs : list (namedSpec jsstring)) : jsstring :=
  91%N :: concat (List.map writeSpec specs).

Definition readText (input : jsstring) : option (jsstring * jsstring) :=
  match input with
  | n :: rest =>
    if N.to_nat n <=? length rest
    then Some (take (N.to_nat n) rest, drop (N.to_nat n) rest)
    else None
  | [] => None
  end.

Fixpoint readEntries (fuel : nat) (input : jsstring)
  : option (list (namedSpec jsstring)) :=
  match input, fuel with
  | [], _ => Some []
  | _ :: _, 0 => None
  | _ :: _, S fuel' =>
    match readText input with
    | None => None
    | Some (id, rest) =>
      match readText rest with
      | None => None
      | Some (name, rest) =>
        match readText rest with
        | None => None
        | Some (code, rest) =>
          match readEntries fuel' rest with
          | None => None
          | Some specs =>
            Some ({| specId := id; specName := name; specContent := code |}
                    :: specs)
          end
        end
      end
    end
  end.

Definition readSpecs (text : jsstring)
  : option (list (namedSpec jsstring)) :=
  match text with
  | 91%N :: rest => readEntries (length rest) rest
  | _ => None
  end.

Definition emptyStore : store := {| bag := ∅; document := ∅ |}.

(** The diagram editor with a name typed in and nothing selected. *)
Definition newDiagram : mermaidEditor :=
  {| mermaidSelect :=
       {| selected := []; options := [([], lit "-- New Diagram --")] |};
     mermaidChartName := lit "Order flow";
     mermaidCode := defaultDiagram;
     mermaidMessage := [] |}.

Definition timestamp : jsstring := lit "1700000000000".

(** A stored diagram, the settings that hold it, and the editor with that
    diagram selected and a new name typed in. *)
Definition orderFlow : namedSpec jsstring :=
  {| specId := lit "1699999999999"; specName := lit "Order flow";
     specContent := defaultDiagram |}.

Definition oneDiagram : store :=
  {| bag := {[ MERMAID_SPECS := writeSpecs [orderFlow] ]}; document := ∅ |}.

Definition renaming : mermaidEditor :=
  {| mermaidSelect :=
       {| selected := lit "1699999999999";
          options := [([], lit "-- New Diagram --");
                      (lit "1699999999999", lit "Order flow")] |};
     mermaidChartName := lit "Order handling";
     mermaidCode := defaultDiagram;
     mermaidMessage := [] |}.

(** The chart editor with a table chosen, a name typed in and nothing
    selected. *)
Definition newChart : vegaEditor :=
  {| vegaTableSelect := lit "Sales";
     vegaSelect :=
       {| selected := []; options := [([], lit "-- New Chart --")] |};
     vegaChartName := lit "Totals";
     vegaSpecText := lit "{}";
     vegaMessage := [] |}.

End SpecExamples.

(** ** The query of a table, read back *)

Module Queries.

(** [loadQueryForTable(tableName)] of the version of the task pane that has
    the table list: the text it puts into [#query-code]. *)
Definition loadQueryForTable (settings : gmap jsstring jsstring)
    (tableName : jsstring) : jsstring :=
  match settings !! tableName with
  | Some (c :: savedQuery) => c :: savedQuery
  | Some [] | None => []
  end.

End Queries.

(** ** More concrete clicks *)

Module MoreExamples.
Import Writeback Examples Specs.

(** An export named like the key of the charts saved for [Sales]. *)
Definition clashingClick : world (list bool) :=
  {| queryCode := lit "dt";
     outputTableNameInput := vegaKey (lit "Sales");
     runQuery := fun body =>
       if bool_decide (body = lit "return dt;") then QueryTable summary
       else QueryThrows (plainError (lit "Unexpected token"));
     host := willingHost (Some itemNotFound);
     saveAsync := SaveSucceeded;
     settings := ∅ |}.

End MoreExamples.

(** ** Sorting a table: [sortTable] *)

Module Sorting.

(** [table.sort.apply([{ key: columnIndex, ascending: ascending }])] *)
Record sortField : Type := mkSortField {
  key : nat;
  ascending : bool
}.

(** The loop [for (let i = 0; i < columns.items.length; i++)] with its
    [break], from index [i] on; [None] stands for [-1]. *)
Fixpoint findColumn (columnName : jsstring) (items : list jsstring) (i : nat)
  : option nat :=
  match items with
  | [] => None
  | name :: rest =>
    if bool_decide (name = columnName) then Some i
    else findColumn columnName rest (S i)
  end.

(** [sortTable(tableName, columnName, direction)] once the columns are
    loaded: the sort it queues, if any. *)
Definition sortTable (columns : list jsstring) (columnName direction : jsstring)
  : option sortField :=
  match findColumn columnName columns 0 with
  | Some columnIndex =>
    Some {| key := columnIndex;
            ascending := bool_decide (direction = lit "ascending") |}
  | None => None
  end.

End Sorting.

(** * Properties *)

Module SanitizeFacts.
Import Sanitize.

Lemma invalidControl_listed (c : N) :
  invalidControl c = bool_decide (c ∈ spec_stripped).
Proof.
  destruct c as [|p]; [reflexivity|].
  destruct p as [p|p|]; try reflexivity;
  destruct p as [p|p|]; try reflexivity;
  destruct p as [p|p|]; try reflexivity;
  destruct p as [p|p|]; try reflexivity;
  destruct p as [p|p|]; try reflexivity;
  destruct p as [p|p|]; reflexivity.
Qed.

Lemma stripControl_spec (s : jsstring) : stripControl s = spec_strip s.
Proof.
  unfold stripControl, spec_strip.
  apply List.filter_ext. intros c. now rewrite invalidControl_listed.
Qed.

Lemma stripControl_app (s t : jsstring) :
  stripControl (s ++ t) = stripControl s ++ stripControl t.
Proof. apply List.filter_app. Qed.

Lemma stripControl_clean (s : jsstring) :
  Forall (fun c => invalidControl c = false) s -> stripControl s = s.
Proof.
  induction 1 as [|c s Hc _ IH]; [reflexivity|].
  unfold stripControl in *. simpl. rewrite Hc. simpl. now rewrite IH.
Qed.

Lemma stripControl_Forall (s : jsstring) :
  Forall (fun c => invalidControl c = false) (stripControl s).
Proof.
  unfold stripControl. apply List.Forall_forall. intros c Hc.
  apply List.filter_In in Hc. destruct Hc as [_ Hc].
  now apply negb_true_iff in Hc.
Qed.

Lemma stripControl_idem (s : jsstring) :
  stripControl (stripControl s) = stripControl s.
Proof. apply stripControl_clean, stripControl_Forall. Qed.

Lemma stripControl_take (n : nat) (s : jsstring) :
  stripControl (take n (stripControl s)) = take n (stripControl s).
Proof.
  apply stripControl_clean. apply Forall_take, stripControl_Forall.
Qed.

Lemma sanitizeString_spec (s : jsstring) : sanitizeString s = spec_string s.
Proof.
  unfold sanitizeString, spec_string, substring0, MAX_CELL_CHARS, TRUNCATED.
  rewrite <- stripControl_spec.
  destruct (Nat.ltb_spec (N.to_nat 32000) (length (stripControl s)));
    destruct (decide (32000 < N.of_nat (length (stripControl s)))%N);
    try reflexivity; lia.
Qed.

Lemma sanitizeString_idem (s : jsstring) :
  sanitizeString (sanitizeString s) = sanitizeString s.
Proof.
  unfold sanitizeString, substring0.
  generalize MAX_CELL_CHARS. intros n.
  destruct (Nat.ltb_spec n (length (stripControl s))) as [Hlong|Hshort].
  - rewrite stripControl_app, stripControl_take.
    assert (HT : stripControl TRUNCATED = TRUNCATED) by reflexivity.
    rewrite HT.
    assert (Hlen : length (take n (stripControl s)) = n)
      by (rewrite length_take; lia).
    destruct (Nat.ltb_spec n (length (take n (stripControl s) ++ TRUNCATED)))
      as [_|Hno].
    + rewrite take_app_le by lia. rewrite take_take. f_equal. f_equal. lia.
    + rewrite length_app, Hlen in Hno. simpl in Hno. lia.
  - rewrite stripControl_idem.
    destruct (Nat.ltb_spec n (length (stripControl s))); [lia|reflexivity].
Qed.

Section Facts.
Context {object : Type} (JSON_stringify : object -> json).

(** X21. Sanitising is idempotent on every cell value other than an
    object for which [JSON.stringify] returns [undefined]: a sanitised
    cell value, a truncated string among them, sanitises to itself. *)
Theorem sanitizeCell_idempotent_but_for_silent_objects (v : value object) :
  silent JSON_stringify v = false ->
  sanitizeCell JSON_stringify (sanitizeCell JSON_stringify v)
  = sanitizeCell JSON_stringify v.
Proof.
  intros Hv. destruct v as [| |b|x|n|s|id|id|tv|o]; try reflexivity.
  - destruct x; reflexivity.
  - simpl. now rewrite sanitizeString_idem.
  - simpl in *. destruct (JSON_stringify o); simpl;
      [now rewrite sanitizeString_idem|discriminate Hv
      |now rewrite sanitizeString_idem].
Qed.

(** C2 (amended).  For every cell value but an object for which
    [JSON.stringify] returns [undefined], the sanitisation of the code is
    the rule of the specification, with the JSON text of an object (or
    the placeholder) passed through the string rule: stripped of the
    listed control characters and cut to 32,000 characters plus the
    suffix when longer.  Big integers, symbols and functions are among
    the values returned unchanged. *)
Theorem sanitizeCell_follows_amended_rule (v : value object) :
  silent JSON_stringify v = false ->
  spec_sanitize_amended JSON_stringify v
  = Some (sanitizeCell JSON_stringify v).
Proof.
  intros Hv. destruct v as [| |b|x|n|s|id|id|tv|o]; try reflexivity.
  - simpl. now rewrite sanitizeString_spec.
  - simpl in *. unfold spec_json.
    destruct (JSON_stringify o); simpl;
      [now rewrite sanitizeString_spec|discriminate Hv
      |now rewrite sanitizeString_spec].
Qed.

(** Where the rule is silent, the code hands [undefined] on. *)
Lemma sanitizeCell_silent (v : value object) :
  silent JSON_stringify v = true <->
  sanitizeCell JSON_stringify v = VUndefined.
Proof.
  destruct v as [| |b|x|n|s|id|id|tv|o]; simpl;
    try (split; discriminate).
  - destruct (isNaN x); split; discriminate.
  - destruct (JSON_stringify o); split; (discriminate || reflexivity).
Qed.
End Facts.

Lemma long_json_lengths :
  textLength (sanitizeCell stringifyBoolArray (VObject manyTrue)) = Some 32014%N
  /\ spec_sanitize stringifyBoolArray (VObject manyTrue) ≫= textLength
     = Some 40001%N.
Proof. split; vm_compute; reflexivity. Qed.

Lemma stripControl_keeps_tab_newline_return :
  stripControl [9; 10; 13]%N = [9; 10; 13]%N.
Proof. reflexivity. Qed.

(** C2, counterexample: an array of 8000 [true] has a JSON text of 40,001
    characters; its cell is not that text but the first 32,000 characters of
    it and the suffix. *)
Lemma long_json_is_truncated :
  spec_sanitize stringifyBoolArray (VObject manyTrue)
  <> Some (sanitizeCell stringifyBoolArray (VObject manyTrue)).
Proof.
  intros H. apply (f_equal (fun r => r ≫= textLength)) in H.
  vm_compute in H. discriminate H.
Qed.

(** C2, witness: the array [[true, false]]. *)
Lemma sanitizeCell_follows_amended_rule_witness :
  spec_sanitize_amended stringifySample (VObject (BoolArray [true; false]))
  = Some (sanitizeCell stringifySample (VObject (BoolArray [true; false]))).
Proof.
  apply (sanitizeCell_follows_amended_rule stringifySample
           (VObject (BoolArray [true; false]))).
  reflexivity.
Defined.

(** An object that holds itself gets the placeholder. *)
Lemma cyclic_object_gets_placeholder :
  sanitizeCell stringifySample (VObject Cyclic) = VString CIRCULAR.
Proof. reflexivity. Qed.

(** C3.  For the object [{ toJSON() { return undefined; } }] the sanitiser
    returns [undefined], and sanitising that once more gives the empty
    string: on this cell sanitising twice is not sanitising once. *)
Theorem unprintable_object_breaks_idempotence :
  sanitizeCell stringifySample (VObject Unprintable) = VUndefined
  /\ sanitizeCell stringifySample
       (sanitizeCell stringifySample (VObject Unprintable))
     = VString []
  /\ sanitizeCell stringifySample
       (sanitizeCell stringifySample (VObject Unprintable))
     <> sanitizeCell stringifySample (VObject Unprintable).
Proof. repeat split. discriminate. Qed.

(** X21, witness: a string of 32,001 letters is cut and suffixed once. *)
Lemma sanitizeCell_idempotent_but_for_silent_objects_witness :
  sanitizeCell stringifySample
    (sanitizeCell stringifySample
       (VString (List.repeat 97%N (N.to_nat 32001))))
  = sanitizeCell stringifySample
      (VString (List.repeat 97%N (N.to_nat 32001))).
Proof.
  apply (sanitizeCell_idempotent_but_for_silent_objects stringifySample
           (VString (List.repeat 97%N (N.to_nat 32001)))).
  reflexivity.
Defined.

End SanitizeFacts.

Module WritebackFacts.
Import Writeback Policy Traces Runs.

Lemma batchSize_pos : 0 < batchSize.
Proof. unfold batchSize. lia. Qed.

Section Facts.
Context {object : Type}.
Variable JSON_stringify : object -> json.
Variable host : answers.
Variable columns : nat.

Ltac run_excel :=
  unfold bind, tryCatch, queue, sync, note, ret, throw; simpl.

Ltac ask_host :=
  match goal with
  | |- context [host ?n] => destruct (host n)
  end.

Lemma retryRow_tried (i j : nat) (r : list (value object)) c :
  pending c = [] ->
  exists t ds stop,
    ends (retryRow JSON_stringify host columns i j r) c t ds stop
    /\ rowTried JSON_stringify columns (i + j) r t ds stop.
Proof.
  destruct c as [p cm rd]. simpl. intros ->.
  unfold ends, retryRow, logFailedRow. run_excel.
  ask_host; simpl.
  - destruct (stringifyRowThrows JSON_stringify r) as [message|] eqn:Hlog;
      run_excel.
    + eexists [_], [], (Some message). split.
      * rewrite app_nil_r. reflexivity.
      * now constructor.
    + ask_host; simpl; eexists _, _, None;
        (split; [rewrite <- ?app_assoc; reflexivity|now constructor]).
  - eexists _, _, None. split; [reflexivity|constructor].
Qed.

Lemma retryRows_tried (rows : list (list (value object))) :
  forall i j c, pending c = [] ->
  exists t ds stop,
    ends (retryRows JSON_stringify host columns i j rows) c t ds stop
    /\ rowsTried JSON_stringify columns (i + j) rows t ds stop.
Proof.
  induction rows as [|r rest IH]; intros i j c Hp.
  - exists [], [], None. split; [|constructor].
    unfold ends. simpl. unfold ret. rewrite !app_nil_r.
    now destruct c; simpl in *; subst.
  - destruct (retryRow_tried i j r c Hp) as (t & ds & stop & Hrow & Htried).
    destruct stop as [message|].
    + exists t, ds, (Some message). split.
      * unfold ends in *. simpl retryRows. unfold bind. now rewrite Hrow.
      * now apply rows_tried_stop.
    + edestruct (IH i (S j)) as (t' & ds' & stop & Hrest & Htried');
        [shelve|].
      exists (t ++ t'), (ds ++ ds'), stop. split.
      * unfold ends in *. simpl retryRows. unfold bind. rewrite Hrow.
        simpl. rewrite Hrest. simpl. now rewrite <- !app_assoc.
      * replace (i + S j) with (S (i + j)) in Htried' by lia.
        now apply rows_tried_next.
  Unshelve. reflexivity.
Qed.

Variable values : list (list (value object)).

Lemma slice_batch (i : nat) :
  slice values i (i + batchSize) = take batchSize (drop i values).
Proof. unfold slice. f_equal. lia. Qed.

Lemma writeBatch_tried (i : nat) c :
  exists t ds stop,
    ends (writeBatch JSON_stringify host columns values i) c t ds stop
    /\ batchTried JSON_stringify columns (pending c) i
         (take batchSize (drop i values)) t ds stop.
Proof.
  destruct c as [p cm rd].
  unfold ends, writeBatch. rewrite slice_batch.
  set (batch := take batchSize (drop i values)).
  unfold bind at 1. unfold queue at 1. simpl.
  unfold tryCatch, bind at 1, sync at 1. simpl.
  destruct (host (length cm)) as [e|].
  - edestruct (retryRows_tried batch i 0) as (t & ds & stop & Hrun & Htried);
      [|rewrite Hrun]; [reflexivity|].
    simpl. eexists (_ :: t), ds, stop. split.
    + rewrite <- app_assoc. reflexivity.
    + constructor. now replace (i + 0) with i in Htried by lia.
  - unfold note. simpl. eexists [_], _, None.
    split; [reflexivity|constructor].
Qed.

Lemma writeBatches_tried (fuel : nat) :
  forall i c, length values - i <= fuel ->
  exists t ds stop,
    writeBatches JSON_stringify host columns values fuel i c
    = (ending stop,
       {| pending := if decide (i < length values) then [] else pending c;
          commits := commits c ++ t;
          rowsDone := rowsDone c ++ ds |})
    /\ batchesTried JSON_stringify columns (pending c) i (drop i values)
         t ds stop.
Proof.
  induction fuel as [|fuel IH]; intros i c Hfuel.
  - exists [], [], None. rewrite drop_ge by lia. split; [|constructor].
    simpl. unfold ret. rewrite decide_False by lia.
    destruct c; simpl. now rewrite !app_nil_r.
  - simpl writeBatches. destruct (Nat.ltb_spec i (length values)) as [Hlt|Hge].
    + assert (Hne : drop i values <> []).
      { intros Hnil. apply (f_equal length) in Hnil.
        rewrite length_drop in Hnil. simpl in Hnil. lia. }
      destruct (writeBatch_tried i c) as (t & ds & stop & Hrun & Htried).
      unfold bind. rewrite Hrun. destruct stop as [message|].
      * exists t, ds, (Some message). split.
        -- simpl. now rewrite decide_True by lia.
        -- now apply batches_tried_stop.
      * edestruct (IH (i + batchSize)) as (t' & ds' & stop & Hrest & Htried');
          [|simpl; rewrite Hrest].
        { pose proof batchSize_pos. lia. }
        exists (t ++ t'), (ds ++ ds'), stop. split.
        -- cbn [pending commits rowsDone]. rewrite <- !app_assoc.
           destruct (decide (i < length values)); [|lia].
           destruct (decide (i + batchSize < length values)); reflexivity.
        -- apply batches_tried_next; [exact Hne|exact Htried|].
           rewrite drop_drop. exact Htried'.
    + exists [], [], None. rewrite drop_ge by lia. split; [|constructor].
      unfold ret. rewrite decide_False by lia.
      destruct c; simpl. now rewrite !app_nil_r.
Qed.

(** The data loop, whatever the host answers and whatever the cells
    are. *)
Lemma writeData_tried c :
  exists t ds stop,
    writeData JSON_stringify host columns values c
    = (ending stop,
       {| pending := match values with [] => pending c | _ => [] end;
          commits := commits c ++ t;
          rowsDone := rowsDone c ++ ds |})
    /\ batchesTried JSON_stringify columns (pending c) 0 values t ds stop.
Proof.
  destruct (writeBatches_tried (length values) 0 c ltac:(lia))
    as (t & ds & stop & Hrun & Htried).
  exists t, ds, stop. split; [|exact Htried].
  unfold writeData. rewrite Hrun. destruct values; reflexivity.
Qed.
End Facts.

(** *** Without a throwing log line the loop follows the policy *)

Section Loggable.
Context {object : Type}.
Variable JSON_stringify : object -> json.
Variable columns : nat.

Lemma logs_true (r : list (value object)) :
  logs JSON_stringify r = true ->
  stringifyRowThrows JSON_stringify r = None.
Proof. unfold logs. now destruct (stringifyRowThrows _ _). Qed.

Lemma rowTried_policy k r (t : list (commit object)) ds stop :
  logs JSON_stringify r = true ->
  rowTried JSON_stringify columns k r t ds stop ->
  stop = None /\ exists d, ds = [(k, d)] /\ rowRetried columns k r t d.
Proof.
  intros Hlog Htried. apply logs_true in Hlog.
  destruct Htried; try congruence;
    (split; [reflexivity|eexists; split; [reflexivity|constructor]]).
Qed.

Lemma rowsTried_policy k rows (t : list (commit object)) ds stop :
  loggable JSON_stringify rows = true ->
  rowsTried JSON_stringify columns k rows t ds stop ->
  stop = None /\ rowsRetried columns k rows t ds.
Proof.
  intros Hlog Htried.
  induction Htried as [k|k r rest t ds t' ds' stop Hrow _ IH
                      |k r rest t ds message Hrow];
    simpl in Hlog; try (apply andb_true_iff in Hlog; destruct Hlog as [Hr Hrest]).
  - split; [reflexivity|constructor].
  - destruct (rowTried_policy _ _ _ _ _ Hr Hrow) as (_ & d & -> & Hd).
    destruct (IH Hrest) as [-> Hrows].
    split; [reflexivity|]. now apply rows_next.
  - destruct (rowTried_policy _ _ _ _ _ Hr Hrow) as (Hstop & _).
    discriminate Hstop.
Qed.

Lemma loggable_take n (rows : list (list (value object))) :
  loggable JSON_stringify rows = true ->
  loggable JSON_stringify (take n rows) = true.
Proof.
  unfold loggable. rewrite !forallb_forall. intros H r Hr. apply H.
  apply list_elem_of_In. apply list_elem_of_In in Hr.
  exact (subseteq_take n rows r Hr).
Qed.

Lemma loggable_drop n (rows : list (list (value object))) :
  loggable JSON_stringify rows = true ->
  loggable JSON_stringify (drop n rows) = true.
Proof.
  unfold loggable. rewrite !forallb_forall. intros H r Hr. apply H.
  apply list_elem_of_In. apply list_elem_of_In in Hr.
  exact (subseteq_drop n rows r Hr).
Qed.

Lemma batchTried_policy before i batch (t : list (commit object)) ds stop :
  loggable JSON_stringify batch = true ->
  batchTried JSON_stringify columns before i batch t ds stop ->
  stop = None /\ batchWritten columns before i batch t ds.
Proof.
  intros Hlog [|e t' ds' stop' Hrows].
  - split; [reflexivity|constructor].
  - destruct (rowsTried_policy _ _ _ _ _ Hlog Hrows) as [-> Hpol].
    split; [reflexivity|now constructor].
Qed.

Lemma batchesTried_policy before i rows (t : list (commit object)) ds stop :
  loggable JSON_stringify rows = true ->
  batchesTried JSON_stringify columns before i rows t ds stop ->
  stop = None /\ batchesWritten columns before i rows t ds.
Proof.
  intros Hlog Htried.
  induction Htried as [before i|before i rows t ds t' ds' stop Hne Hbatch _ IH
                      |before i rows t ds message Hne Hbatch].
  - split; [reflexivity|constructor].
  - destruct (batchTried_policy _ _ _ _ _ _ (loggable_take _ _ Hlog) Hbatch)
      as [_ Hpol].
    destruct (IH (loggable_drop _ _ Hlog)) as [-> Hrest].
    split; [reflexivity|]. now apply batches_next.
  - destruct (batchTried_policy _ _ _ _ _ _ (loggable_take _ _ Hlog) Hbatch)
      as [Hstop _].
    discriminate Hstop.
Qed.

Lemma writeData_policy (host : answers) (values : list (list (value object)))
    c :
  loggable JSON_stringify values = true ->
  exists t ds,
    writeData JSON_stringify host columns values c
    = (Returns tt,
       {| pending := match values with [] => pending c | _ => [] end;
          commits := commits c ++ t;
          rowsDone := rowsDone c ++ ds |})
    /\ batchesWritten columns (pending c) 0 values t ds.
Proof.
  intros Hlog.
  destruct (writeData_tried JSON_stringify host columns values c)
    as (t & ds & stop & Hrun & Htried).
  destruct (batchesTried_policy _ _ _ _ _ _ Hlog Htried) as [-> Hpol].
  exists t, ds. split; [exact Hrun|exact Hpol].
Qed.
End Loggable.

Import Accounting.

Section AccountingFacts.
Context {object : Type}.
Variable columns : nat.

Lemma committedRows_app (t t' : list (commit object)) :
  committedRows (t ++ t') = committedRows t ++ committedRows t'.
Proof. unfold committedRows. now rewrite List.map_app, List.concat_app. Qed.

Lemma onSheet_written (l : list nat) :
  List.map fst (List.filter onSheet (List.map (fun k => (k, Written)) l)) = l.
Proof. induction l as [|k l IH]; simpl; [reflexivity|now rewrite IH]. Qed.

Lemma rowsRetried_account k rows (t : list (commit object)) ds :
  rowsRetried columns k rows t ds ->
  List.map fst ds = seq k (length rows)
  /\ committedRows t = List.map S (List.map fst (List.filter onSheet ds)).
Proof.
  induction 1 as [k|k r rest t d t' ds Hrow _ [IHfst IHrows]].
  - split; reflexivity.
  - split; [simpl; now rewrite IHfst|].
    rewrite committedRows_app, IHrows.
    destruct Hrow; reflexivity.
Qed.

Lemma batchWritten_account before i batch (t : list (commit object)) ds :
  batchWritten columns before i batch t ds ->
  List.map fst ds = seq i (length batch)
  /\ committedRows t
     = carried before t ++ List.map S (List.map fst (List.filter onSheet ds))
  /\ t <> [].
Proof.
  destruct 1 as [|e t ds Hrows].
  - split; [|split; [|discriminate]].
    + rewrite List.map_map. simpl. apply List.map_id.
    + rewrite onSheet_written, List.seq_shift.
      unfold committedRows, carried. simpl.
      rewrite List.map_app, List.concat_app. simpl.
      now rewrite !app_nil_r.
  - apply rowsRetried_account in Hrows. destruct Hrows as [Hfst Hrows].
    split; [exact Hfst|split; [|discriminate]].
    exact Hrows.
Qed.

Lemma batchesWritten_nil before i (t : list (commit object)) ds :
  batchesWritten columns before i [] t ds -> t = [] /\ ds = [].
Proof. inversion 1; subst; [split; reflexivity|congruence]. Qed.

Lemma batchesWritten_account before i rows (t : list (commit object)) ds :
  batchesWritten columns before i rows t ds ->
  List.map fst ds = seq i (length rows)
  /\ committedRows t
     = carried before t ++ List.map S (List.map fst (List.filter onSheet ds)).
Proof.
  induction 1 as [before i|before i rows t ds t' ds' Hne Hbatch Hrest [IHfst IHrows]].
  - split; reflexivity.
  - apply batchWritten_account in Hbatch.
    destruct Hbatch as (Hfst & Hrows & Hcons).
    split.
    + rewrite List.map_app, Hfst, IHfst.
      rewrite length_take, length_drop.
      destruct (Nat.le_gt_cases (length rows) 500) as [Hshort|Hlong].
      * rewrite Nat.min_r by lia.
        replace (length rows - 500) with 0 by lia.
        simpl. now rewrite app_nil_r.
      * rewrite Nat.min_l by lia.
        rewrite <- List.seq_app. f_equal. lia.
    + rewrite committedRows_app, Hrows, IHrows.
      rewrite List.filter_app, !List.map_app.
      destruct t as [|[reqs answer] t]; [congruence|].
      assert (Hnone : carried [] t' = [])
        by (destruct t' as [|[reqs' [e|]] t'']; reflexivity).
      rewrite Hnone. simpl. now rewrite <- app_assoc.
Qed.
End AccountingFacts.


(** *** The commits are answered by the host, in order *)

Section Answers.
Context {object : Type}.
Variable JSON_stringify : object -> json.
Variable host : answers.

Lemma answeredBy_same (c c' : context object) : commits c' = commits c -> answeredBy host c c'.
Proof. intros H. exists []. split; [now rewrite app_nil_r|reflexivity]. Qed.

Lemma answeredBy_trans (c1 c2 c3 : context object) :
  answeredBy host c1 c2 -> answeredBy host c2 c3 -> answeredBy host c1 c3.
Proof.
  intros (t & Hc & Ht) (t' & Hc' & Ht'). exists (t ++ t'). split.
  - now rewrite Hc', Hc, app_assoc.
  - rewrite List.map_app, Ht, Ht', Hc, !length_app, List.seq_app, List.map_app.
    reflexivity.
Qed.

Lemma obeys_ret {A} (a : A) : obeys host (@ret object A a).
Proof. intros c. now apply answeredBy_same. Qed.

Lemma obeys_throw {A} e : obeys host (@throw object A e).
Proof. intros c. now apply answeredBy_same. Qed.

Lemma obeys_queue (r : request object) : obeys host (queue r).
Proof. intros c. now apply answeredBy_same. Qed.

Lemma obeys_note first count d : obeys host (@note object first count d).
Proof. intros c. now apply answeredBy_same. Qed.

Lemma obeys_sync : obeys host (@sync object host).
Proof.
  intros c. unfold sync.
  exists [(pending c, host (length (commits c)))].
  split; [destruct (host (length (commits c)))|]; reflexivity.
Qed.

Lemma obeys_bind {A B} (m : excel object A) (k : A -> excel object B) :
  obeys host m -> (forall a, obeys host (k a)) -> obeys host (bind m k).
Proof.
  intros Hm Hk c. unfold bind. specialize (Hm c).
  destruct (m c) as [[a|e] c']; simpl in *; [|exact Hm].
  eapply answeredBy_trans; [exact Hm|apply Hk].
Qed.

Lemma obeys_tryCatch {A} (m : excel object A) (h : error -> excel object A) :
  obeys host m -> (forall e, obeys host (h e)) -> obeys host (tryCatch m h).
Proof.
  intros Hm Hh c. unfold tryCatch. specialize (Hm c).
  destruct (m c) as [[a|e] c']; simpl in *; [exact Hm|].
  eapply answeredBy_trans; [exact Hm|apply Hh].
Qed.

Lemma obeys_logFailedRow (r : list (value object)) :
  obeys host (logFailedRow JSON_stringify r).
Proof.
  unfold logFailedRow.
  destruct (stringifyRowThrows JSON_stringify r);
    [apply obeys_throw|apply obeys_ret].
Qed.

Create HintDb obeys.
Hint Resolve obeys_ret obeys_throw obeys_queue obeys_note obeys_sync
  obeys_logFailedRow : obeys.

Ltac obey :=
  repeat first
    [ apply obeys_bind; [|intros ?]
    | apply obeys_tryCatch; [|intros ?]
    | solve [auto with obeys] ].

Lemma obeys_retryRows columns (rows : list (list (value object))) :
  forall i j, obeys host (retryRows JSON_stringify host columns i j rows).
Proof.
  induction rows as [|r rest IH]; intros i j; simpl; [apply obeys_ret|].
  apply obeys_bind; [|intros _; apply IH].
  unfold retryRow. obey.
Qed.

Lemma obeys_writeBatches columns (values : list (list (value object))) fuel :
  forall i, obeys host (writeBatches JSON_stringify host columns values fuel i).
Proof.
  induction fuel as [|fuel IH]; intros i; simpl; [apply obeys_ret|].
  destruct (i <? length values); [|apply obeys_ret].
  apply obeys_bind; [|intros _; apply IH].
  unfold writeBatch. obey. apply obeys_retryRows.
Qed.

Lemma obeys_writeData columns (values : list (list (value object))) :
  obeys host (writeData JSON_stringify host columns values).
Proof. apply obeys_writeBatches. Qed.
End Answers.

Section DataLoop.
Context {object : Type}.
Variable JSON_stringify : object -> json.
Variable host : answers.
Variable columns : nat.
Variable values : list (list (value object)).

(** X22.  When no cell is a big integer (nor an object whose
    serialization throws), the data loop returns whatever the host
    answers: it never throws.  Its commits follow the policy: consecutive
    batches of at most 500 rows, each committed at its sheet offset;
    after a refused batch every row of it is committed on its own, after
    a refused row the placeholder in its first cell, and after a refused
    placeholder the loop goes on with the next row and the next batch. *)
Theorem batches_retried_row_by_row (c : context object) :
  loggable JSON_stringify values = true ->
  exists t ds,
    writeData JSON_stringify host columns values c
    = (Returns tt,
       {| pending := match values with [] => pending c | _ => [] end;
          commits := commits c ++ t;
          rowsDone := rowsDone c ++ ds |})
    /\ batchesWritten columns (pending c) 0 values t ds
    /\ List.map snd t = List.map host (seq (length (commits c)) (length t)).
Proof.
  intros Hlog.
  destruct (writeData_policy JSON_stringify columns host values c Hlog)
    as (t & ds & Hrun & Hpol).
  exists t, ds. split; [exact Hrun|split; [exact Hpol|]].
  destruct (obeys_writeData JSON_stringify host columns values c)
    as (t' & Hc & Ht').
  rewrite Hrun in Hc. simpl in Hc. apply app_inv_head in Hc. now subst t'.
Qed.

Lemma tally_total (ds : list (nat * disposition)) :
  tally Written ds + tally Marked ds + tally Skipped ds = length ds.
Proof.
  unfold tally. induction ds as [|[k []] ds IH]; simpl; lia.
Qed.

Lemma onSheet_NoDup (ds : list (nat * disposition)) :
  NoDup (List.map fst ds) ->
  NoDup (List.map S (List.map fst (List.filter onSheet ds))).
Proof.
  intros Hnd. apply NoDup_fmap_2; [intros a b; lia|].
  induction ds as [|e ds IH]; simpl in *; [constructor|].
  apply NoDup_cons in Hnd. destruct Hnd as [Hnotin Hnd].
  destruct (onSheet e); [|now apply IH].
  simpl. apply NoDup_cons. split; [|now apply IH].
  intros Hin. apply Hnotin.
  apply list_elem_of_In. apply list_elem_of_In in Hin.
  apply List.in_map_iff in Hin. destruct Hin as (e' & <- & Hin).
  apply List.filter_In in Hin. apply List.in_map. tauto.
Qed.
End DataLoop.

Import Examples Sanitize.

(** X22, witness: the two rows of the summary on a host that refuses every
    commit. *)
Lemma batches_retried_row_by_row_witness :
  exists t ds,
    writeData stringifyBoolArray refusingHost 2
      (valuesOf stringifyBoolArray summary) emptyContext
    = (Returns tt, {| pending := []; commits := t; rowsDone := ds |})
    /\ batchesWritten 2 [] 0 (valuesOf stringifyBoolArray summary) t ds
    /\ List.map snd t = List.map refusingHost (seq 0 (length t)).
Proof.
  apply (batches_retried_row_by_row stringifyBoolArray refusingHost 2
           (valuesOf stringifyBoolArray summary) emptyContext).
  reflexivity.
Defined.

(** C5.  The two rows of the ledger on a host that refuses every commit:
    the batch is refused, the first row is refused, and the log line
    throws on its big integer.  The loop ends there; the second row is
    never sent on its own, no placeholder is sent, and neither row is
    written, marked or skipped: of two rows none is accounted for. *)
Theorem rows_after_abort_are_unaccounted :
  let values := valuesOf stringifyBoolArray ledger in
  let run := writeData stringifyBoolArray refusingHost 2 values emptyContext in
  length values = 2
  /\ fst run = Throws (plainError BIGINT_TYPE_ERROR)
  /\ commits (snd run)
     = [([RangeSetValues 1 0 2 2 values], Some generalException);
        ([RangeSetValues 1 0 1 2 (take 1 values)], Some generalException)]
  /\ committedRows (commits (snd run)) = []
  /\ rowsDone (snd run) = []
  /\ tally Written (rowsDone (snd run)) + tally Marked (rowsDone (snd run))
     + tally Skipped (rowsDone (snd run)) = 0.
Proof. vm_compute. repeat split. Qed.

(** With numbers in the place of the big integers the same host has both
    rows skipped and the loop returns. *)
Lemma rows_without_bigint_are_skipped :
  let run := writeData stringifyBoolArray refusingHost 2
               (valuesOf stringifyBoolArray summary) emptyContext in
  fst run = Returns tt
  /\ rowsDone (snd run) = [(0, Skipped); (1, Skipped)].
Proof. vm_compute. repeat split. Qed.

End WritebackFacts.

Module ExportFacts.
Import Writeback Policy Traces Runs Accounting WritebackFacts.

Lemma startsWith_app (needle post : jsstring) :
  startsWith needle (needle ++ post) = true.
Proof.
  induction needle as [|n needle IH]; [reflexivity|].
  simpl. now rewrite N.eqb_refl, IH.
Qed.

Lemma indexOfFrom_lower (needle s : jsstring) :
  forall pos, (0 <= pos)%Z ->
  (-1 < indexOfFrom needle s pos)%Z \/ indexOfFrom needle s pos = (-1)%Z.
Proof.
  induction s as [|c s IH]; intros pos Hpos; simpl;
    destruct (startsWith needle _); try (left; lia); [right; reflexivity|].
  apply IH. lia.
Qed.

Lemma indexOfFrom_found (needle pre post : jsstring) :
  forall pos, (0 <= pos)%Z ->
  (-1 < indexOfFrom needle (pre ++ needle ++ post) pos)%Z.
Proof.
  induction pre as [|c pre IH]; intros pos Hpos.
  - simpl app. pose proof (startsWith_app needle post) as Hs.
    destruct (needle ++ post); simpl; rewrite Hs; lia.
  - simpl. destruct (startsWith needle _); [lia|]. apply IH. lia.
Qed.

Lemma alreadyExists_mentions (name : jsstring) :
  (-1 <? indexOf (lit "already exists") (alreadyExists name))%Z = true.
Proof.
  apply Z.ltb_lt. unfold indexOf, alreadyExists.
  change (lit "' already exists. Please choose a different name.")
    with (lit "' " ++ lit "already exists"
          ++ lit ". Please choose a different name.").
  rewrite !app_assoc. rewrite <- (app_assoc _ (lit "already exists")).
  apply indexOfFrom_found. lia.
Qed.

Section Facts.
Context {object : Type}.
Variable JSON_stringify : object -> json.

Lemma checkNameIsFree_verdict (host : answers) (name : jsstring) :
  checkNameIsFree host name emptyContext
  = (match lookupVerdict name (host 0) with
     | None => Returns tt
     | Some e => Throws e
     end,
     @lookedUp object name (host 0)).
Proof.
  unfold checkNameIsFree, lookupVerdict, lookedUp, tryCatch, bind, queue,
    sync, throw, ret, emptyContext. simpl.
  destruct (host 0) as [e|]; simpl.
  - destruct (bool_decide _); [reflexivity|].
    destruct (_ <? _)%Z; reflexivity.
  - now rewrite alreadyExists_mentions.
Qed.

Lemma createTable_runs (host : answers) name headers
    (values : list (list (value object))) c :
  pending c = [] -> values <> [] ->
  exists t ds stop,
    batchesTried JSON_stringify (length headers)
      (setupRequests name headers values) 0 values t ds stop
    /\ createTable JSON_stringify host name headers values c
       = match stop with
         | Some message =>
           (Throws (plainError message),
            {| pending := [];
               commits := commits c ++ t;
               rowsDone := rowsDone c ++ ds |})
         | None =>
           (match host (length (commits c) + length t) with
            | None => Returns tt
            | Some e => Throws e
            end,
            {| pending := [];
               commits := commits c ++ t
                          ++ [([SheetActivate],
                               host (length (commits c) + length t))];
               rowsDone := rowsDone c ++ ds |})
         end.
Proof.
  destruct c as [p cm rd]. simpl. intros -> Hne.
  unfold createTable.
  destruct (Nat.ltb_spec 0 (length values)) as [_|Hlen];
    [|destruct values; [congruence|simpl in Hlen; lia]].
  unfold bind, queue. cbn -[writeData].
  match goal with
  | |- context [writeData ?f ?h ?n ?v ?c] =>
    destruct (writeData_tried f h n v c) as (t & ds & stop & Hrun & Htried)
  end.
  rewrite Hrun. cbn -[writeData] in Htried |- *.
  exists t, ds, stop. split; [exact Htried|].
  destruct values as [|v0 vs]; [congruence|].
  destruct stop as [message|]; [reflexivity|].
  unfold sync. cbn.
  rewrite length_app, <- app_assoc.
  destruct (host (length cm + length t)); reflexivity.
Qed.

Lemma writeTable_from_lookup (host : answers) name headers
    (values : list (list (value object))) :
  writeTable JSON_stringify host name headers values emptyContext
  = match lookupVerdict name (host 0) with
    | Some e => (Throws e, lookedUp name (host 0))
    | None => createTable JSON_stringify host name headers values (lookedUp name (host 0))
    end.
Proof.
  unfold writeTable, bind. rewrite checkNameIsFree_verdict.
  destruct (lookupVerdict name (host 0)); reflexivity.
Qed.

Lemma outputToExcel_queried (w : world object) objects :
  queried w objects ->
  outputToExcel JSON_stringify w
  = if (ROW_LIMIT <? numRows objects)%N
    then stopWith w (rowLimitMessage (numRows objects)) None
    else
      match objects with
      | [] => stopWith w (lit "Query returned no data.") None
      | _ :: _ =>
        match writeTable JSON_stringify (host w) (outputTableNameInput w)
                (headersOf objects) (valuesOf JSON_stringify objects)
                emptyContext with
        | (Throws e, run) =>
          stopWith w (lit "Error: " ++ message e) (Some run)
        | (Returns _, run) =>
          saveQueryAndReport w (outputTableNameInput w)
            (defaultCode (queryCode w)) [] run
        end
      end.
Proof.
  intros (Hname & Hvalid & Hquery). unfold outputToExcel.
  rewrite bool_decide_eq_false_2 by exact Hname.
  rewrite Hvalid, Hquery. simpl negb. cbv iota.
  destruct (ROW_LIMIT <? numRows objects)%N; [reflexivity|].
  destruct objects; reflexivity.
Qed.

Lemma createTable_proceeds (w : world object) name answer headers
    (values : list (list (value object))) :
  values <> [] ->
  forall r run (o : outcome object),
    createTable JSON_stringify (host w) name headers values (lookedUp name answer)
    = (r, run) ->
    excelRun o = Some run ->
    proceeds name answer o.
Proof.
  intros Hne r run o Hrun Ho.
  destruct (createTable_runs (host w) name headers values
              (lookedUp name answer) eq_refl Hne)
    as (t & ds & stop & Htried & Hcreate).
  rewrite Hcreate in Hrun.
  assert (Hfirst : exists requests answer' rest,
            t = (WorksheetsAdd :: requests, answer') :: rest).
  { inversion Htried as [|before i rows t1 ds1 t2 ds2 stop' _ Hbatch _
                        |before i rows t1 ds1 message _ Hbatch]; subst;
      [congruence| |];
      inversion Hbatch; subst; eexists _, _, _; reflexivity. }
  destruct Hfirst as (requests & answer' & rest & ->).
  destruct stop as [message|]; injection Hrun as _ <-;
    eexists _, _, _, _; (split; [exact Ho|]); reflexivity.
Qed.

Lemma valuesOf_nonempty (objects : list (rowObject object)) :
  objects <> [] -> valuesOf JSON_stringify objects <> [].
Proof. destruct objects; [congruence|discriminate]. Qed.

(** The whole click once [Excel.run] is entered and the lookup lets the
    run go on.  When the log line throws for a row that the host refused,
    the click ends with the message of that exception.  Otherwise only
    the answer to the last commit, the one that activates the sheet,
    decides between the success message and an error. *)
Lemma export_after_lookup (w : world object) objects :
  exports w objects ->
  lookupVerdict (outputTableNameInput w) (host w 0) = None ->
  exists t ds stop,
    batchesTried JSON_stringify (length (headersOf objects))
      (setupRequests (outputTableNameInput w) (headersOf objects)
         (valuesOf JSON_stringify objects))
      0 (valuesOf JSON_stringify objects) t ds stop
    /\ outputToExcel JSON_stringify w
       = match stop with
         | Some message =>
           stopWith w (lit "Error: " ++ message)
             (Some {| pending := [];
                      commits :=
                        ([TablesGetItemLoadName (outputTableNameInput w)],
                         host w 0) :: t;
                      rowsDone := ds |})
         | None =>
           let run :=
             {| pending := [];
                commits :=
                  ([TablesGetItemLoadName (outputTableNameInput w)],
                   host w 0)
                  :: t ++ [([SheetActivate], host w (1 + length t))];
                rowsDone := ds |} in
           match host w (1 + length t) with
           | None =>
             saveQueryAndReport w (outputTableNameInput w)
               (defaultCode (queryCode w)) [] run
           | Some e => stopWith w (lit "Error: " ++ message e) (Some run)
           end
         end.
Proof.
  intros (Hq & Hwithin & Hne) Hfree.
  rewrite (outputToExcel_queried w objects Hq).
  destruct (N.ltb_spec ROW_LIMIT (numRows objects)) as [Hover|_]; [lia|].
  destruct objects as [|o0 rest]; [congruence|].
  rewrite writeTable_from_lookup, Hfree.
  destruct (createTable_runs (host w) (outputTableNameInput w)
              (headersOf (o0 :: rest))
              (valuesOf JSON_stringify (o0 :: rest))
              (lookedUp (outputTableNameInput w) (host w 0)) eq_refl)
    as (t & ds & stop & Htried & Hcreate).
  { apply valuesOf_nonempty. discriminate. }
  exists t, ds, stop. split; [exact Htried|].
  rewrite Hcreate. destruct stop as [message|]; [reflexivity|]. simpl.
  destruct (host w (S (length t))); reflexivity.
Qed.

(** Whether saving the settings succeeds, fails or throws, a table that
    was written ends in the success message, with the query set under the
    table name in the in-memory settings. *)
Lemma report_after_save (w : world object) name code messageArea0 run :
  messageArea (saveQueryAndReport w name code messageArea0 run)
  = successMessage name
  /\ settingsBag (saveQueryAndReport w name code messageArea0 run) !! name
     = Some code
  /\ (saveAsync w = SaveSucceeded ->
      settingsSaved (saveQueryAndReport w name code messageArea0 run) !! name
      = Some code).
Proof.
  unfold saveQueryAndReport. simpl.
  split; [reflexivity|]. split; [apply lookup_insert_eq|].
  intros ->. apply lookup_insert_eq.
Qed.

(** C1 (amended).  Once the name is accepted and the query has returned a
    table, the click ends with the row-limit message and without entering
    [Excel.run] (no request reaches the host) exactly when the table has
    more than 1,000,000 rows. *)
Theorem row_limit_rejects_over_a_million (w : world object) objects :
  queried w objects ->
  (ROW_LIMIT < numRows objects)%N
  <-> outputToExcel JSON_stringify w
      = stopWith w (rowLimitMessage (numRows objects)) None.
Proof.
  intros Hq. rewrite (outputToExcel_queried w objects Hq).
  destruct (N.ltb_spec ROW_LIMIT (numRows objects)) as [Hover|Hwithin].
  - split; [reflexivity|intros _; exact Hover].
  - split; [lia|]. intros Hstop. exfalso.
    destruct objects as [|o objects].
    + apply (f_equal messageArea) in Hstop. cbn [messageArea stopWith] in Hstop.
      vm_compute in Hstop. discriminate Hstop.
    + destruct (writeTable _ _ _ _ _) as [[u|e] run];
        apply (f_equal excelRun) in Hstop; discriminate Hstop.
Qed.

(** C6 (amended).  When the lookup finds the table, the click ends with
    the "already exists" error and nothing but the lookup reached the host.
    When the lookup fails with [ItemNotFound] the run goes on and asks for
    the new sheet.  Any other failure is thrown on when its message
    contains "already exists" and is ignored otherwise: the run goes on as
    if the name were free. *)
Theorem name_lookup_outcomes (w : world object) objects :
  exports w objects ->
  let name := outputTableNameInput w in
  let o := outputToExcel JSON_stringify w in
  match host w 0 with
  | None =>
    o = stopWith w (lit "Error: " ++ alreadyExists name)
          (Some (lookedUp name None))
  | Some e =>
    if bool_decide (officeCode e = Some (lit "ItemNotFound"))
    then proceeds name (Some e) o
    else if (-1 <? indexOf (lit "already exists") (message e))%Z
    then o = stopWith w (lit "Error: " ++ message e)
               (Some (lookedUp name (Some e)))
    else proceeds name (Some e) o
  end.
Proof.
  intros (Hq & Hwithin & Hne) name o. subst o.
  rewrite (outputToExcel_queried w objects Hq).
  destruct (N.ltb_spec ROW_LIMIT (numRows objects)) as [Hover|_]; [lia|].
  destruct objects as [|o0 rest]; [congruence|].
  rewrite writeTable_from_lookup. fold name.
  assert (Hgo : forall answer,
    let r := createTable JSON_stringify (host w) name (headersOf (o0 :: rest))
               (valuesOf JSON_stringify (o0 :: rest))
               (lookedUp name answer) in
    proceeds name answer
      (match r with
       | (Throws e, run) =>
         stopWith w (lit "Error: " ++ message e) (Some run)
       | (Returns _, run) =>
         saveQueryAndReport w name (defaultCode (queryCode w)) [] run
       end)).
  { intros answer r.
    destruct r as [[u|e] run] eqn:Hr; subst r;
      eapply createTable_proceeds; try exact Hr;
      try (apply valuesOf_nonempty; discriminate); reflexivity. }
  unfold lookupVerdict.
  destruct (host w 0) as [e|]; [|reflexivity].
  destruct (bool_decide _); [apply Hgo|].
  destruct (_ <? _)%Z; [reflexivity|apply Hgo].
Qed.
End Facts.

Import Examples Sanitize.

Lemma click_queried code objects lookup save :
  defaultCode code = lit "dt" ->
  queried (click code objects lookup save) objects.
Proof.
  intros Hcode. unfold queried. simpl. rewrite Hcode.
  split; [discriminate|split; reflexivity].
Qed.

(** C1, counterexample: a result of 1,000,001 rows is within 1,048,575 and
    is rejected by the row limit. *)
Lemma a_million_and_one_rows_rejected :
  (numRows overAMillion <= 1048575)%N
  /\ outputToExcel stringifyBoolArray
       (click (lit "dt") overAMillion (Some itemNotFound) SaveSucceeded)
     = stopWith (click (lit "dt") overAMillion (Some itemNotFound) SaveSucceeded)
         (rowLimitMessage 1000001) None.
Proof.
  assert (Hrows : numRows overAMillion = 1000001%N) by (vm_compute; reflexivity).
  split; [rewrite Hrows; lia|].
  rewrite (outputToExcel_queried stringifyBoolArray _ overAMillion)
    by (apply click_queried; reflexivity).
  rewrite Hrows. reflexivity.
Qed.

(** C1, witness: a summary of two rows. *)
Lemma row_limit_rejects_over_a_million_witness :
  (ROW_LIMIT < numRows summary)%N
  <-> outputToExcel stringifyBoolArray
        (click (lit "dt") summary (Some itemNotFound) SaveSucceeded)
      = stopWith (click (lit "dt") summary (Some itemNotFound) SaveSucceeded)
          (rowLimitMessage (numRows summary)) None.
Proof.
  apply (row_limit_rejects_over_a_million stringifyBoolArray).
  split; [discriminate|split; reflexivity].
Defined.

(** C6, counterexample: the lookup fails with [GeneralException], which is
    neither "not found" nor a collision; the table is created and the click
    ends in success. *)
Lemma other_lookup_error_is_ignored :
  officeCode generalException <> Some (lit "ItemNotFound")
  /\ indexOf (lit "already exists") (message generalException) = (-1)%Z
  /\ messageArea
       (outputToExcel stringifyBoolArray
          (click (lit "dt") summary (Some generalException) SaveSucceeded))
     = successMessage (lit "SalesSummary")
  /\ proceeds (lit "SalesSummary") (Some generalException)
       (outputToExcel stringifyBoolArray
          (click (lit "dt") summary (Some generalException) SaveSucceeded)).
Proof.
  split; [discriminate|]. split; [vm_compute; reflexivity|].
  split; [vm_compute; reflexivity|].
  unfold proceeds. eexists _, _, _, _. split; vm_compute; reflexivity.
Qed.

(** C6, witness: the lookup finds [SalesSummary]. *)
Lemma name_lookup_outcomes_witness :
  outputToExcel stringifyBoolArray
    (click (lit "dt") summary None SaveSucceeded)
  = stopWith (click (lit "dt") summary None SaveSucceeded)
      (lit "Error: " ++ alreadyExists (lit "SalesSummary"))
      (Some (lookedUp (lit "SalesSummary") None)).
Proof.
  apply (name_lookup_outcomes stringifyBoolArray
           (click (lit "dt") summary None SaveSucceeded) summary).
  split; [split; [discriminate|split; reflexivity]|].
  split; [vm_compute; discriminate|discriminate].
Defined.

(** C9.  The table is written and the host reports that saving the
    settings failed: the message area ends with the success message alone,
    the warning appended before is overwritten.  The query is in the
    in-memory settings under the table name and not in the document. *)
Lemma save_warning_is_overwritten :
  let o := outputToExcel stringifyBoolArray
             (click (lit "dt") summary (Some itemNotFound) SaveFailed) in
  messageArea o = lit "Success! Table 'SalesSummary' created."
  /\ indexOf saveWarning (messageArea o) = (-1)%Z
  /\ settingsBag o !! lit "SalesSummary" = Some (lit "dt")
  /\ settingsSaved o !! lit "SalesSummary" = None.
Proof. vm_compute. repeat split. Qed.

Lemma trimStart_blank (code : jsstring) :
  forallb isTrimmed code = true -> trimStart code = [].
Proof.
  induction code as [|c code IH]; [reflexivity|].
  simpl. intros H. apply andb_true_iff in H. destruct H as [Hc H].
  rewrite Hc. now apply IH.
Qed.

Lemma defaultCode_blank (code : jsstring) :
  forallb isTrimmed code = true -> defaultCode code = lit "dt".
Proof.
  intros H. unfold defaultCode, trim.
  rewrite (trimStart_blank code H). now destruct code.
Qed.

(** C10.  When the text of the editor is empty or only white space, the
    function body evaluated is [return dt;], in the preview and in the
    export alike, and both do what they do for the text [dt].  That body
    returns the table it is given: when it gives the source table, the
    preview shows the source table, and the export (for an accepted name and
    a source of one to a million rows) writes the headers and the sanitised
    rows of the source table and stores [dt] as the query of the new
    table. *)
Theorem blank_code_defaults_to_dt {object : Type}
    (JSON_stringify : object -> json) (w : world object)
    (query : jsstring -> queryResult object) (code : jsstring) :
  forallb isTrimmed code = true ->
  functionBody (defaultCode code) = lit "return dt;"
  /\ runPreview code query = runPreview (lit "dt") query
  /\ outputToExcel JSON_stringify (withCode w code)
     = outputToExcel JSON_stringify (withCode w (lit "dt"))
  /\ (forall source,
      query (lit "return dt;") = QueryTable source ->
      runPreview code query = PreviewTable source)
  /\ (forall source,
      runQuery w (lit "return dt;") = QueryTable source ->
      outputTableNameInput w <> [] ->
      validTableName (outputTableNameInput w) = true ->
      source <> [] ->
      (numRows source <= ROW_LIMIT)%N ->
      outputToExcel JSON_stringify (withCode w code)
      = match writeTable JSON_stringify (host w) (outputTableNameInput w)
                (headersOf source) (valuesOf JSON_stringify source)
                emptyContext with
        | (Throws e, run) =>
          stopWith w (lit "Error: " ++ message e) (Some run)
        | (Returns _, run) =>
          saveQueryAndReport w (outputTableNameInput w) (lit "dt") [] run
        end).
Proof.
  intros H. pose proof (defaultCode_blank code H) as Hdt.
  split; [now rewrite Hdt|]. split; [unfold runPreview; now rewrite Hdt|].
  split.
  { unfold outputToExcel, saveQueryAndReport, stopWith. simpl.
    now rewrite Hdt. }
  split.
  - intros source Hsource. unfold runPreview. rewrite Hdt.
    change (functionBody (lit "dt")) with (lit "return dt;").
    now rewrite Hsource.
  - intros source Hsource Hname Hvalid Hne Hwithin.
    rewrite (outputToExcel_queried JSON_stringify (withCode w code) source).
    + destruct (N.ltb_spec ROW_LIMIT (numRows source)) as [Hover|_]; [lia|].
      destruct source as [|s0 source]; [congruence|].
      simpl queryCode. rewrite Hdt. reflexivity.
    + unfold queried. simpl. rewrite Hdt.
      split; [exact Hname|]. split; [exact Hvalid|exact Hsource].
Qed.

(** C10, witness: a space, a tab and a newline in the editor, on a workbook
    whose selected table is the summary: the preview shows the summary and
    the export writes it. *)
Lemma blank_code_defaults_to_dt_witness :
  let w := click [] summary (Some itemNotFound) SaveSucceeded in
  let o := outputToExcel stringifyBoolArray (withCode w [32; 9; 10]%N) in
  functionBody (defaultCode [32; 9; 10]%N) = lit "return dt;"
  /\ runPreview [32; 9; 10]%N (runQuery w) = PreviewTable summary
  /\ o = match writeTable stringifyBoolArray (host w) (lit "SalesSummary")
                 (headersOf summary) (valuesOf stringifyBoolArray summary)
                 emptyContext with
         | (Throws e, run) =>
           stopWith w (lit "Error: " ++ message e) (Some run)
         | (Returns _, run) =>
           saveQueryAndReport w (lit "SalesSummary") (lit "dt") [] run
         end
  /\ messageArea o = successMessage (lit "SalesSummary")
  /\ settingsBag o !! lit "SalesSummary" = Some (lit "dt").
Proof.
  intros w o.
  destruct (blank_code_defaults_to_dt stringifyBoolArray w (runQuery w)
              [32; 9; 10]%N eq_refl) as (H1 & _ & _ & H4 & H5).
  split; [exact H1|]. split; [apply H4; reflexivity|].
  assert (Ho : o = match writeTable stringifyBoolArray (host w)
                           (lit "SalesSummary") (headersOf summary)
                           (valuesOf stringifyBoolArray summary)
                           emptyContext with
                   | (Throws e, run) =>
                     stopWith w (lit "Error: " ++ message e) (Some run)
                   | (Returns _, run) =>
                     saveQueryAndReport w (lit "SalesSummary") (lit "dt") []
                       run
                   end).
  { apply H5; [reflexivity|discriminate|reflexivity|discriminate|].
    vm_compute. discriminate. }
  split; [exact Ho|]. rewrite Ho. split; vm_compute; reflexivity.
Defined.

(** C4.  The ledger is exported to a workbook that takes none of its rows.
    The first batch is refused and the first row, sent on its own, is
    refused too; the log line then throws on the big integer of that row.
    The exception leaves both loops and [Excel.run]: no placeholder is
    sent, the second row is never tried, the sheet is not activated, the
    click ends with the message of the exception and the query is not
    stored. *)
Theorem failed_row_with_bigint_aborts_export :
  let o := outputToExcel stringifyBoolArray ledgerClick in
  let headers := headersOf ledger in
  let values := valuesOf stringifyBoolArray ledger in
  messageArea o = lit "Error: Do not know how to serialize a BigInt"
  /\ excelRun o
     = Some {| pending := [];
               commits :=
                 [([TablesGetItemLoadName (lit "Ledger")], Some itemNotFound);
                  (setupRequests (lit "Ledger") headers values
                   ++ [RangeSetValues 1 0 2 2 values], Some generalException);
                  ([RangeSetValues 1 0 1 2 (take 1 values)],
                   Some generalException)];
               rowsDone := [] |}
  /\ settingsBag o = ∅.
Proof. vm_compute. repeat split. Qed.
End ExportFacts.

Module VegaFacts.
Import Vega.

Lemma iter_inside {A} (f : A -> A) (n : nat) (x : A) :
  Nat.iter n f (f x) = f (Nat.iter n f x).
Proof. induction n as [|n IH]; simpl; [reflexivity|now rewrite IH]. Qed.

Section Facts.
Context {rows other : Type}.
Variable JSON_parse : jsstring -> option (spec rows other).

Lemma unsubscribe_only (h : handler) : unsubscribe h [h] = [].
Proof. unfold unsubscribe, sameHandler. simpl. now rewrite Nat.eqb_refl. Qed.

Lemma tidy_unsubscribe (st : state rows other) h :
  tidy st -> vegaAutoUpdateHandler st = Some h ->
  unsubscribe h (subscriptions st) = [].
Proof.
  intros [Hnone|(k & Hk & Hsubs)] Hh.
  - now rewrite Hnone.
  - rewrite Hsubs. rewrite Hk in Hh. injection Hh as ->.
    apply unsubscribe_only.
Qed.

Lemma tidy_no_handler (st : state rows other) :
  tidy st -> vegaAutoUpdateHandler st = None -> subscriptions st = [].
Proof. intros [Hnone|(k & Hk & _)] Hh; [exact Hnone|congruence]. Qed.

Lemma setupVegaAutoUpdate_tidy tableName ans (st : state rows other) :
  removeOk ans = true -> tidy st ->
  tidy (snd (setupVegaAutoUpdate tableName ans st)).
Proof.
  intros Hremove Htidy. unfold setupVegaAutoUpdate.
  destruct (vegaAutoUpdateHandler st) as [h|] eqn:Hh.
  - destruct (bool_decide (vegaCurrentTableName st = Some tableName)); simpl.
    + rewrite Hh. exact Htidy.
    + rewrite Hremove, (tidy_unsubscribe st h Htidy Hh).
      destruct (addOk ans); [right; eexists; split; reflexivity|now left].
  - rewrite Hh. simpl. rewrite (tidy_no_handler st Htidy Hh).
    destruct (addOk ans); [right; eexists; split; reflexivity|now left].
Qed.

Lemma runVegaPreview_tidy tableName specStr ans (st : state rows other) :
  removeOk ans = true -> tidy st ->
  tidy (runVegaPreview JSON_parse tableName specStr ans st).
Proof.
  intros Hremove Htidy. unfold runVegaPreview.
  destruct tableName as [|c tableName]; [exact Htidy|].
  destruct (JSON_parse specStr) as [chart|]; [|exact Htidy].
  unfold renderVegaChart.
  destruct (returns (rendered ans) (Some chart)); [|exact Htidy].
  apply setupVegaAutoUpdate_tidy; [exact Hremove|exact Htidy].
Qed.

Lemma closeVegaEditor_cleans (st : state rows other) :
  tidy st ->
  subscriptions (closeVegaEditor true st) = []
  /\ vegaAutoUpdateHandler (closeVegaEditor true st) = None
  /\ (vegaAutoUpdateHandler st <> None ->
      vegaCurrentTableName (closeVegaEditor true st) = None
      /\ vegaCurrentSpec (closeVegaEditor true st) = None).
Proof.
  intros Htidy. unfold closeVegaEditor.
  destruct (vegaAutoUpdateHandler st) as [h|] eqn:Hh; simpl.
  - rewrite (tidy_unsubscribe st h Htidy Hh). repeat split.
  - rewrite (tidy_no_handler st Htidy Hh), Hh. repeat split; congruence.
Qed.

(** The callbacks of one table change: each renders the stored table name
    and the stored specification as the callbacks before it have left
    it. *)
Lemma callbacks_only_render (how : rendering rows) (table : jsstring)
    (subs : list handler) :
  forall st : state rows other,
  let n := length (List.filter (fun h => bool_decide (source h = table))
                     subs) in
  let st' :=
    fold_left
      (fun acc h =>
         if bool_decide (source h = table) then onChangedCallback how acc
         else acc) subs st in
  vegaAutoUpdateHandler st' = vegaAutoUpdateHandler st
  /\ vegaCurrentTableName st' = vegaCurrentTableName st
  /\ vegaCurrentSpec st' = Nat.iter n (changed how) <$> vegaCurrentSpec st
  /\ subscriptions st' = subscriptions st
  /\ created st' = created st
  /\ renders st'
     = renders st
       ++ List.map
            (fun i => Render (vegaCurrentTableName st)
                        (Nat.iter i (changed how) <$> vegaCurrentSpec st))
            (seq 0 n).
Proof.
  induction subs as [|h subs IH]; intros st; simpl.
  - repeat split; [now destruct (vegaCurrentSpec st)|now rewrite app_nil_r].
  - destruct (bool_decide (source h = table)); [|apply IH].
    specialize (IH (onChangedCallback how st)). simpl in IH.
    destruct IH as (H1 & H2 & H3 & H4 & H5 & H6).
    repeat split; try assumption.
    + rewrite H3. destruct (vegaCurrentSpec st); simpl; [|reflexivity].
      f_equal. apply iter_inside.
    + rewrite H6. simpl. rewrite <- app_assoc. f_equal. simpl. f_equal.
      * now destruct (vegaCurrentSpec st).
      * rewrite <- List.seq_shift, List.map_map.
        apply List.map_ext. intros i.
        destruct (vegaCurrentSpec st); simpl; [|reflexivity].
        do 2 f_equal. apply iter_inside.
Qed.

Lemma tableChanged_tidy table how (st : state rows other) :
  tidy st -> tidy (tableChanged table how st).
Proof.
  unfold tableChanged, tidy.
  destruct (callbacks_only_render how table (subscriptions st) st)
    as (H1 & _ & _ & H4 & _).
  now rewrite H1, H4.
Qed.

Lemma closeVegaEditor_tidy (st : state rows other) :
  tidy st -> tidy (closeVegaEditor true st).
Proof.
  intros Htidy. left. now apply closeVegaEditor_cleans.
Qed.

Lemma step_tidy (st : state rows other) a :
  removalsCommitted a = true -> tidy st -> tidy (step JSON_parse st a).
Proof.
  destruct a as [tableName specStr ans|removed|table how]; simpl.
  - apply runVegaPreview_tidy.
  - intros ->. apply closeVegaEditor_tidy.
  - intros _. apply tableChanged_tidy.
Qed.

Lemma session_tidy actions :
  forallb removalsCommitted actions = true ->
  tidy (session JSON_parse actions).
Proof.
  unfold session.
  assert (Hgen : forall st, tidy st ->
            forallb removalsCommitted actions = true ->
            tidy (fold_left (step JSON_parse) actions st)).
  { induction actions as [|a actions IH]; intros st Hst Hall; [exact Hst|].
    simpl in *. apply andb_true_iff in Hall. destruct Hall as [Ha Hall].
    apply IH; [now apply step_tidy|exact Hall]. }
  apply Hgen. now left.
Qed.

(** C7 (amended).  In every session of previews, table changes and
    closings in which the host commits each removal of a handler, there is
    at most one live subscription at any time and it is the stored handler;
    closing the editor then leaves no subscription and no stored handler,
    and it clears the stored table name and chart when a handler was
    stored. *)
Theorem at_most_one_subscription actions :
  forallb removalsCommitted actions = true ->
  let st := session JSON_parse actions in
  length (subscriptions st) <= 1
  /\ (forall h, In h (subscriptions st) -> vegaAutoUpdateHandler st = Some h)
  /\ subscriptions (closeVegaEditor true st) = []
  /\ vegaAutoUpdateHandler (closeVegaEditor true st) = None
  /\ (vegaAutoUpdateHandler st <> None ->
      vegaCurrentTableName (closeVegaEditor true st) = None
      /\ vegaCurrentSpec (closeVegaEditor true st) = None).
Proof.
  intros Hall st. pose proof (session_tidy actions Hall) as Htidy.
  fold st in Htidy. split; [|split].
  - destruct Htidy as [->|(h & _ & ->)]; simpl; lia.
  - intros h Hin. destruct Htidy as [Hnone|(k & Hk & Hsubs)].
    + rewrite Hnone in Hin. destruct Hin.
    + rewrite Hsubs in Hin. destruct Hin as [<-|[]]. exact Hk.
  - now apply closeVegaEditor_cleans.
Qed.

Lemma session_snoc actions a :
  session JSON_parse (actions ++ [a])
  = step JSON_parse (session JSON_parse actions) a.
Proof. unfold session. now rewrite fold_left_app. Qed.

Lemma setupVegaAutoUpdate_keeps tableName ans (st : state rows other) :
  vegaCurrentTableName (snd (setupVegaAutoUpdate tableName ans st))
  = vegaCurrentTableName st
  /\ vegaCurrentSpec (snd (setupVegaAutoUpdate tableName ans st))
     = vegaCurrentSpec st.
Proof.
  unfold setupVegaAutoUpdate.
  destruct (vegaAutoUpdateHandler st) as [h|] eqn:Hh.
  - destruct (bool_decide _); simpl; [rewrite Hh|]; split; reflexivity.
  - rewrite Hh. split; reflexivity.
Qed.

(** What a preview that parsed stores: the table name, and the parsed
    object as its own render leaves it. *)
Lemma runVegaPreview_stores tableName specStr chart ans
    (st : state rows other) :
  tableName <> [] ->
  JSON_parse specStr = Some chart ->
  vegaCurrentTableName (runVegaPreview JSON_parse tableName specStr ans st)
  = Some tableName
  /\ vegaCurrentSpec (runVegaPreview JSON_parse tableName specStr ans st)
     = Some (changed (rendered ans) chart).
Proof.
  intros Hname Hparse. unfold runVegaPreview.
  destruct tableName as [|c tableName]; [congruence|].
  rewrite Hparse. unfold renderVegaChart.
  destruct (returns (rendered ans) (Some chart)); [|split; reflexivity].
  match goal with
  | |- context [setupVegaAutoUpdate ?t ?a ?s] =>
    destruct (setupVegaAutoUpdate_keeps t a s) as [-> ->]
  end.
  split; reflexivity.
Qed.

(** C8.  When the host reports a change of a table, each callback that
    runs renders the table name and the specification object stored by
    the most recent preview, whatever they were when the subscription was
    made: the first callback is given the object as the render of that
    preview left it, a further one as the callbacks before it left
    it. *)
Theorem change_renders_what_is_stored actions tableName specStr chart ans
    table how :
  tableName <> [] ->
  JSON_parse specStr = Some chart ->
  let st := session JSON_parse
              (actions ++ [RunVegaPreview tableName specStr ans]) in
  let stored := changed (rendered ans) chart in
  vegaCurrentTableName st = Some tableName
  /\ vegaCurrentSpec st = Some stored
  /\ renders (tableChanged table how st)
     = renders st
       ++ List.map
            (fun i => Render (Some tableName)
                        (Some (Nat.iter i (changed how) stored)))
            (seq 0 (length (List.filter
                              (fun h => bool_decide (source h = table))
                              (subscriptions st)))).
Proof.
  intros Hname Hparse st stored.
  assert (Hstored : vegaCurrentTableName st = Some tableName
                    /\ vegaCurrentSpec st = Some stored).
  { subst st. rewrite session_snoc. simpl.
    now apply runVegaPreview_stores. }
  destruct Hstored as [Hn Hs]. split; [exact Hn|]. split; [exact Hs|].
  unfold tableChanged.
  destruct (callbacks_only_render how table (subscriptions st) st)
    as (_ & _ & _ & _ & _ & Hrenders).
  rewrite Hrenders, Hn, Hs. reflexivity.
Qed.
End Facts.

Import VegaExamples.

(** C7, witness: previews of two tables and a change, all removals
    committed, with the editor still open: one subscription is live and it
    is the stored handler; closing the editor removes it and clears the
    three variables. *)
Lemma at_most_one_subscription_witness :
  let st := session parseChart twoTablesOpen in
  subscriptions st = [{| handlerId := 0; source := Sales |}]
  /\ vegaAutoUpdateHandler st = Some {| handlerId := 0; source := Sales |}
  /\ length (subscriptions st) <= 1
  /\ (forall h, In h (subscriptions st) -> vegaAutoUpdateHandler st = Some h)
  /\ subscriptions (closeVegaEditor true st) = []
  /\ vegaAutoUpdateHandler (closeVegaEditor true st) = None
  /\ vegaCurrentTableName (closeVegaEditor true st) = None
  /\ vegaCurrentSpec (closeVegaEditor true st) = None.
Proof.
  intros st.
  destruct (at_most_one_subscription parseChart twoTablesOpen eq_refl)
    as (Hone & Hstored & Hsubs & Hhandler & Hcleared).
  split; [reflexivity|]. split; [reflexivity|].
  split; [exact Hone|]. split; [exact Hstored|].
  split; [exact Hsubs|]. split; [exact Hhandler|].
  apply Hcleared. discriminate.
Defined.

(** C7, counterexample: a preview whose render fails stores the table name
    and the chart but no handler; closing the editor then clears neither. *)
Lemma close_without_handler_keeps_spec :
  let st := session parseChart
              [RunVegaPreview Sales barChart renderFails;
               CloseVegaEditor true] in
  vegaAutoUpdateHandler st = None
  /\ subscriptions st = []
  /\ vegaCurrentTableName st = Some Sales
  /\ vegaCurrentSpec st = Some (chartOf barChart).
Proof. vm_compute. repeat split. Qed.

(** When the host refuses the removal at closing, the old subscription
    lives on beside the one of the next preview. *)
Lemma refused_removal_leaves_two_subscriptions :
  subscriptions
    (session parseChart
       [RunVegaPreview Sales barChart allGood;
        CloseVegaEditor false;
        RunVegaPreview Sales barChart allGood])
  = [{| handlerId := 0; source := Sales |};
     {| handlerId := 1; source := Sales |}].
Proof. vm_compute. reflexivity. Qed.

(** [runVegaPreview] stores the new table name before it calls
    [setupVegaAutoUpdate], so the test for a changed table there never
    holds: after a preview of another table the subscription is still the
    one on the first table, and it renders the second. *)
Lemma preview_of_other_table_keeps_old_handler :
  let st := session parseChart
              [RunVegaPreview Sales barChart allGood;
               RunVegaPreview Costs layers allGood] in
  subscriptions st = [{| handlerId := 0; source := Sales |}]
  /\ vegaAutoUpdateHandler st = Some {| handlerId := 0; source := Sales |}
  /\ vegaCurrentTableName st = Some Costs
  /\ renders (tableChanged Costs drawn st) = renders st
  /\ renders (tableChanged Sales drawn st)
     = renders st
       ++ [Render (Some Costs) (Some (changed drawn (chartOf layers)))].
Proof. vm_compute. repeat split. Qed.

(** [setupVegaAutoUpdate] on its own, called for a table other than the
    stored one, removes the handler and attaches a new one. *)
Lemma setup_for_other_table_replaces_handler :
  let st := {| vegaAutoUpdateHandler := Some {| handlerId := 0; source := Sales |};
               vegaCurrentTableName := Some Sales;
               vegaCurrentSpec := Some (chartOf barChart);
               subscriptions := [{| handlerId := 0; source := Sales |}];
               created := 1;
               renders := [] |} in
  subscriptions (snd (setupVegaAutoUpdate Costs allGood st))
  = [{| handlerId := 1; source := Costs |}].
Proof. vm_compute. reflexivity. Qed.

(** C8, witness: the chart is replaced after the subscription was made;
    a change of the table renders the replacement, with the rows that the
    second preview put into it. *)
Lemma change_renders_what_is_stored_witness :
  let st := session parseChart
              ([RunVegaPreview Sales barChart allGood]
               ++ [RunVegaPreview Sales layers allGood]) in
  vegaCurrentTableName st = Some Sales
  /\ vegaCurrentSpec st = Some (changed drawn (chartOf layers))
  /\ renders (tableChanged Sales drawn st)
     = renders st
       ++ [Render (Some Sales) (Some (changed drawn (chartOf layers)))].
Proof.
  apply (change_renders_what_is_stored parseChart
           [RunVegaPreview Sales barChart allGood] Sales layers
           (chartOf layers) allGood Sales drawn).
  - discriminate.
  - reflexivity.
Defined.
End VegaFacts.

Module SheetFacts.
Import Writeback Policy Traces Runs Accounting Sheet Sanitize.
Import SanitizeFacts WritebackFacts ExportFacts.

Section Cells.
Context {object : Type}.
Variable JSON_stringify : object -> json.

Lemma TRUNCATED_clean : Forall (fun c => invalidControl c = false) TRUNCATED.
Proof.
  apply List.Forall_forall. intros c Hc.
  assert (Hall : forallb (fun c => negb (invalidControl c)) TRUNCATED = true)
    by reflexivity.
  apply negb_true_iff.
  exact (proj1 (List.forallb_forall _ _) Hall c Hc).
Qed.

Lemma sanitizeString_plain (s : jsstring) :
  Forall (fun c => invalidControl c = false) (sanitizeString s)
  /\ length (sanitizeString s) <= MAX_CELL_CHARS + length TRUNCATED.
Proof.
  unfold sanitizeString, substring0. generalize MAX_CELL_CHARS. intros n.
  destruct (Nat.ltb_spec n (length (stripControl s))) as [Hlong|Hshort].
  - split.
    + apply Forall_app. split.
      * apply Forall_take, stripControl_Forall.
      * apply TRUNCATED_clean.
    + rewrite length_app, length_take. lia.
  - split; [apply stripControl_Forall|lia].
Qed.

Lemma plainCell_empty : plainCell (@VString object []).
Proof. split; [constructor|apply Nat.le_0_l]. Qed.

Lemma sanitizeCell_plain (v : value object) :
  plainCell (sanitizeCell JSON_stringify v).
Proof.
  destruct v as [| |b|x|n|s|id|id|tv|o]; unfold sanitizeCell; cbv beta iota;
    try apply plainCell_empty; try exact I.
  - destruct x; cbv beta iota delta [isNaN plainCell];
      try reflexivity. apply plainCell_empty.
  - apply sanitizeString_plain.
  - destruct (JSON_stringify o);
      [apply sanitizeString_plain|exact I|apply sanitizeString_plain].
Qed.

(** X1. Every grid that [outputToExcel] sanitises is rectangular: one
    row per result object, one cell per header.  No cell of it is [null],
    NaN or an object other than a [Date], and every string in it is free
    of the stripped control characters and no longer than 32000 code
    units plus the truncation suffix.  A cell of it is [undefined]
    exactly where the result holds an object for which [JSON.stringify]
    returns [undefined]. *)
Theorem sanitized_grid_is_plain (headers : list jsstring)
    (objects : list (rowObject object)) :
  length (sanitizeRows JSON_stringify headers objects) = length objects
  /\ Forall (fun row => length row = length headers /\ Forall plainCell row)
       (sanitizeRows JSON_stringify headers objects)
  /\ forall r c obj h,
       objects !! r = Some obj ->
       headers !! c = Some h ->
       exists v,
         sanitizeRows JSON_stringify headers objects !! r
           ≫= (fun row => row !! c) = Some v
         /\ (v = VUndefined
             <-> silent JSON_stringify (getProperty obj h) = true).
Proof.
  unfold sanitizeRows. split; [apply length_map|]. split.
  - apply List.Forall_forall. intros row Hin.
    apply List.in_map_iff in Hin. destruct Hin as (obj & <- & _).
    split; [apply length_map|].
    apply List.Forall_forall. intros cell Hin.
    apply List.in_map_iff in Hin. destruct Hin as (h & <- & _).
    apply sanitizeCell_plain.
  - intros r c obj h Hobj Hh.
    exists (sanitizeCell JSON_stringify (getProperty obj h)). split.
    + change (@List.map) with (@fmap list _).
      rewrite list_lookup_fmap, Hobj. simpl.
      rewrite list_lookup_fmap, Hh. reflexivity.
    + symmetry. apply sanitizeCell_silent.
Qed.
End Cells.

Section Content.
Context {object : Type}.
Variable JSON_stringify : object -> json.
Variable columns : nat.
Variable values : list (list (value object)).

Lemma cellsAssigned_app (t t' : list (commit object)) :
  cellsAssigned (t ++ t') = cellsAssigned t ++ cellsAssigned t'.
Proof. unfold cellsAssigned. now rewrite List.map_app, List.concat_app. Qed.

Lemma placedAt_tail k r rows : placedAt values k (r :: rows) -> placedAt values (S k) rows.
Proof.
  intros H j Hj. specialize (H (S j)). simpl in H.
  replace (S k + j) with (k + S j) by lia. apply H. lia.
Qed.

Lemma placedAt_head k r rows : placedAt values k (r :: rows) -> nth k values [] = r.
Proof.
  intros H. specialize (H 0). simpl in H.
  replace (k + 0) with k in H by lia. apply H. lia.
Qed.

Lemma rowTried_content k r (t : list (commit object)) ds stop :
  rowTried JSON_stringify columns k r t ds stop ->
  nth k values [] = r ->
  cellsAssigned t = List.map (shown values) (List.filter onSheet ds).
Proof.
  intros Hrow Hplaced.
  destruct Hrow; unfold shown; simpl; now rewrite ?Hplaced.
Qed.

Lemma rowsTried_content k rows (t : list (commit object)) ds stop :
  rowsTried JSON_stringify columns k rows t ds stop ->
  placedAt values k rows ->
  cellsAssigned t = List.map (shown values) (List.filter onSheet ds).
Proof.
  induction 1 as [k|k r rest t ds t' ds' stop Hrow _ IH
                 |k r rest t ds message Hrow]; intros Hplaced;
    [reflexivity| |].
  - rewrite cellsAssigned_app, IH by (eapply placedAt_tail; exact Hplaced).
    rewrite (rowTried_content _ _ _ _ _ Hrow (placedAt_head _ _ _ Hplaced)).
    now rewrite List.filter_app, List.map_app.
  - exact (rowTried_content _ _ _ _ _ Hrow (placedAt_head _ _ _ Hplaced)).
Qed.

Lemma batch_cells (batch : list (list (value object))) :
  forall i, placedAt values i batch ->
  combine (seq (S i) (length batch)) batch
  = List.map (fun k => (S k, nth k values [])) (seq i (length batch)).
Proof.
  induction batch as [|r batch IH]; intros i Hplaced; [reflexivity|].
  simpl. rewrite (placedAt_head i r batch Hplaced). f_equal.
  apply IH. eapply placedAt_tail. exact Hplaced.
Qed.

Lemma batchTried_content before i batch (t : list (commit object)) ds stop :
  batchTried JSON_stringify columns before i batch t ds stop ->
  placedAt values i batch ->
  cellsAssigned t
  = carriedCells before t
    ++ List.map (shown values) (List.filter onSheet ds).
Proof.
  destruct 1 as [|e t ds stop Hrows]; intros Hplaced.
  - unfold cellsAssigned, carriedCells. simpl.
    rewrite List.map_app, List.concat_app, app_nil_r. simpl.
    rewrite app_nil_r. f_equal.
    rewrite (batch_cells batch i Hplaced).
    clear Hplaced. generalize (seq i (length batch)). intros l.
    induction l as [|k l IH]; [reflexivity|]. simpl. now rewrite IH.
  - change (cellsAssigned ((before ++ [batchRequest columns i batch], Some e) :: t))
      with (cellsAssigned t).
    simpl. apply (rowsTried_content i batch _ _ stop); assumption.
Qed.

Lemma batchTried_first before i batch (t : list (commit object)) ds stop :
  batchTried JSON_stringify columns before i batch t ds stop ->
  exists answer rest,
    t = (before ++ [batchRequest columns i batch], answer) :: rest.
Proof. destruct 1; eexists _, _; reflexivity. Qed.

Lemma placedAt_take i rows :
  placedAt values i rows -> placedAt values i (take batchSize rows).
Proof.
  intros H j Hj. rewrite length_take in Hj.
  rewrite H by lia. rewrite !nth_lookup, lookup_take_lt by lia. reflexivity.
Qed.

Lemma placedAt_drop i rows :
  placedAt values i rows ->
  placedAt values (i + batchSize) (drop batchSize rows).
Proof.
  intros H j Hj. rewrite length_drop in Hj.
  replace (i + batchSize + j) with (i + (batchSize + j)) by lia.
  rewrite H by lia. rewrite !nth_lookup, lookup_drop. reflexivity.
Qed.

Lemma batchesTried_content before i rows (t : list (commit object)) ds stop :
  batchesTried JSON_stringify columns before i rows t ds stop ->
  placedAt values i rows ->
  cellsAssigned t
  = carriedCells before t
    ++ List.map (shown values) (List.filter onSheet ds).
Proof.
  induction 1 as [before i
                 |before i rows t ds t' ds' stop Hne Hbatch Hrest IH
                 |before i rows t ds message Hne Hbatch];
    intros Hplaced; [reflexivity| |].
  - destruct (batchTried_first _ _ _ _ _ _ Hbatch) as (answer & rest & Ht).
    rewrite cellsAssigned_app.
    rewrite (batchTried_content _ _ _ _ _ _ Hbatch)
      by now apply placedAt_take.
    rewrite IH by now apply placedAt_drop.
    rewrite List.filter_app, List.map_app.
    assert (Hnone : carriedCells [] t' = [])
      by (destruct t' as [|[reqs' [e|]] t'']; reflexivity).
    rewrite Hnone. subst t. simpl. now rewrite <- app_assoc.
  - apply (batchTried_content _ _ _ _ _ _ Hbatch). now apply placedAt_take.
Qed.

(** A row recorded as marked or skipped has its own refused commit in
    the log, followed by the commit of the placeholder. *)
Lemma rowsRetried_evidence k rows (t : list (commit object)) ds :
  rowsRetried columns k rows t ds ->
  placedAt values k rows ->
  forall k' d, In (k', d) ds -> d <> Written ->
  exists t1 trace t2,
    t = t1 ++ trace ++ t2
    /\ rowRetried columns k' (nth k' values []) trace d.
Proof.
  induction 1 as [k|k r rest t d t' ds Hrow _ IH]; intros Hplaced k' d' Hin Hd;
    [destruct Hin|].
  destruct Hin as [Heq|Hin].
  - injection Heq as <- <-. exists [], t, t'. split; [reflexivity|].
    now rewrite (placedAt_head _ _ _ Hplaced).
  - destruct (IH (placedAt_tail _ _ _ Hplaced) k' d' Hin Hd)
      as (t1 & trace & t2 & -> & Htrace).
    exists (t ++ t1), trace, t2. split; [now rewrite <- app_assoc|exact Htrace].
Qed.

Lemma batchesWritten_evidence before i rows (t : list (commit object)) ds :
  batchesWritten columns before i rows t ds ->
  placedAt values i rows ->
  forall k d, In (k, d) ds -> d <> Written ->
  exists t1 trace t2,
    t = t1 ++ trace ++ t2
    /\ rowRetried columns k (nth k values []) trace d.
Proof.
  induction 1 as [before i|before i rows t ds t' ds' Hne Hbatch Hrest IH];
    intros Hplaced k d Hin Hd; [destruct Hin|].
  apply List.in_app_or in Hin. destruct Hin as [Hin|Hin].
  - destruct Hbatch as [|e t ds Hrows].
    + apply List.in_map_iff in Hin. destruct Hin as (j & Heq & _).
      injection Heq as _ <-. congruence.
    + destruct (rowsRetried_evidence _ _ _ _ Hrows
                  (placedAt_take _ _ Hplaced) k d Hin Hd)
        as (t1 & trace & t2 & -> & Htrace).
      eexists (_ :: t1), trace, (t2 ++ t'). split; [|exact Htrace].
      simpl. now rewrite <- !app_assoc.
  - destruct (IH (placedAt_drop _ _ Hplaced) k d Hin Hd)
      as (t1 & trace & t2 & -> & Htrace).
    exists (t ++ t1), trace, t2. split; [now rewrite <- app_assoc|exact Htrace].
Qed.
End Content.

Section Loop.
Context {object : Type}.
Variable JSON_stringify : object -> json.
Variable host : answers.
Variable columns : nat.
Variable values : list (list (value object)).

Lemma placedAt_all : placedAt values 0 values.
Proof. intros j _. reflexivity. Qed.

(** X5. Whatever the host answers, the cells that reach the sheet
    through the write loop are, in order, row [k] of the values at sheet
    row [k + 1], or the placeholder [ERROR_WRITING_ROW] alone at that row
    for a row that failed on its own; a skipped row leaves nothing.  (The
    first part, [carriedCells], is what was already queued before the
    loop.) *)
Theorem sheet_rows_hold_own_cells_or_placeholder (c : context object) :
  exists t ds,
    commits (snd (writeData JSON_stringify host columns values c))
    = commits c ++ t
    /\ rowsDone (snd (writeData JSON_stringify host columns values c))
       = rowsDone c ++ ds
    /\ cellsAssigned t
       = carriedCells (pending c) t
         ++ List.map (shown values) (List.filter onSheet ds).
Proof.
  destruct (writeData_tried JSON_stringify host columns values c)
    as (t & ds & stop & Hrun & Htried).
  exists t, ds. rewrite Hrun. simpl. split; [reflexivity|].
  split; [reflexivity|].
  exact (batchesTried_content JSON_stringify columns values _ 0 values
           _ _ _ Htried placedAt_all).
Qed.

(** X23. When no cell is a big integer (nor an object whose
    serialization throws), every row of the result is accounted for,
    whatever the host answers.  The loop returns; the rows dealt with are
    the indices [0 .. n-1], each once; the rows written, marked and
    skipped add up to [n].  The record agrees with what was sent: the
    commits the host accepted assign sheet row [k + 1] exactly for the
    rows written or marked, with the row's own cells or the placeholder,
    each once, and every row marked or skipped has in the log its own
    refused commit, followed by the commit of the placeholder, accepted
    or refused. *)
Theorem every_row_accounted_for (c : context object) :
  loggable JSON_stringify values = true ->
  exists t ds,
    writeData JSON_stringify host columns values c
    = (Returns tt,
       {| pending := match values with [] => pending c | _ => [] end;
          commits := commits c ++ t;
          rowsDone := rowsDone c ++ ds |})
    /\ List.map fst ds = seq 0 (length values)
    /\ tally Written ds + tally Marked ds + tally Skipped ds = length values
    /\ cellsAssigned t
       = carriedCells (pending c) t
         ++ List.map (shown values) (List.filter onSheet ds)
    /\ NoDup (List.map S (List.map fst (List.filter onSheet ds)))
    /\ forall k d, In (k, d) ds -> d <> Written ->
       exists t1 trace t2,
         t = t1 ++ trace ++ t2
         /\ rowRetried columns k (nth k values []) trace d.
Proof.
  intros Hlog.
  destruct (writeData_tried JSON_stringify host columns values c)
    as (t & ds & stop & Hrun & Htried).
  destruct (batchesTried_policy _ _ _ _ _ _ _ _ Hlog Htried) as [-> Hpol].
  pose proof (batchesWritten_account _ _ _ _ _ _ Hpol) as [Hfst _].
  exists t, ds. split; [exact Hrun|]. split; [exact Hfst|].
  split.
  { rewrite tally_total, <- (length_map fst ds), Hfst. apply length_seq. }
  split.
  { exact (batchesTried_content JSON_stringify columns values _ 0 values
             _ _ _ Htried placedAt_all). }
  split.
  { apply onSheet_NoDup. rewrite Hfst. apply NoDup_seq. }
  exact (batchesWritten_evidence columns values _ 0 values _ _ Hpol
           placedAt_all).
Qed.
End Loop.

Section RoundTrips.
Context {object : Type}.
Variable JSON_stringify : object -> json.
Variable columns : nat.

Lemma batchCount_empty : batchCount 0 = 0.
Proof. reflexivity. Qed.

Lemma batchCount_step (n : nat) :
  0 < n -> batchCount n = S (batchCount (n - batchSize)).
Proof.
  intros Hn. unfold batchCount, batchSize.
  change (500 - 1) with 499.
  destruct (Nat.le_gt_cases n 500) as [Hle|Hgt].
  - replace (n - 500) with 0 by lia.
    replace (n + 499) with ((n - 1) + 1 * 500) by lia.
    rewrite Nat.div_add by lia. rewrite Nat.div_small by lia.
    rewrite (Nat.div_small (0 + 499)) by lia. reflexivity.
  - replace (n + 499) with ((n - 500 + 499) + 1 * 500) by lia.
    rewrite Nat.div_add by lia. lia.
Qed.

Lemma rowsTried_length k rows (t : list (commit object)) ds stop :
  rowsTried JSON_stringify columns k rows t ds stop ->
  length t <= 2 * length rows.
Proof.
  induction 1 as [k|k r rest t ds t' ds' stop Hrow _ IH
                 |k r rest t ds message Hrow]; simpl; [lia| |].
  - rewrite length_app. destruct Hrow; simpl; lia.
  - destruct Hrow; simpl; lia.
Qed.

Lemma batchTried_length before i batch (t : list (commit object)) ds stop :
  batchTried JSON_stringify columns before i batch t ds stop ->
  1 <= length t <= 1 + 2 * length batch.
Proof.
  destruct 1 as [|e t ds stop Hrows]; simpl; [lia|].
  apply rowsTried_length in Hrows. lia.
Qed.

Lemma batchesTried_length before i rows (t : list (commit object)) ds stop :
  batchesTried JSON_stringify columns before i rows t ds stop ->
  length t <= batchCount (length rows) + 2 * length rows
  /\ (stop = None -> batchCount (length rows) <= length t).
Proof.
  induction 1 as [before i
                 |before i rows t ds t' ds' stop Hne Hbatch Hrest IH
                 |before i rows t ds message Hne Hbatch].
  - simpl. rewrite batchCount_empty. split; lia.
  - assert (Hpos : 0 < length rows) by (destruct rows; [congruence|simpl; lia]).
    rewrite (batchCount_step (length rows) Hpos).
    rewrite length_drop in IH. rewrite length_app.
    apply batchTried_length in Hbatch. rewrite length_take in Hbatch.
    destruct IH as [IHup IHlow]. split; [lia|].
    intros Hstop. specialize (IHlow Hstop). lia.
  - assert (Hpos : 0 < length rows) by (destruct rows; [congruence|simpl; lia]).
    rewrite (batchCount_step (length rows) Hpos).
    apply batchTried_length in Hbatch. rewrite length_take in Hbatch.
    split; [lia|discriminate].
Qed.

(** When the host accepts every commit there is one commit per batch and
    every row ends as written. *)
Lemma batchesTried_accepted before i rows (t : list (commit object)) ds stop :
  batchesTried JSON_stringify columns before i rows t ds stop ->
  Forall (fun cm => snd cm = None) t ->
  stop = None
  /\ length t = batchCount (length rows)
  /\ ds = List.map (fun k => (k, Written)) (seq i (length rows)).
Proof.
  induction 1 as [before i
                 |before i rows t ds t' ds' stop Hne Hbatch Hrest IH
                 |before i rows t ds message Hne Hbatch];
    intros Hall.
  - repeat split.
  - apply Forall_app in Hall. destruct Hall as [Ht Ht'].
    destruct (IH Ht') as (-> & IHlen & IHds). clear IH.
    assert (Hpos : 0 < length rows) by (destruct rows; [congruence|simpl; lia]).
    rewrite (batchCount_step (length rows) Hpos).
    rewrite length_drop in IHlen, IHds. rewrite length_app, IHlen.
    inversion Hbatch as [Ht0 Hds0|e t0 ds0 stop0 Hrows Ht0 Hds0 Hstop0].
    + subst. split; [reflexivity|]. split; [reflexivity|].
      rewrite <- List.map_app. f_equal.
      rewrite length_take.
      destruct (Nat.le_gt_cases (length rows) batchSize) as [Hshort|Hlong].
      * rewrite Nat.min_r by lia.
        replace (length rows - batchSize) with 0 by lia. simpl.
        now rewrite app_nil_r.
      * rewrite Nat.min_l by lia. rewrite <- List.seq_app. f_equal. lia.
    + subst. apply Forall_cons in Ht. destruct Ht as [Hrefused _].
      discriminate.
  - inversion Hbatch as [|e t0 ds0 stop0 Hrows Ht0 Hds0 Hstop0]. subst.
    apply Forall_cons in Hall. destruct Hall as [Hrefused _]. discriminate.
Qed.
End RoundTrips.

Section Counts.
Context {object : Type}.
Variable JSON_stringify : object -> json.
Variable host : answers.
Variable columns : nat.
Variable values : list (list (value object)).

(** X6. Whatever the host answers, the write loop makes at most one
    commit per batch of 500 rows plus two per row; and when it comes to
    its end it has made at least one commit per batch. *)
Theorem commits_are_bounded (c : context object) :
  exists t,
    commits (snd (writeData JSON_stringify host columns values c))
    = commits c ++ t
    /\ length t <= batchCount (length values) + 2 * length values
    /\ (fst (writeData JSON_stringify host columns values c) = Returns tt ->
        batchCount (length values) <= length t).
Proof.
  destruct (writeData_tried JSON_stringify host columns values c)
    as (t & ds & stop & Hrun & Htried).
  exists t. rewrite Hrun. split; [reflexivity|].
  destruct (batchesTried_length JSON_stringify columns _ _ _ _ _ _ Htried)
    as [Hup Hlow].
  split; [exact Hup|]. simpl. intros Hreturns. apply Hlow.
  destruct stop; [discriminate Hreturns|reflexivity].
Qed.

(** X4. On a host that accepts every commit, the write loop returns
    normally, leaves nothing queued, commits exactly once per batch of
    500 rows, records every row as written, and the sheet receives row
    [k] of the values at sheet row [k + 1], in order. *)
Theorem accepted_batches_need_no_retry (c : context object) :
  (forall k, host k = None) ->
  exists t,
    writeData JSON_stringify host columns values c
    = (Returns tt,
       {| pending := match values with [] => pending c | _ => [] end;
          commits := commits c ++ t;
          rowsDone := rowsDone c
                      ++ List.map (fun k => (k, Written))
                           (seq 0 (length values)) |})
    /\ length t = batchCount (length values)
    /\ cellsAssigned t
       = carriedCells (pending c) t
         ++ combine (seq 1 (length values)) values.
Proof.
  intros Hwilling.
  destruct (writeData_tried JSON_stringify host columns values c)
    as (t & ds & stop & Hrun & Htried).
  destruct (obeys_writeData JSON_stringify host columns values c)
    as (t' & Hc & Ht').
  rewrite Hrun in Hc. simpl in Hc. apply app_inv_head in Hc. subst t'.
  assert (Hall : Forall (fun cm : commit object => snd cm = None) t).
  { apply List.Forall_forall. intros cm Hin.
    assert (Hin' : In (snd cm) (List.map snd t)) by now apply List.in_map.
    rewrite Ht' in Hin'. apply List.in_map_iff in Hin'.
    destruct Hin' as (k & <- & _). apply Hwilling. }
  destruct (batchesTried_accepted JSON_stringify columns _ _ _ _ _ _
              Htried Hall) as (-> & Hlen & Hds).
  exists t. subst ds. split; [exact Hrun|]. split; [exact Hlen|].
  rewrite (batchesTried_content JSON_stringify columns values _ 0 values
             _ _ _ Htried (placedAt_all values)).
  f_equal. rewrite (batch_cells values values 0) by apply placedAt_all.
  generalize (seq 0 (length values)). intros l.
  induction l as [|k l IH]; [reflexivity|]. simpl. now rewrite IH.
Qed.
End Counts.

Section Guards.
Context {object : Type}.
Variable JSON_stringify : object -> json.

Lemma error_is_not_success (text name : jsstring) :
  lit "Error: " ++ text <> successMessage name.
Proof. intros H. vm_compute in H. discriminate H. Qed.

(** X3. [outputToExcel] starts the [Excel.run] that writes the output
    table exactly when the table name passed the checks and the query
    returned a table of between one and a million rows: after any other
    click nothing is written to the workbook. *)
Theorem write_run_starts_exactly_for_exports (w : world object) :
  excelRun (outputToExcel JSON_stringify w) <> None
  <-> exists objects, exports w objects.
Proof.
  split.
  - intros Hrun. unfold outputToExcel in Hrun.
    destruct (bool_decide (outputTableNameInput w = [])) eqn:Hname;
      [now destruct Hrun|].
    apply bool_decide_eq_false in Hname.
    destruct (validTableName (outputTableNameInput w)) eqn:Hvalid;
      [|now destruct Hrun].
    simpl in Hrun.
    destruct (runQuery w (functionBody (defaultCode (queryCode w))))
      as [e| |objects] eqn:Hquery; try now destruct Hrun.
    destruct (N.ltb_spec ROW_LIMIT (numRows objects)) as [Hover|Hwithin];
      [now destruct Hrun|].
    destruct objects as [|o0 rest]; [now destruct Hrun|].
    exists (o0 :: rest). repeat split; try assumption. discriminate.
  - intros (objects & Hq & Hwithin & Hne).
    rewrite (outputToExcel_queried JSON_stringify w objects Hq).
    destruct (N.ltb_spec ROW_LIMIT (numRows objects)) as [Hover|_]; [lia|].
    destruct objects as [|o0 rest]; [congruence|].
    destruct (writeTable _ _ _ _ _) as [[u|e] run]; discriminate.
Qed.

Lemma outputToExcel_outcomes (w : world object) :
  let o := outputToExcel JSON_stringify w in
  let name := outputTableNameInput w in
  (messageArea o = successMessage name
   /\ settingsBag o = <[name := defaultCode (queryCode w)]> (settings w)
   /\ exists objects run,
        exports w objects
        /\ excelRun o = Some run
        /\ writeTable JSON_stringify (host w) name (headersOf objects)
             (valuesOf JSON_stringify objects) emptyContext
           = (Returns tt, run))
  \/ (messageArea o <> successMessage name
      /\ settingsBag o = settings w
      /\ settingsSaved o = settings w).
Proof.
  intros o name. subst o name. unfold outputToExcel.
  destruct (bool_decide (outputTableNameInput w = [])) eqn:Hname.
  { right. split; [|split; reflexivity]. simpl. intros H.
    vm_compute in H. discriminate H. }
  apply bool_decide_eq_false in Hname.
  destruct (validTableName (outputTableNameInput w)) eqn:Hvalid; simpl.
  2:{ right. split; [|split; reflexivity]. apply error_is_not_success. }
  destruct (runQuery w (functionBody (defaultCode (queryCode w))))
    as [e| |objects] eqn:Hquery.
  - right. split; [|split; reflexivity]. apply error_is_not_success.
  - right. split; [|split; reflexivity]. apply error_is_not_success.
  - destruct (N.ltb_spec ROW_LIMIT (numRows objects)) as [Hover|Hwithin].
    { right. split; [|split; reflexivity]. apply error_is_not_success. }
    destruct objects as [|o0 rest].
    { right. split; [|split; reflexivity]. simpl. intros H.
      vm_compute in H. discriminate H. }
    destruct (writeTable _ _ _ _ _) as [[[]|e] run] eqn:Hwrite.
    + left. split; [reflexivity|]. split; [reflexivity|].
      exists (o0 :: rest), run. split; [|split; [reflexivity|exact Hwrite]].
      repeat split; try assumption. discriminate.
    + right. split; [|split; reflexivity]. apply error_is_not_success.
Qed.

(** X2. A click on the export button ends in one of two ways.  Either
    the message area shows the success text, the settings hold the code
    under the table name, and the table was written without an uncaught
    error; or the message is not the success text and the settings, in
    memory and in the document, are untouched. *)
Theorem settings_change_only_with_success (w : world object) :
  let o := outputToExcel JSON_stringify w in
  let name := outputTableNameInput w in
  (messageArea o = successMessage name
   /\ settingsBag o = <[name := defaultCode (queryCode w)]> (settings w)
   /\ exists objects run,
        exports w objects
        /\ excelRun o = Some run
        /\ writeTable JSON_stringify (host w) name (headersOf objects)
             (valuesOf JSON_stringify objects) emptyContext
           = (Returns tt, run))
  \/ (messageArea o <> successMessage name
      /\ settingsBag o = settings w
      /\ settingsSaved o = settings w).
Proof. apply outputToExcel_outcomes. Qed.
End Guards.

Import Examples.

(** X4, witness: the two rows of the summary on a host that accepts
    everything. *)
Lemma accepted_batches_need_no_retry_witness :
  exists t,
    writeData stringifyBoolArray (fun _ => None) 2
      (valuesOf stringifyBoolArray summary) emptyContext
    = (Returns tt,
       {| pending := [];
          commits := t;
          rowsDone := [(0, Written); (1, Written)] |})
    /\ length t = 1
    /\ cellsAssigned t
       = carriedCells [] t
         ++ combine (seq 1 2) (valuesOf stringifyBoolArray summary).
Proof.
  apply (accepted_batches_need_no_retry stringifyBoolArray (fun _ => None) 2
           (valuesOf stringifyBoolArray summary) emptyContext).
  reflexivity.
Defined.

(** X23, witness: the two rows of the summary on a host that refuses
    every commit: both rows are skipped, and each has its two refused
    commits in the log. *)
Lemma every_row_accounted_for_witness :
  exists t ds,
    writeData stringifyBoolArray refusingHost 2
      (valuesOf stringifyBoolArray summary) emptyContext
    = (Returns tt, {| pending := []; commits := t; rowsDone := ds |})
    /\ List.map fst ds = [0; 1]
    /\ tally Written ds + tally Marked ds + tally Skipped ds = 2
    /\ cellsAssigned t
       = carriedCells [] t
         ++ List.map (shown (valuesOf stringifyBoolArray summary))
              (List.filter onSheet ds)
    /\ NoDup (List.map S (List.map fst (List.filter onSheet ds)))
    /\ forall k d, In (k, d) ds -> d <> Written ->
       exists t1 trace t2,
         t = t1 ++ trace ++ t2
         /\ rowRetried 2 k (nth k (valuesOf stringifyBoolArray summary) [])
              trace d.
Proof.
  apply (every_row_accounted_for stringifyBoolArray refusingHost 2
           (valuesOf stringifyBoolArray summary) emptyContext).
  reflexivity.
Defined.
End SheetFacts.

Module VegaSessionFacts.
Import Vega VegaSessions VegaFacts.

Section Facts.
Context {rows other : Type}.
Variable JSON_parse : jsstring -> option (spec rows other).

Lemma runVegaPreview_keeps_handler tableName specStr ans
    (st : state rows other) h :
  vegaAutoUpdateHandler st = Some h ->
  vegaAutoUpdateHandler (runVegaPreview JSON_parse tableName specStr ans st)
  = Some h
  /\ subscriptions (runVegaPreview JSON_parse tableName specStr ans st)
     = subscriptions st.
Proof.
  intros Hh. unfold runVegaPreview.
  destruct tableName as [|c tableName]; [now split|].
  destruct (JSON_parse specStr) as [chart|]; [|now split].
  unfold renderVegaChart.
  destruct (returns (rendered ans) (Some chart)); [|now split].
  unfold setupVegaAutoUpdate.
  cbn [vegaAutoUpdateHandler vegaCurrentTableName vegaCurrentSpec
       subscriptions created renders fst snd].
  rewrite Hh. rewrite bool_decide_eq_true_2 by reflexivity.
  cbn [negb vegaAutoUpdateHandler subscriptions snd]. now split.
Qed.

(** X7. While the chart editor stays open, the change handler that is
    stored is never replaced and no subscription is added or removed:
    a preview of another table keeps listening to the first table. *)
Theorem stored_handler_outlives_previews actions (st : state rows other) h :
  forallb keepsOpen actions = true ->
  vegaAutoUpdateHandler st = Some h ->
  vegaAutoUpdateHandler (fold_left (step JSON_parse) actions st) = Some h
  /\ subscriptions (fold_left (step JSON_parse) actions st)
     = subscriptions st.
Proof.
  revert st. induction actions as [|a actions IH]; intros st Hopen Hh;
    [now split|].
  simpl in Hopen. apply andb_true_iff in Hopen. destruct Hopen as [Ha Hopen].
  simpl fold_left.
  assert (Hstep : vegaAutoUpdateHandler (step JSON_parse st a) = Some h
                  /\ subscriptions (step JSON_parse st a) = subscriptions st).
  { destruct a as [tableName specStr ans|removed|table how]; simpl.
    - now apply runVegaPreview_keeps_handler.
    - discriminate Ha.
    - unfold tableChanged.
      destruct (callbacks_only_render how table (subscriptions st) st)
        as (H1 & _ & _ & H4 & _).
      rewrite H1, H4. now split. }
  destruct Hstep as [Hh' Hsubs'].
  destruct (IH (step JSON_parse st a) Hopen Hh') as [IHh IHsubs].
  split; [exact IHh|]. now rewrite IHsubs.
Qed.

(** X8. A table change leaves the stored handler, the stored table name
    and the subscriptions as they are, and the renderer is called once
    per subscription on the table that changed.  The stored
    specification is the same object afterwards, changed only by what
    those calls do to it: each call that reads the table deletes its
    [$schema] and puts the rows into its [data] when that is absent or
    named [table]. *)
Theorem table_change_keeps_session table how (st : state rows other) :
  let calls := length (watching table (subscriptions st)) in
  vegaAutoUpdateHandler (tableChanged table how st) = vegaAutoUpdateHandler st
  /\ vegaCurrentTableName (tableChanged table how st) = vegaCurrentTableName st
  /\ subscriptions (tableChanged table how st) = subscriptions st
  /\ vegaCurrentSpec (tableChanged table how st)
     = Nat.iter calls (changed how) <$> vegaCurrentSpec st
  /\ length (renders (tableChanged table how st))
     = length (renders st) + calls.
Proof.
  unfold tableChanged, watching.
  destruct (callbacks_only_render how table (subscriptions st) st)
    as (H1 & H2 & H3 & H4 & _ & H6).
  repeat split; try assumption.
  rewrite H6, length_app, length_map, length_seq. reflexivity.
Qed.

(** X9. When the host refused no removal, closing the editor silences
    the session: a later change of any table renders nothing. *)
Theorem no_render_after_closing actions table how :
  forallb removalsCommitted actions = true ->
  renders (tableChanged table how
             (closeVegaEditor true (session JSON_parse actions)))
  = renders (session JSON_parse actions).
Proof.
  intros Hall. pose proof (session_tidy JSON_parse actions Hall) as Htidy.
  destruct (closeVegaEditor_cleans (session JSON_parse actions) Htidy)
    as (Hsubs & _ & _).
  unfold tableChanged. rewrite Hsubs. simpl.
  unfold closeVegaEditor.
  destruct (vegaAutoUpdateHandler (session JSON_parse actions)); reflexivity.
Qed.
End Facts.

Import VegaExamples.

(** X7, witness: after a preview of [Sales], a preview of [Costs] and a
    change of [Costs]. *)
Lemma stored_handler_outlives_previews_witness :
  let st := session parseChart [RunVegaPreview Sales barChart allGood] in
  let h := {| handlerId := 0; source := Sales |} in
  vegaAutoUpdateHandler
    (fold_left (step parseChart)
       [RunVegaPreview Costs layers allGood; TableChanged Costs drawn] st)
  = Some h
  /\ subscriptions
       (fold_left (step parseChart)
          [RunVegaPreview Costs layers allGood; TableChanged Costs drawn] st)
     = subscriptions st.
Proof.
  apply (stored_handler_outlives_previews parseChart
           [RunVegaPreview Costs layers allGood; TableChanged Costs drawn]
           (session parseChart [RunVegaPreview Sales barChart allGood])
           {| handlerId := 0; source := Sales |});
    reflexivity.
Defined.

(** X9, witness: one preview of [Sales], then the editor is closed. *)
Lemma no_render_after_closing_witness :
  renders (tableChanged Sales drawn
             (closeVegaEditor true
                (session parseChart [RunVegaPreview Sales barChart allGood])))
  = renders (session parseChart [RunVegaPreview Sales barChart allGood]).
Proof.
  apply (no_render_after_closing parseChart
           [RunVegaPreview Sales barChart allGood] Sales drawn).
  reflexivity.
Defined.

(** After a preview whose table could not be read, the stored chart is
    as it was parsed; the first change of the table that reads it puts
    the rows into the stored chart. *)
Lemma change_after_failed_read_alters_stored_chart :
  let st := session parseChart
              [RunVegaPreview Sales barChart allGood;
               RunVegaPreview Sales layers renderFails] in
  vegaCurrentSpec st = Some (chartOf layers)
  /\ vegaCurrentSpec (tableChanged Sales drawn st)
     = Some (changed drawn (chartOf layers))
  /\ changed drawn (chartOf layers) <> chartOf layers.
Proof. vm_compute. repeat split. discriminate. Qed.
End VegaSessionFacts.

Module BridgeFacts.
Import Bridge.

Section Facts.
Variable rows : list (list scalar).

Lemma assign_other {A} (obj : gmap jsstring A) (key h : jsstring) (v : A) :
  key <> h -> assign obj key v !! h = obj !! h.
Proof.
  intros Hne. unfold assign. destruct (bool_decide (key = PROTO));
    [reflexivity|now apply lookup_insert_ne].
Qed.

Lemma assign_same {A} (obj : gmap jsstring A) (h : jsstring) (v : A) :
  h <> PROTO -> assign obj h v !! h = Some v.
Proof.
  intros Hne. unfold assign. rewrite bool_decide_eq_false_2 by exact Hne.
  apply lookup_insert_eq.
Qed.

Lemma assign_proto {A} (obj : gmap jsstring A) (key : jsstring) (v : A) :
  assign obj key v !! PROTO = obj !! PROTO.
Proof.
  unfold assign. destruct (bool_decide (key = PROTO)) eqn:Hkey;
    [reflexivity|].
  apply bool_decide_eq_false in Hkey. now apply lookup_insert_ne.
Qed.

Lemma assign_dom {A} (obj : gmap jsstring A) (key : jsstring) (v : A) :
  dom (assign obj key v) = dom obj ∪ ({[key]} ∖ {[PROTO]}).
Proof.
  unfold assign. apply set_eq. intros h.
  destruct (bool_decide (key = PROTO)) eqn:Hkey.
  - apply bool_decide_eq_true in Hkey. subst key.
    rewrite elem_of_union, elem_of_difference, !elem_of_singleton. tauto.
  - apply bool_decide_eq_false in Hkey.
    rewrite dom_insert, !elem_of_union, elem_of_difference,
      !elem_of_singleton.
    split; [intros [->|H]; [right; split; [reflexivity|exact Hkey]|now left]
           |intros [H|[-> _]]; [now right|now left]].
Qed.

Lemma fillColumns_other (headers : list jsstring) (h : jsstring) :
  forall k acc, h ∉ headers ->
  fillColumns rows headers k acc !! h = acc !! h.
Proof.
  induction headers as [|hd rest IH]; intros k acc Hnot; [reflexivity|].
  apply not_elem_of_cons in Hnot. destruct Hnot as [Hne Hnot].
  simpl. rewrite IH by exact Hnot. apply assign_other. congruence.
Qed.

Lemma fillColumns_last (headers : list jsstring) (h : jsstring) :
  h <> PROTO ->
  forall i k acc,
  headers !! i = Some h ->
  (forall j, i < j -> headers !! j <> Some h) ->
  fillColumns rows headers k acc !! h = Some (columnAt (k + i) rows).
Proof.
  intros Hproto.
  induction headers as [|hd rest IH]; intros i k acc Hi Hlast;
    [discriminate|].
  destruct i as [|i]; simpl in Hi |- *.
  - injection Hi as ->. rewrite fillColumns_other.
    + rewrite assign_same by exact Hproto. do 2 f_equal. lia.
    + intros Hin. apply list_elem_of_lookup in Hin. destruct Hin as [j Hj].
      apply (Hlast (S j)); [lia|exact Hj].
  - rewrite (IH i (S k)); [do 2 f_equal; lia|exact Hi|].
    intros j Hj. apply (Hlast (S j)). lia.
Qed.

Lemma fillColumns_dom (headers : list jsstring) :
  forall k acc,
  dom (fillColumns rows headers k acc)
  = dom acc ∪ (list_to_set headers ∖ {[PROTO]}).
Proof.
  induction headers as [|hd rest IH]; intros k acc; simpl;
    apply set_eq; intros h.
  - rewrite elem_of_union, elem_of_difference, elem_of_empty. tauto.
  - rewrite IH, assign_dom, !elem_of_union, !elem_of_difference,
      elem_of_union, !elem_of_singleton.
    tauto.
Qed.

Lemma fillColumns_lengths (headers : list jsstring) :
  forall k acc,
  map_Forall (fun _ col => length col = length rows) acc ->
  map_Forall (fun _ col => length col = length rows)
    (fillColumns rows headers k acc).
Proof.
  induction headers as [|hd rest IH]; intros k acc Hacc; [exact Hacc|].
  simpl. apply IH. unfold assign.
  destruct (bool_decide (hd = PROTO)); [exact Hacc|].
  apply map_Forall_insert_2; [|exact Hacc].
  unfold columnAt. apply length_map.
Qed.

(** X10. The column that [getArqueroTableFromExcel] builds under a
    header other than [__proto__] holds, row by row, the cells at the
    position of the LAST header of that name ([undefined] where the row
    is too short). *)
Theorem column_holds_cells_of_last_header (headers : list jsstring)
    (h : jsstring) (i : nat) :
  h <> PROTO ->
  headers !! i = Some h ->
  (forall j, i < j -> headers !! j <> Some h) ->
  columnData headers rows !! h
  = Some (List.map (fun row => row !! i) rows).
Proof.
  intros Hproto Hi Hlast. unfold columnData.
  now rewrite (fillColumns_last headers h Hproto i 0 ∅ Hi Hlast).
Qed.

(** X11. The columns that [getArqueroTableFromExcel] builds are keyed
    exactly by the header names other than [__proto__], for which the
    object gets no property of its own, and every column has one entry
    per data row. *)
Theorem columns_are_the_headers (headers : list jsstring) :
  dom (columnData headers rows) = list_to_set headers ∖ {[PROTO]}
  /\ map_Forall (fun _ col => length col = length rows)
       (columnData headers rows).
Proof.
  unfold columnData. split.
  - now rewrite fillColumns_dom, dom_empty_L, (left_id_L ∅ (∪)).
  - apply fillColumns_lengths. apply map_Forall_empty.
Qed.

Lemma fill_agree (headers : list jsstring) (h : jsstring) (r : nat)
    (row : list scalar) :
  rows !! r = Some row ->
  forall k (acc : gmap jsstring (list element))
         (obj : gmap jsstring element),
  acc !! h ≫= (fun col => col !! r) = obj !! h ->
  fillColumns rows headers k acc !! h ≫= (fun col => col !! r)
  = fillObject row headers k obj !! h.
Proof.
  intros Hrow. induction headers as [|hd rest IH]; intros k acc obj Hacc;
    [exact Hacc|].
  simpl. apply IH. unfold assign.
  destruct (bool_decide (hd = PROTO)); [exact Hacc|].
  destruct (decide (hd = h)) as [->|Hne].
  - rewrite !lookup_insert_eq. simpl. unfold columnAt.
    change (List.map ?f rows) with (f <$> rows).
    now rewrite list_lookup_fmap, Hrow.
  - rewrite !lookup_insert_ne by exact Hne. exact Hacc.
Qed.

(** X12. The columnar reading of a table (the present code) and the
    row-object reading (the earlier version) agree on every cell: entry
    [r] of column [h] is property [h] of object [r]. *)
Theorem columns_agree_with_row_objects (headers : list jsstring)
    (h : jsstring) (r : nat) :
  columnData headers rows !! h ≫= (fun col => col !! r)
  = rowData headers rows !! r ≫= (fun obj => obj !! h).
Proof.
  unfold rowData. change (List.map ?f rows) with (f <$> rows).
  rewrite list_lookup_fmap.
  destruct (rows !! r) as [row|] eqn:Hrow; simpl.
  - apply (fill_agree headers h r row Hrow). now rewrite !lookup_empty.
  - destruct (columnData headers rows !! h) as [col|] eqn:Hcol;
      [|reflexivity]. simpl.
    apply lookup_ge_None.
    pose proof (fillColumns_lengths headers 0 ∅ (map_Forall_empty _))
      as Hlen.
    rewrite (Hlen h col Hcol). now apply lookup_ge_None.
Qed.
End Facts.

(** X10, witness: two columns called [Amount]; the second one is the
    column of the table. *)
Lemma column_holds_cells_of_last_header_witness :
  columnData [lit "Amount"; lit "Category"; lit "Amount"]
    [[SString (lit "a"); SString (lit "b"); SString (lit "c")];
     [SString (lit "d"); SString (lit "e")]]
  !! lit "Amount"
  = Some [Some (SString (lit "c")); None].
Proof.
  apply (column_holds_cells_of_last_header
           [[SString (lit "a"); SString (lit "b"); SString (lit "c")];
            [SString (lit "d"); SString (lit "e")]]
           [lit "Amount"; lit "Category"; lit "Amount"] (lit "Amount") 2).
  - discriminate.
  - reflexivity.
  - intros [|[|[|j]]] Hj; try lia; discriminate.
Defined.

(** A column headed [__proto__] is not a column of the table read. *)
Lemma proto_header_gives_no_column :
  columnData [lit "__proto__"; lit "B"]
    [[SString (lit "a"); SString (lit "b")]]
  = {[lit "B" := [Some (SString (lit "b"))]]}.
Proof. reflexivity. Qed.
End BridgeFacts.

Module SpecFacts.
Import Writeback Specs.

Section Lists.
Context {content : Type}.
Implicit Types (specs : list (namedSpec content)) (id : jsstring).

Lemma find_fresh id specs (s : namedSpec content) :
  Forall (fun s' => specId s' <> id) specs ->
  specId s = id ->
  find id (specs ++ [s]) = Some s.
Proof.
  intros Hfresh Hid. induction Hfresh as [|s' specs Hs' _ IH]; simpl.
  - now rewrite bool_decide_eq_true_2.
  - now rewrite bool_decide_eq_false_2.
Qed.

Lemma findIndex_find id specs i :
  findIndex id specs = Some i ->
  exists s, specs !! i = Some s /\ specId s = id
            /\ find id specs = Some s
            /\ forall c name,
                 find id (alter (overwrite name c) i specs)
                 = Some (overwrite name c s).
Proof.
  revert i. induction specs as [|s' specs IH]; intros i Hi; [discriminate|].
  simpl in Hi |- *.
  destruct (bool_decide (specId s' = id)) eqn:Hs'.
  - injection Hi as <-. apply bool_decide_eq_true in Hs'.
    exists s'. repeat split; try assumption.
    intros c name. simpl. now rewrite bool_decide_eq_true_2.
  - destruct (findIndex id specs) as [i'|]; [|discriminate].
    injection Hi as <-. destruct (IH i' eq_refl) as (s & H1 & H2 & H3 & H4).
    exists s. repeat split; try assumption.
    intros c name. simpl. rewrite Hs'. apply H4.
Qed.

Lemma findIndex_none id specs :
  findIndex id specs = None -> find id specs = None.
Proof.
  induction specs as [|s specs IH]; [reflexivity|]. simpl.
  destruct (bool_decide (specId s = id)); [discriminate|].
  destruct (findIndex id specs); [discriminate|]. intros _. now apply IH.
Qed.

Lemma alter_keeps_ids name (c : content) i specs :
  List.map specId (alter (overwrite name c) i specs) = List.map specId specs.
Proof.
  revert i. induction specs as [|s specs IH]; intros [|i]; simpl;
    try reflexivity.
  f_equal. apply IH.
Qed.

Lemma alter_keeps_others name (c : content) i specs id j s :
  findIndex id specs = Some i ->
  specs !! j = Some s -> specId s <> id ->
  alter (overwrite name c) i specs !! j = Some s.
Proof.
  intros Hi Hj Hs.
  destruct (findIndex_find id specs i Hi) as (s' & Hi' & Hid & _).
  rewrite list_lookup_alter_ne; [exact Hj|].
  intros <-. rewrite Hi' in Hj. injection Hj as <-. contradiction.
Qed.

(** The entry that a save leaves under the id it worked on. *)
Lemma putSpec_find selected now name (c : content) specs :
  (selected = [] /\ now <> []
   /\ Forall (fun s => specId s <> now) specs)
  \/ (selected <> [] /\ findIndex selected specs <> None) ->
  let id := match selected with [] => now | _ => selected end in
  find id (putSpec selected now name c specs)
  = Some {| specId := id; specName := name; specContent := c |}.
Proof.
  intros [(-> & Hnow & Hfresh)|(Hsel & Hfound)]; simpl.
  - now apply find_fresh.
  - destruct selected as [|ch selected]; [congruence|]. simpl.
    destruct (findIndex (ch :: selected) specs) as [i|] eqn:Hi;
      [|congruence].
    destruct (findIndex_find _ _ _ Hi) as (s & _ & Hid & _ & Hfind).
    rewrite Hfind. unfold overwrite. now rewrite Hid.
Qed.

Lemma putSpec_keeps selected now name (c : content) specs :
  List.map specId specs `prefix_of`
    List.map specId (putSpec selected now name c specs)
  /\ length (putSpec selected now name c specs) <= S (length specs)
  /\ (forall j s, specs !! j = Some s -> specId s <> selected ->
      putSpec selected now name c specs !! j = Some s)
  /\ (selected <> [] -> findIndex selected specs = None ->
      putSpec selected now name c specs = specs).
Proof.
  unfold putSpec. destruct selected as [|ch selected].
  - split; [|split; [|split]].
    + rewrite List.map_app. now apply prefix_app_r.
    + rewrite length_app. simpl. lia.
    + intros j s Hj _. now apply lookup_app_l_Some.
    + congruence.
  - destruct (findIndex (ch :: selected) specs) as [i|] eqn:Hi.
    + split; [|split; [|split]].
      * now rewrite alter_keeps_ids.
      * rewrite length_alter. lia.
      * intros j s Hj Hs. eapply alter_keeps_others; eassumption.
      * congruence.
    + split; [reflexivity|]. split; [lia|]. split; [tauto|reflexivity].
Qed.
End Lists.

Section Diagrams.
Variable JSON_stringify : list (namedSpec jsstring) -> jsstring.
Variable JSON_parse : jsstring -> option (list (namedSpec jsstring)).

Lemma storedDiagrams_set (specs : list (namedSpec jsstring)) st :
  JSON_stringify specs <> [] ->
  JSON_parse (JSON_stringify specs) = Some specs ->
  storedDiagrams JSON_parse
    (setSetting MERMAID_SPECS (JSON_stringify specs) st) = Some specs
  /\ storedDiagrams JSON_parse
       (saved (setSetting MERMAID_SPECS (JSON_stringify specs) st))
     = Some specs.
Proof.
  intros Hne Hparse. unfold storedDiagrams, saved, setSetting. simpl.
  rewrite lookup_insert_eq.
  destruct (JSON_stringify specs) as [|c text]; [congruence|]. now split.
Qed.

Lemma saveMermaidSpec_stores (now : jsstring) (save : saveStatus)
    (st : store) (ed : mermaidEditor) (specs : list (namedSpec jsstring)) :
  mermaidChartName ed <> [] ->
  storedDiagrams JSON_parse st = Some specs ->
  let specs' := putSpec (selected (mermaidSelect ed)) now
                  (mermaidChartName ed) (mermaidCode ed) specs in
  let after := saveMermaidSpec JSON_stringify JSON_parse now save st ed in
  let st' := setSetting MERMAID_SPECS (JSON_stringify specs') st in
  snd after = match save with SaveSucceeded => saved st' | _ => st' end
  /\ mermaidChartName (fst after) = mermaidChartName ed
  /\ mermaidCode (fst after) = mermaidCode ed
  /\ selected (mermaidSelect (fst after))
     = match selected (mermaidSelect ed) with
       | [] => now
       | id => id
       end.
Proof.
  intros Hname Hstored. unfold saveMermaidSpec.
  destruct (mermaidChartName ed) as [|c chartName] eqn:Hc; [congruence|].
  cbn [withMermaidMessage mermaidSelect mermaidChartName mermaidCode].
  rewrite Hstored.
  destruct (selected (mermaidSelect ed)) eqn:Hs; destruct save;
    cbn [fst snd withMermaidMessage mermaidSelect mermaidChartName
         mermaidCode addOption selected];
    repeat split; rewrite ?Hc, ?Hs; reflexivity.
Qed.

(** X13. A diagram saved under a non-empty name, as a new entry or over
    the selected stored entry, is what the settings hold afterwards, and
    selecting it in the picker as the save leaves it shows the saved name
    and code again, whether or not the document save succeeded.
    ([JSON.parse] is assumed to invert [JSON.stringify] on the saved
    list.) *)
Theorem saved_diagram_is_shown_again (now : jsstring) (save : saveStatus)
    (st : store) (ed : mermaidEditor) (specs : list (namedSpec jsstring)) :
  let id := selected (mermaidSelect ed) in
  let specs' := putSpec id now (mermaidChartName ed) (mermaidCode ed) specs in
  let after := saveMermaidSpec JSON_stringify JSON_parse now save st ed in
  mermaidChartName ed <> [] ->
  storedDiagrams JSON_parse st = Some specs ->
  (id = [] /\ now <> [] /\ Forall (fun s => specId s <> now) specs)
  \/ (id <> [] /\ findIndex id specs <> None) ->
  JSON_stringify specs' <> [] ->
  JSON_parse (JSON_stringify specs') = Some specs' ->
  storedDiagrams JSON_parse (snd after) = Some specs'
  /\ exists shown,
       onMermaidSpecSelect JSON_parse (snd after) (fst after) = Some shown
       /\ mermaidChartName shown = mermaidChartName ed
       /\ mermaidCode shown = mermaidCode ed.
Proof.
  intros id specs' after Hname Hstored Hcase Hne Hparse.
  pose proof (putSpec_find id now (mermaidChartName ed) (mermaidCode ed)
                specs Hcase) as Hfind.
  cbv zeta in Hfind.
  destruct (storedDiagrams_set specs' st Hne Hparse) as [Hset Hsaved].
  destruct (saveMermaidSpec_stores now save st ed specs Hname Hstored)
    as (Hst & Hn & Hcode & Hsel).
  subst id specs' after.
  set (after := saveMermaidSpec JSON_stringify JSON_parse now save st ed) in *.
  assert (Hstored' :
    storedDiagrams JSON_parse (snd after)
    = Some (putSpec (selected (mermaidSelect ed)) now (mermaidChartName ed)
              (mermaidCode ed) specs)).
  { rewrite Hst. destruct save; assumption. }
  split; [exact Hstored'|].
  unfold onMermaidSpecSelect. rewrite Hsel, Hstored'.
  destruct (selected (mermaidSelect ed)) as [|ch rest] eqn:Hs.
  - destruct now as [|ch rest].
    + exfalso. destruct Hcase as [(_ & Hnow & _)|(Hsel' & _)]; congruence.
    + rewrite Hfind. eexists. split; [reflexivity|]. now split.
  - rewrite Hfind. eexists. split; [reflexivity|]. now split.
Qed.

(** X14. Saving a diagram never loses a stored one: the identifiers of
    the stored diagrams stay, in order, at most one is added, every
    diagram other than the selected one is unchanged, and a selection
    that is no longer stored changes nothing at all. *)
Theorem saving_keeps_stored_diagrams (now : jsstring) (save : saveStatus)
    (st : store) (ed : mermaidEditor) (specs : list (namedSpec jsstring)) :
  mermaidChartName ed <> [] ->
  storedDiagrams JSON_parse st = Some specs ->
  exists specs',
    bag (snd (saveMermaidSpec JSON_stringify JSON_parse now save st ed))
      !! MERMAID_SPECS
    = Some (JSON_stringify specs')
    /\ List.map specId specs `prefix_of` List.map specId specs'
    /\ length specs' <= S (length specs)
    /\ (forall j s, specs !! j = Some s ->
        specId s <> selected (mermaidSelect ed) ->
        specs' !! j = Some s)
    /\ (selected (mermaidSelect ed) <> [] ->
        findIndex (selected (mermaidSelect ed)) specs = None ->
        specs' = specs).
Proof.
  intros Hname Hstored.
  exists (putSpec (selected (mermaidSelect ed)) now (mermaidChartName ed)
            (mermaidCode ed) specs).
  split; [|apply putSpec_keeps].
  unfold saveMermaidSpec.
  destruct (mermaidChartName ed) as [|c chartName] eqn:Hc; [congruence|].
  cbn [withMermaidMessage mermaidSelect mermaidChartName mermaidCode].
  rewrite Hstored.
  destruct save; cbn [snd saved setSetting bag]; apply lookup_insert_eq.
Qed.
End Diagrams.

Lemma vegaKey_inj (a b : jsstring) : vegaKey a = vegaKey b -> a = b.
Proof. unfold vegaKey. apply app_inv_head. Qed.

Lemma vegaKey_not_diagrams (t : jsstring) : MERMAID_SPECS <> vegaKey t.
Proof. intros H. vm_compute in H. discriminate H. Qed.

Section Charts.
Context {spec : Type}.
Variable parseSpec : jsstring -> option spec.
Variable showSpec : spec -> jsstring.
Variable JSON_stringify : list (namedSpec spec) -> jsstring.
Variable JSON_parse : jsstring -> option (list (namedSpec spec)).

(** X15. Saving a chart touches at most the settings key of the
    selected table: the diagrams and the charts of every other table
    stay as they are. *)
Theorem saving_a_chart_touches_one_key (now : jsstring) (save : saveStatus)
    (st : store) (ed : vegaEditor) :
  let st' := snd (saveVegaSpec parseSpec JSON_stringify JSON_parse now save
                    st ed) in
  (forall key, key <> vegaKey (vegaTableSelect ed) ->
   bag st' !! key = bag st !! key)
  /\ bag st' !! MERMAID_SPECS = bag st !! MERMAID_SPECS
  /\ (forall other, other <> vegaTableSelect ed ->
      bag st' !! vegaKey other = bag st !! vegaKey other).
Proof.
  intros st'.
  assert (Hkeys : forall key, key <> vegaKey (vegaTableSelect ed) ->
                  bag st' !! key = bag st !! key).
  { intros key Hkey. subst st'. unfold saveVegaSpec.
    destruct (vegaTableSelect ed) as [|c tableName] eqn:Ht; [reflexivity|].
    destruct (vegaChartName ed) as [|c' chartName]; [reflexivity|].
    cbn [withVegaMessage vegaSpecText vegaSelect].
    destruct (parseSpec (vegaSpecText ed)) as [chart|]; [|reflexivity].
    destruct (storedCharts JSON_parse (c :: tableName) st) as [specs|];
      [|reflexivity].
    destruct save; cbn [snd saved setSetting bag];
      now apply lookup_insert_ne. }
  split; [exact Hkeys|]. split.
  - apply Hkeys. apply vegaKey_not_diagrams.
  - intros other Hother. apply Hkeys. intros H. apply Hother.
    now apply vegaKey_inj.
Qed.

Lemma storedCharts_set tableName (specs : list (namedSpec spec)) st :
  JSON_stringify specs <> [] ->
  JSON_parse (JSON_stringify specs) = Some specs ->
  storedCharts JSON_parse tableName
    (setSetting (vegaKey tableName) (JSON_stringify specs) st) = Some specs
  /\ storedCharts JSON_parse tableName
       (saved (setSetting (vegaKey tableName) (JSON_stringify specs) st))
     = Some specs.
Proof.
  intros Hne Hparse. unfold storedCharts, saved, setSetting. simpl.
  rewrite lookup_insert_eq.
  destruct (JSON_stringify specs) as [|c text]; [congruence|]. now split.
Qed.

Lemma saveVegaSpec_stores (now : jsstring) (save : saveStatus)
    (st : store) (ed : vegaEditor) (specs : list (namedSpec spec)) chart :
  vegaTableSelect ed <> [] ->
  vegaChartName ed <> [] ->
  parseSpec (vegaSpecText ed) = Some chart ->
  storedCharts JSON_parse (vegaTableSelect ed) st = Some specs ->
  let specs' := putSpec (selected (vegaSelect ed)) now
                  (vegaChartName ed) chart specs in
  let after := saveVegaSpec parseSpec JSON_stringify JSON_parse now save
                 st ed in
  let st' := setSetting (vegaKey (vegaTableSelect ed))
               (JSON_stringify specs') st in
  snd after = match save with SaveSucceeded => saved st' | _ => st' end
  /\ vegaTableSelect (fst after) = vegaTableSelect ed
  /\ selected (vegaSelect (fst after))
     = match selected (vegaSelect ed) with
       | [] => now
       | id => id
       end.
Proof.
  intros Htable Hname Hchart Hstored. unfold saveVegaSpec.
  destruct (vegaTableSelect ed) as [|c tableName] eqn:Ht; [congruence|].
  destruct (vegaChartName ed) as [|c' chartName] eqn:Hc; [congruence|].
  cbn [withVegaMessage vegaSpecText vegaSelect].
  rewrite Hchart, Hstored.
  destruct (selected (vegaSelect ed)) eqn:Hs; destruct save;
    cbn [fst snd withVegaMessage vegaTableSelect vegaSelect vegaChartName
         vegaSpecText addOption selected];
    repeat split; rewrite ?Hc, ?Hs, ?Ht; reflexivity.
Qed.

(** X16. A chart saved for a table under a non-empty name, with a
    specification that parses, is what the settings hold for that table
    afterwards, and selecting it in the picker as the save leaves it
    shows the saved name and the stored specification pretty-printed.
    ([JSON.parse] is assumed to invert [JSON.stringify] on the saved
    list.) *)
Theorem saved_chart_is_shown_again (now : jsstring) (save : saveStatus)
    (st : store) (ed : vegaEditor) (specs : list (namedSpec spec)) chart :
  let id := selected (vegaSelect ed) in
  let specs' := putSpec id now (vegaChartName ed) chart specs in
  let after := saveVegaSpec parseSpec JSON_stringify JSON_parse now save
                 st ed in
  vegaTableSelect ed <> [] ->
  vegaChartName ed <> [] ->
  parseSpec (vegaSpecText ed) = Some chart ->
  storedCharts JSON_parse (vegaTableSelect ed) st = Some specs ->
  (id = [] /\ now <> [] /\ Forall (fun s => specId s <> now) specs)
  \/ (id <> [] /\ findIndex id specs <> None) ->
  JSON_stringify specs' <> [] ->
  JSON_parse (JSON_stringify specs') = Some specs' ->
  storedCharts JSON_parse (vegaTableSelect ed) (snd after) = Some specs'
  /\ exists shown,
       onVegaSpecSelect showSpec JSON_parse (snd after) (fst after)
       = Some shown
       /\ vegaChartName shown = vegaChartName ed
       /\ vegaSpecText shown = showSpec chart.
Proof.
  intros id specs' after Htable Hname Hchart Hstored Hcase Hne Hparse.
  pose proof (putSpec_find id now (vegaChartName ed) chart specs Hcase)
    as Hfind.
  cbv zeta in Hfind.
  destruct (storedCharts_set (vegaTableSelect ed) specs' st Hne Hparse)
    as [Hset Hsaved].
  destruct (saveVegaSpec_stores now save st ed specs chart Htable Hname
              Hchart Hstored) as (Hst & Ht & Hsel).
  subst id specs' after.
  set (after := saveVegaSpec parseSpec JSON_stringify JSON_parse now save
                  st ed) in *.
  assert (Hstored' :
    storedCharts JSON_parse (vegaTableSelect ed) (snd after)
    = Some (putSpec (selected (vegaSelect ed)) now (vegaChartName ed)
              chart specs)).
  { rewrite Hst. destruct save; assumption. }
  split; [exact Hstored'|].
  unfold onVegaSpecSelect. rewrite Ht, Hsel.
  destruct (vegaTableSelect ed) as [|c tableName] eqn:Htab; [congruence|].
  rewrite Hstored'.
  destruct (selected (vegaSelect ed)) as [|ch rest] eqn:Hs.
  - destruct now as [|ch rest].
    + exfalso. destruct Hcase as [(_ & Hnow & _)|(Hsel' & _)]; congruence.
    + rewrite Hfind. eexists. split; [reflexivity|]. now split.
  - rewrite Hfind. eexists. split; [reflexivity|]. now split.
Qed.
End Charts.

Import SpecExamples.

(** X13, witness: a first diagram is saved while the document refuses the
    save. *)
Lemma saved_diagram_is_shown_again_witness :
  let after := saveMermaidSpec writeSpecs readSpecs timestamp SaveFailed
                 emptyStore newDiagram in
  storedDiagrams readSpecs (snd after)
  = Some [{| specId := timestamp; specName := lit "Order flow";
             specContent := defaultDiagram |}]
  /\ exists shown,
       onMermaidSpecSelect readSpecs (snd after) (fst after) = Some shown
       /\ mermaidChartName shown = lit "Order flow"
       /\ mermaidCode shown = defaultDiagram.
Proof.
  apply (saved_diagram_is_shown_again writeSpecs readSpecs timestamp
           SaveFailed emptyStore newDiagram []).
  - discriminate.
  - reflexivity.
  - left. split; [reflexivity|]. split; [discriminate|constructor].
  - discriminate.
  - vm_compute. reflexivity.
Defined.

(** X14, witness: the stored diagram is renamed. *)
Lemma saving_keeps_stored_diagrams_witness :
  exists specs',
    bag (snd (saveMermaidSpec writeSpecs readSpecs timestamp SaveSucceeded
                oneDiagram renaming))
      !! MERMAID_SPECS
    = Some (writeSpecs specs')
    /\ List.map specId [orderFlow] `prefix_of` List.map specId specs'
    /\ length specs' <= 2
    /\ (forall j s, [orderFlow] !! j = Some s ->
        specId s <> selected (mermaidSelect renaming) ->
        specs' !! j = Some s)
    /\ (selected (mermaidSelect renaming) <> [] ->
        findIndex (selected (mermaidSelect renaming)) [orderFlow] = None ->
        specs' = [orderFlow]).
Proof.
  apply (saving_keeps_stored_diagrams writeSpecs readSpecs timestamp
           SaveSucceeded oneDiagram renaming [orderFlow]).
  - discriminate.
  - vm_compute. reflexivity.
Defined.

(** X16, witness: a first chart for [Sales]. *)
Lemma saved_chart_is_shown_again_witness :
  let after := saveVegaSpec VegaExamples.parseJson writeSpecs readSpecs
                 timestamp SaveSucceeded emptyStore newChart in
  storedCharts readSpecs (lit "Sales") (snd after)
  = Some [{| specId := timestamp; specName := lit "Totals";
             specContent := lit "{}" |}]
  /\ exists shown,
       onVegaSpecSelect (fun chart => chart) readSpecs (snd after) (fst after)
       = Some shown
       /\ vegaChartName shown = lit "Totals"
       /\ vegaSpecText shown = lit "{}".
Proof.
  apply (saved_chart_is_shown_again VegaExamples.parseJson (fun chart => chart)
           writeSpecs readSpecs timestamp SaveSucceeded emptyStore newChart []
           (lit "{}")).
  - discriminate.
  - discriminate.
  - reflexivity.
  - reflexivity.
  - left. split; [reflexivity|]. split; [discriminate|constructor].
  - discriminate.
  - vm_compute. reflexivity.
Defined.
End SpecFacts.

Module SettingsFacts.
Import Writeback Specs Queries.
Import ExportFacts SheetFacts.

Lemma defaultCode_nonempty (code : jsstring) : defaultCode code <> [].
Proof.
  unfold defaultCode. destruct code as [|c code]; [discriminate|].
  destruct (trim (c :: code)); discriminate.
Qed.

Lemma vegaKey_valid (t : jsstring) :
  validTableName t = true -> validTableName (vegaKey t) = true.
Proof.
  intros Ht. unfold vegaKey.
  change (lit "VEGA_SPECS_") with (86%N :: lit "EGA_SPECS_").
  cbn [app validTableName]. apply andb_true_iff. split; [reflexivity|].
  rewrite List.forallb_app. apply andb_true_iff. split; [reflexivity|].
  destruct t as [|c t]; [discriminate|]. simpl in Ht |- *.
  apply andb_true_iff in Ht. destruct Ht as [Hc Ht].
  apply andb_true_iff. split; [|exact Ht].
  apply orb_true_iff in Hc. destruct Hc as [Hc | Hc]; rewrite Hc; [reflexivity|].
  now rewrite orb_true_r.
Qed.

Section Facts.
Context {object : Type}.
Variable JSON_stringify : object -> json.

(** X17. After a successful export, [loadQueryForTable] of the exported
    table gives the code that was run ([dt] for a blank editor), never
    the empty default. *)
Theorem exported_query_is_read_back (w : world object) :
  let o := outputToExcel JSON_stringify w in
  messageArea o = successMessage (outputTableNameInput w) ->
  loadQueryForTable (settingsBag o) (outputTableNameInput w)
  = defaultCode (queryCode w)
  /\ defaultCode (queryCode w) <> [].
Proof.
  intros o Hsuccess. split; [|apply defaultCode_nonempty].
  destruct (outputToExcel_outcomes JSON_stringify w)
    as [(_ & Hbag & _)|(Hfail & _)]; [|contradiction].
  fold o in Hbag. unfold loadQueryForTable. rewrite Hbag, lookup_insert_eq.
  pose proof (defaultCode_nonempty (queryCode w)).
  destruct (defaultCode (queryCode w)); [congruence|reflexivity].
Qed.

(** X18. A table name of the form [VEGA_SPECS_<t>] passes the name
    check of the export; after such an export has succeeded, the charts
    stored for table [t] are whatever [JSON.parse] makes of the query
    code. *)
Theorem export_under_a_chart_key_replaces_the_charts {spec : Type}
    (JSON_parse : jsstring -> option (list (namedSpec spec)))
    (w : world object) (t : jsstring) :
  let o := outputToExcel JSON_stringify w in
  validTableName t = true ->
  outputTableNameInput w = vegaKey t ->
  messageArea o = successMessage (vegaKey t) ->
  validTableName (outputTableNameInput w) = true
  /\ storedCharts JSON_parse t
       {| bag := settingsBag o; document := settingsSaved o |}
     = JSON_parse (defaultCode (queryCode w)).
Proof.
  intros o Ht Hname Hsuccess. split; [rewrite Hname; now apply vegaKey_valid|].
  destruct (outputToExcel_outcomes JSON_stringify w)
    as [(_ & Hbag & _)|(Hfail & _)].
  - fold o in Hbag. unfold storedCharts. cbn [bag].
    rewrite Hbag, Hname, lookup_insert_eq.
    pose proof (defaultCode_nonempty (queryCode w)).
    destruct (defaultCode (queryCode w)); [congruence|reflexivity].
  - rewrite Hname in Hfail. contradiction.
Qed.
End Facts.

Import Examples MoreExamples Sanitize SpecExamples.

(** X17, witness: a blank editor; the table's query reads back as [dt]. *)
Lemma exported_query_is_read_back_witness :
  loadQueryForTable
    (settingsBag
       (outputToExcel stringifyBoolArray
          (click [32%N] summary (Some itemNotFound) SaveFailed)))
    (lit "SalesSummary")
  = lit "dt"
  /\ defaultCode [32%N] <> [].
Proof.
  apply (exported_query_is_read_back stringifyBoolArray
           (click [32%N] summary (Some itemNotFound) SaveFailed)).
  vm_compute. reflexivity.
Defined.

(** X18, witness: the export is named [VEGA_SPECS_Sales]; the charts of
    [Sales] are then what the parser makes of [dt]. *)
Lemma export_under_a_chart_key_replaces_the_charts_witness :
  validTableName (outputTableNameInput clashingClick) = true
  /\ storedCharts readSpecs (lit "Sales")
       {| bag := settingsBag (outputToExcel stringifyBoolArray clashingClick);
          document :=
            settingsSaved (outputToExcel stringifyBoolArray clashingClick) |}
     = None.
Proof.
  apply (export_under_a_chart_key_replaces_the_charts stringifyBoolArray
           readSpecs clashingClick (lit "Sales")).
  - reflexivity.
  - reflexivity.
  - vm_compute. reflexivity.
Defined.
End SettingsFacts.

Module ChartDataFacts.
Import ChartData.

Section Facts.
Context {rows other : Type}.
Implicit Types (spec : chart rows other) (st : state rows other).

Lemma onTableChanged_holds (d : rows) st (fetched : option rows) :
  holds d st ->
  holds d (onTableChanged st fetched)
  /\ exists later,
       embedded (onTableChanged st fetched) = embedded st ++ later
       /\ Forall (fun c => data c = Values d) later
       /\ length later = match fetched with Some _ => 1 | None => 0 end.
Proof.
  intros (spec & Hspec & Hdata). unfold onTableChanged. rewrite Hspec.
  destruct fetched as [dataObjects|]; simpl; rewrite ?Hdata; simpl.
  - split; [eexists; split; reflexivity|].
    eexists [_]. split; [reflexivity|]. split; [|reflexivity].
    constructor; [reflexivity|constructor].
  - split; [exists spec; now split|].
    exists []. split; [now rewrite app_nil_r|]. split; [constructor|reflexivity].
Qed.

Lemma changes_hold (d : rows) (changes : list (option rows)) :
  forall st, holds d st ->
  holds d (fold_left onTableChanged changes st)
  /\ exists later,
       embedded (fold_left onTableChanged changes st) = embedded st ++ later
       /\ Forall (fun c => data c = Values d) later
       /\ length later = length (List.filter wasRead changes).
Proof.
  induction changes as [|fetched changes IH]; intros st Hst.
  - split; [exact Hst|]. exists []. split; [now rewrite app_nil_r|].
    split; [constructor|reflexivity].
  - simpl fold_left.
    destruct (onTableChanged_holds d st fetched Hst)
      as (Hst' & later & Hemb & Hall & Hlen).
    destruct (IH _ Hst') as (Hend & later' & Hemb' & Hall' & Hlen').
    split; [exact Hend|]. exists (later ++ later').
    split; [now rewrite Hemb', Hemb, app_assoc|].
    split; [now apply Forall_app|].
    rewrite length_app, Hlen, Hlen'. now destruct fetched.
Qed.

(** X19. After a preview that injected the table's rows into the chart,
    every later table change renders the rows of the preview, not the
    rows the table has then: the stored specification keeps them, and
    each change that can read the table embeds one chart with them. *)
Theorem table_changes_render_the_rows_of_the_preview spec (d : rows)
    (changes : list (option rows)) st :
  wantsData (data spec) = true ->
  let previewed := previewChart spec (Some d) st in
  let later := fold_left onTableChanged changes previewed in
  holds d later
  /\ exists charts,
       embedded later = embedded previewed ++ charts
       /\ Forall (fun c => data c = Values d) charts
       /\ length charts = length (List.filter wasRead changes).
Proof.
  intros Hwants previewed later. apply changes_hold.
  subst previewed. unfold previewChart. simpl. rewrite Hwants.
  eexists. split; reflexivity.
Qed.
End Facts.

(** X19, witness: a chart without data is previewed when the table holds
    the rows numbered 1; the table then changes twice. *)
Lemma table_changes_render_the_rows_of_the_preview_witness :
  let spec := {| hasSchema := true; data := @NoData nat; rest := tt |} in
  let previewed :=
    previewChart spec (Some 1) {| vegaCurrentSpec := None; embedded := [] |} in
  let later := fold_left onTableChanged [Some 2; Some 3] previewed in
  holds 1 later
  /\ exists charts,
       embedded later = embedded previewed ++ charts
       /\ Forall (fun c => data c = Values 1) charts
       /\ length charts = 2.
Proof.
  apply (table_changes_render_the_rows_of_the_preview
           {| hasSchema := true; data := @NoData nat; rest := tt |} 1
           [Some 2; Some 3] {| vegaCurrentSpec := None; embedded := [] |}).
  reflexivity.
Defined.
End ChartDataFacts.

Module SortingFacts.
Import Sorting.

Lemma findColumn_first (columnName : jsstring) (items : list jsstring) :
  forall i,
  match findColumn columnName items i with
  | Some k =>
    i <= k /\ items !! (k - i) = Some columnName
    /\ forall j, j < k - i -> items !! j <> Some columnName
  | None => columnName ∉ items
  end.
Proof.
  induction items as [|name rest IH]; intros i; simpl.
  - apply not_elem_of_nil.
  - destruct (bool_decide (name = columnName)) eqn:Hname.
    + apply bool_decide_eq_true in Hname. subst name.
      replace (i - i) with 0 by lia. split; [lia|]. split; [reflexivity|].
      intros j Hj. lia.
    + apply bool_decide_eq_false in Hname. specialize (IH (S i)).
      destruct (findColumn columnName rest (S i)) as [k|].
      * destruct IH as (Hle & Hk & Hfirst). split; [lia|].
        replace (k - i) with (S (k - S i)) by lia. split; [exact Hk|].
        intros [|j] Hj; simpl; [congruence|]. apply Hfirst. lia.
      * apply not_elem_of_cons. split; [congruence|exact IH].
Qed.

(** X20. [sortTable] sorts on the first column of the given name,
    ascending exactly when the direction is the text [ascending]; for a
    name that no column has it queues no sort at all. *)
Theorem sort_is_keyed_on_first_column_of_that_name
    (columns : list jsstring) (columnName direction : jsstring) :
  match sortTable columns columnName direction with
  | Some field =>
    columns !! key field = Some columnName
    /\ (forall j, j < key field -> columns !! j <> Some columnName)
    /\ (ascending field = true <-> direction = lit "ascending")
  | None => columnName ∉ columns
  end.
Proof.
  unfold sortTable. pose proof (findColumn_first columnName columns 0) as H.
  destruct (findColumn columnName columns 0) as [k|]; [|exact H].
  destruct H as (_ & Hk & Hfirst). replace (k - 0) with k in * by lia.
  simpl. split; [exact Hk|]. split; [exact Hfirst|].
  apply bool_decide_eq_true.
Qed.
End SortingFacts.
